(** * SpectraST library importer (.splib): build, merge and curate

    A shallow embedding of [SpectraSTSpLibImporter.cpp]: the combine
    actions (UNION, APPEND, INTERSECT, SUBTRACT, SUBTRACT_HOMOLOGS), the
    build-action dispatch, the five-level quality filter with its
    inclusion-exclusion counters, and the similarity clustering of
    unidentified spectra.

    Conventions.
    - [unsigned int] values are [Z] with the wrap-around [u32] written out.
    - [double] values are the rationals they denote ([Q]). Where a double
      is computed and then cut to an integer (the peak quorum's threshold)
      every operation rounds to the nearest binary64 value as the machine
      does ([roundDouble]); where doubles are only compared, the concrete
      inputs below use values for which the rounding cannot change the
      outcome of a comparison.
    - A pointer that may be [NULL] is an [option]; dereferencing [NULL] is
      the outcome [Crash].
    - Classes of the repository that are not part of this translation unit
      (peptides, peak lists, indices, the replicate reducer, the log) are
      gathered in the class [Collaborators]; their results are taken as
      given, the control flow around them is the importer's. *)

From Stdlib Require Import ZArith QArith Qround Qpower String List Lia Lqa.
From stdpp Require Import gmap strings list sorting.

Local Open Scope Z_scope.

(** ** Machine arithmetic *)

Definition u32 (z : Z) : Z := z mod 2 ^ 32.

Definition double : Type := Q.

(** [a >= b], [a < b] and [a > b] on doubles. *)
Definition dge (a b : double) : bool := Qle_bool b a.
Definition dlt (a b : double) : bool := negb (Qle_bool b a).
Definition dgt (a b : double) : bool := dlt b a.

(** The cast [(unsigned int) x] of a double: truncation toward zero. *)
Definition truncate (x : double) : Z :=
  if Qle_bool 0 x then Qfloor x else Qceiling x.
Definition to_uint (x : double) : Z := u32 (truncate x).

(** *** Rounding to binary64

    The result of an operation on doubles is the binary64 value nearest to
    the exact result, ties going to the even significand. A positive [x]
    with [2^e <= x < 2^(e+1)] is rounded to a multiple of [2^(e-52)], and
    to a multiple of [2^-1074] below the normal range; overflow to infinity
    is outside the model, no value here comes near it. *)
Definition pow2 (e : Z) : Q := (2 ^ e)%Q.

(** The exponent [e] with [2^e <= x < 2^(e+1)], for a positive [x]. *)
Definition ilog2 (x : Q) : Z :=
  let e := Z.log2 (Qnum x) - Z.log2 (Zpos (Qden x)) in
  if Qle_bool (pow2 e) x then e else e - 1.

(** The nearest integer, a tie going to the even one. *)
Definition roundEven (x : Q) : Z :=
  let f := Qfloor x in
  match (x - inject_Z f ?= 1 # 2)%Q with
  | Lt => f
  | Gt => f + 1
  | Eq => if Z.even f then f else f + 1
  end.

(** The distance between neighbouring doubles around [x]. *)
Definition ulpAt (x : Q) : Q := pow2 (Z.max (ilog2 x) (-1022) - 52).

Definition roundPos (x : Q) : Q :=
  (inject_Z (roundEven (x / ulpAt x)) * ulpAt x)%Q.

Definition roundDouble (x : Q) : double :=
  Qred match (x ?= 0)%Q with
       | Eq => 0
       | Gt => roundPos x
       | Lt => - roundPos (- x)
       end%Q.

(** [a * b] and [a - b] on doubles. *)
Definition dmul (a b : double) : double := roundDouble (a * b).
Definition dsub (a b : double) : double := roundDouble (a - b).

(** ** Data model *)

Record Peptide := {
  stripped : string;
  pepCharge : Z;
  pepMods : string
}.

(** One peak. The annotation text that [annotatePeaks] fills in is not
    carried: no decision of the importer reads it except through
    [calcFractionUnassigned], which is a collaborator. *)
Record Peak := {
  peakMz : double;
  intensity : double;
  nrepsWithPeak : Z
}.

Record Entry := {
  libId : Z;
  name : string;
  libFileOffset : Z;
  peptidePtr : option Peptide;
  charge : Z;
  fragType : string;
  status : string;
  nrepsUsed : Z;
  prob : double;
  precursorMz : double;
  comments : gmap string string;
  peakList : list Peak
}.

Definition setStatus (st : string) (e : Entry) : Entry :=
  {| libId := libId e; name := name e; libFileOffset := libFileOffset e;
     peptidePtr := peptidePtr e; charge := charge e; fragType := fragType e;
     status := st; nrepsUsed := nrepsUsed e; prob := prob e;
     precursorMz := precursorMz e; comments := comments e;
     peakList := peakList e |}.

Definition setFragType (ft : string) (e : Entry) : Entry :=
  {| libId := libId e; name := name e; libFileOffset := libFileOffset e;
     peptidePtr := peptidePtr e; charge := charge e; fragType := ft;
     status := status e; nrepsUsed := nrepsUsed e; prob := prob e;
     precursorMz := precursorMz e; comments := comments e;
     peakList := peakList e |}.

Definition setOneComment (k v : string) (e : Entry) : Entry :=
  {| libId := libId e; name := name e; libFileOffset := libFileOffset e;
     peptidePtr := peptidePtr e; charge := charge e; fragType := fragType e;
     status := status e; nrepsUsed := nrepsUsed e; prob := prob e;
     precursorMz := precursorMz e; comments := <[k := v]> (comments e);
     peakList := peakList e |}.

Definition getOneComment (k : string) (e : Entry) : option string :=
  comments e !! k.

Definition setPeakList (pl : list Peak) (e : Entry) : Entry :=
  {| libId := libId e; name := name e; libFileOffset := libFileOffset e;
     peptidePtr := peptidePtr e; charge := charge e; fragType := fragType e;
     status := status e; nrepsUsed := nrepsUsed e; prob := prob e;
     precursorMz := precursorMz e; comments := comments e;
     peakList := pl |}.

(** Peptide index of one library: peptide key, then subkey, then the
    entries filed under that peptide ion, in index order. *)
Definition PepIndex : Type := list (string * list (string * list Entry)).

(** Mass index of one library: the entries in precursor m/z order. *)
Definition MzIndex : Type := list Entry.

(** An .splib file that could be opened, seen through its two indices,
    with the lines [parsePreamble] collects from its preamble. *)
Record SpLib := {
  pepidx : PepIndex;
  mzidx : MzIndex;
  preambleLines : list string
}.

(** An input file name with what opening it gives ([None]: cannot be
    opened for reading). *)
Record InputFile := {
  fileName : string;
  content : option SpLib
}.

(** Protein mappings: sequence -> mapped proteins ([None]: no protein
    mapped for now). *)
Definition PPMap : Type := gmap string (option (list (string * string))).

Record Params := {
  combineAction : string;
  buildAction : string;
  plotSpectra : string;
  useBayesianDenoiser : bool;
  trainBayesianDenoiser : bool;
  refreshDatabase : string;
  refreshTrypticOnly : bool;
  refreshDeleteUnmapped : bool;
  refreshDeleteMultimapped : bool;
  qualityLevelMark : Z;
  qualityLevelRemove : Z;
  qualityImmuneProbThreshold : double;
  qualityImmuneMultipleEngines : bool;
  qualityPenalizeSingletons : bool;
  minimumNumReplicates : Z;
  peakQuorum : double;
  decoySizeRatio : Z;
  decoyConcatenate : bool;
  reduceSpectrum : Z;
  minimumMRMQ3MZ : double;
  maximumMRMQ3MZ : double;
  allowableModTokens : string;
  setFragmentation : string;
  annotatePeaks : bool;
  unidentifiedClusterMinimumDot : double;
  unidentifiedSingletonXreaThreshold : double
}.

Definition setReduceSpectrum (r : Z) (p : Params) : Params :=
  {| combineAction := combineAction p; buildAction := buildAction p;
     plotSpectra := plotSpectra p;
     useBayesianDenoiser := useBayesianDenoiser p;
     trainBayesianDenoiser := trainBayesianDenoiser p;
     refreshDatabase := refreshDatabase p;
     refreshTrypticOnly := refreshTrypticOnly p;
     refreshDeleteUnmapped := refreshDeleteUnmapped p;
     refreshDeleteMultimapped := refreshDeleteMultimapped p;
     qualityLevelMark := qualityLevelMark p;
     qualityLevelRemove := qualityLevelRemove p;
     qualityImmuneProbThreshold := qualityImmuneProbThreshold p;
     qualityImmuneMultipleEngines := qualityImmuneMultipleEngines p;
     qualityPenalizeSingletons := qualityPenalizeSingletons p;
     minimumNumReplicates := minimumNumReplicates p;
     peakQuorum := peakQuorum p;
     decoySizeRatio := decoySizeRatio p;
     decoyConcatenate := decoyConcatenate p;
     reduceSpectrum := r;
     minimumMRMQ3MZ := minimumMRMQ3MZ p;
     maximumMRMQ3MZ := maximumMRMQ3MZ p;
     allowableModTokens := allowableModTokens p;
     setFragmentation := setFragmentation p;
     annotatePeaks := annotatePeaks p;
     unidentifiedClusterMinimumDot := unidentifiedClusterMinimumDot p;
     unidentifiedSingletonXreaThreshold :=
       unidentifiedSingletonXreaThreshold p |}.

Definition setQualityLevels (mark remove : Z) (p : Params) : Params :=
  {| combineAction := combineAction p; buildAction := buildAction p;
     plotSpectra := plotSpectra p;
     useBayesianDenoiser := useBayesianDenoiser p;
     trainBayesianDenoiser := trainBayesianDenoiser p;
     refreshDatabase := refreshDatabase p;
     refreshTrypticOnly := refreshTrypticOnly p;
     refreshDeleteUnmapped := refreshDeleteUnmapped p;
     refreshDeleteMultimapped := refreshDeleteMultimapped p;
     qualityLevelMark := mark;
     qualityLevelRemove := remove;
     qualityImmuneProbThreshold := qualityImmuneProbThreshold p;
     qualityImmuneMultipleEngines := qualityImmuneMultipleEngines p;
     qualityPenalizeSingletons := qualityPenalizeSingletons p;
     minimumNumReplicates := minimumNumReplicates p;
     peakQuorum := peakQuorum p;
     decoySizeRatio := decoySizeRatio p;
     decoyConcatenate := decoyConcatenate p;
     reduceSpectrum := reduceSpectrum p;
     minimumMRMQ3MZ := minimumMRMQ3MZ p;
     maximumMRMQ3MZ := maximumMRMQ3MZ p;
     allowableModTokens := allowableModTokens p;
     setFragmentation := setFragmentation p;
     annotatePeaks := annotatePeaks p;
     unidentifiedClusterMinimumDot := unidentifiedClusterMinimumDot p;
     unidentifiedSingletonXreaThreshold :=
       unidentifiedSingletonXreaThreshold p |}.

(** ** The log sink

    A message is what was streamed into it: literal text and numbers, in
    order (the rendering of a number to digits is the stream's). *)
Inductive Frag :=
| Str (s : string)
| UInt (z : Z)
| Int (z : Z)
| Dbl (q : double).

Definition Text : Type := list Frag.

Inductive Severity := SevError | SevInfo.

Record LogMsg := {
  severity : Severity;
  category : string;
  text : Text
}.

(** ** Outcomes of code that may dereference a null pointer *)

Inductive Fault := NullSearchLib | NullPeptide.

Inductive Outcome (A : Type) :=
| Done (a : A)
| Crash (f : Fault).
Arguments Done {A} a.
Arguments Crash {A} f.

#[global] Instance Outcome_ret : MRet Outcome := fun A a => Done a.
#[global] Instance Outcome_bind : MBind Outcome := fun A B k m =>
  match m with
  | Done a => k a
  | Crash f => Crash f
  end.

(** ** Quality-filter statistics

    [QFStats] is a flat struct of counters, one per quality concern and
    one per intersection of concerns; it is read and written by field
    name only, so it is kept as a total map from field names. The
    counters are [unsigned int], like the level variables they are
    combined with. *)
Inductive QFCounter :=
| immuneProb | immuneEngine
| Q1 | Q2 | Q3 | Q4 | Q5
| Q1Q2 | Q1Q3 | Q1Q4 | Q1Q5 | Q2Q3 | Q2Q4 | Q2Q5 | Q3Q4 | Q3Q5 | Q4Q5
| Q1Q2Q3 | Q1Q2Q4 | Q1Q2Q5 | Q1Q3Q4 | Q1Q3Q5 | Q1Q4Q5
| Q2Q3Q4 | Q2Q3Q5 | Q2Q4Q5 | Q3Q4Q5
| Q1Q2Q3Q4 | Q1Q2Q3Q5 | Q1Q2Q4Q5 | Q1Q3Q4Q5 | Q2Q3Q4Q5
| Q1Q2Q3Q4Q5.

#[global] Instance QFCounter_eq_dec : EqDecision QFCounter.
Proof. solve_decision. Defined.

Definition QFStats : Type := QFCounter -> Z.

(** [memset(&qfstats, '\0', sizeof(qfstats))] *)
Definition qfstats_zero : QFStats := fun _ => 0.

(** [qfstats.c++] *)
Definition incr (c : QFCounter) (q : QFStats) : QFStats :=
  fun c' => if decide (c = c') then u32 (q c' + 1) else q c'.

Definition incrIf (b : bool) (c : QFCounter) (q : QFStats) : QFStats :=
  if b then incr c q else q.

(** ** Collaborators

    What the importer calls in the rest of the repository. Each field
    stands for the named member function or helper; the importer only
    consumes the result. *)
Class Collaborators := {
  (** [SpectraSTDenoiser]: construction, [useDefault], [isFilterReady],
      [generateBayesianModel]. *)
  Denoiser : Type;
  newDenoiser : Denoiser;
  useDefault : Denoiser -> Denoiser;
  isFilterReady : Denoiser -> bool;
  generateBayesianModel : Denoiser -> Denoiser;
  (** [SpectraSTReplicates::findBestReplicate] and
      [makeConsensusSpectrum]; the latter feeds the denoiser it is given,
      which is left as [denoiserAfterConsensus] says. *)
  findBestReplicate : Params -> list Entry -> option Entry;
  makeConsensusSpectrum :
    Params -> option Denoiser -> list Entry -> option Entry;
  denoiserAfterConsensus : Params -> Denoiser -> list Entry -> Denoiser;
  (** [SpectraSTLibImporter::passAllFilters] of the parent class. *)
  basePassAllFilters : Params -> Entry -> bool;
  (** The peptide key and [SpectraSTPeptideLibIndex::constructSubkey] under
      which a peptide index files an entry. *)
  entryKey : Entry -> string * string;
  (** [Peptide::operator==], [isHomolog] (with the identity it reports),
      [interactStyleWithCharge], [NAA]. *)
  peptideEq : Peptide -> Peptide -> bool;
  isHomolog : Peptide -> Peptide -> double -> bool * Z;
  interactStyleWithCharge : Peptide -> string;
  NAA : Peptide -> Z;
  (** [SpectraSTPeakList]: [compare] (dot product), [simplify],
      [calcXrea], [calcFractionUnassigned] after annotation against the
      peptide (fraction, number unassigned, number assigned; the last
      argument lists the optional flags passed), [reduce]. *)
  compare : list Peak -> list Peak -> double;
  simplify : Z -> Z -> list Peak -> list Peak;
  calcXrea : list Peak -> double;
  calcFractionUnassigned :
    Peptide -> list Peak -> Z -> list bool -> double * Z * Z;
  reduce : Z -> double -> double -> Z -> list Peak -> list Peak * double;
  (** Text helpers of FileUtils and the C library: the engine count at the
      head of an [Se] comment, the top-20 triple of a [FracUnassigned]
      comment (fraction, first count, second count), [atof], fixed-point
      and integer rendering. *)
  parseSeCount : string -> Z;
  parseFracUnassignedTop20 : string -> double * Z * Z;
  atof : string -> double;
  fmtFixed : nat -> double -> string;
  fmtUInt : Z -> string;
  (** [SpectraSTPeptideLibIndex::hasSharedSequence]. *)
  idxHasSharedSequence : PepIndex -> Peptide -> string -> bool;
  (** [SpectraSTMzLibIndex::sortEntriesByNreps] and [sortEntriesBySN]: the
      order in which [nextSortedEntry] then yields the entries. *)
  sortEntriesByNreps : MzIndex -> list Entry;
  sortEntriesBySN : MzIndex -> list Entry;
  (** [SpectraSTFastaFileHandler::refresh]. *)
  fastaRefresh : string -> bool -> PPMap -> PPMap;
  (** The loop of [processEntry] over the mapped proteins of a sequence
      (protein and context lists, best flanking residues, [synchWithPep]),
      up to and including the [Protein] and [PepContext] comments. *)
  remapProteins : list (string * string) -> Entry -> Entry;
  (** [SpectraSTCreateParams::constructDescrStr], [makeFullPath]. *)
  constructDescrStr : Params -> string -> string -> string;
  makeFullPath : string -> string;
  (** The entries the shuffling loop of [doGenerateDecoy] inserts (it
      draws from [rand()] seeded with the wall clock), and those the
      permutation loop of [doUserSpecifiedModifications] inserts; both
      receive the importer's filter and [processEntry]. *)
  decoyEntries :
    Params -> PepIndex -> (Entry -> bool) -> (Entry -> Entry) -> list Entry;
  semiEmpiricalEntries : Params -> PepIndex -> list Entry
}.

(** ** Index operations

    Modelled from the spec: [SpectraSTPeptideLibIndex] and
    [SpectraSTMzLibIndex] are not part of this translation unit. The
    peptide index maps a peptide key to its subkeys, each resolving to
    entries; it supports membership, retrieval, enumeration of the keys and
    the uniqueness check (each peptide ion resolves to exactly one entry).
    The mass index supports range retrieval by precursor m/z. *)
Definition lookupSubkeys (idx : PepIndex) (peptide : string)
  : list (string * list Entry) :=
  flat_map (fun ps => if String.eqb (fst ps) peptide then snd ps else []) idx.

Definition retrieve (idx : PepIndex) (peptide subkey : string) : list Entry :=
  flat_map (fun ke => if String.eqb (fst ke) subkey then snd ke else [])
           (lookupSubkeys idx peptide).

Definition isInIndex (idx : PepIndex) (peptide subkey : string) : bool :=
  existsb (fun ke => String.eqb (fst ke) subkey) (lookupSubkeys idx peptide).

Definition getAllSequences (idx : PepIndex) : list string := map fst idx.

Definition isUniqueLibrary (idx : PepIndex) : bool :=
  forallb (fun ps =>
    forallb (fun ke => (Z.of_nat (length (snd ke)) =? 1)) (snd ps)) idx.

Definition retrieveMz (idx : MzIndex) (lo hi : double) : list Entry :=
  List.filter (fun e => Qle_bool lo (precursorMz e) && Qle_bool (precursorMz e) hi)
         idx.

(** Modelled from the spec: [SpectraSTPeakList::removeInquoratePeaks] is
    not part of this translation unit; it prunes the peaks seen in fewer
    than the given number of replicates. *)
Definition removeInquoratePeaks (minNumRepWithPeak : Z) (pl : list Peak)
  : list Peak :=
  List.filter (fun pk => minNumRepWithPeak <=? nrepsWithPeak pk) pl.

Definition dquote : string := String (Ascii.ascii_of_nat 34) EmptyString.

Definition nonEmpty (s : string) : bool := negb (String.eqb s EmptyString).

Section Importer.

Context `{C : Collaborators}.

(** ** State of one importer instance

    The members of [SpectraSTSpLibImporter] that the run reads or writes,
    the output library [m_lib] seen through what was written to it
    ([lib_preamble]: [None] until [writePreamble] is called; [lib_entries]:
    the entries inserted, in order), and the process-wide log. *)
Record Importer := {
  m_impFiles : list InputFile;
  m_params : Params;
  m_splibFins : list (option SpLib);
  m_pepIndices : list (option PepIndex);
  m_mzIndices : list (option MzIndex);
  m_preamble : list string;
  m_QFSearchLib : option SpLib;
  m_ppMappings : option PPMap;
  m_count : Z;
  m_denoiser : option Denoiser;
  m_singletonPeptideIons : list (string * string);
  lib_preamble : option (list string);
  lib_entries : list Entry;
  g_log : list LogMsg
}.

(** [g_log->error] and [g_log->log] *)
Definition logMsg (sev : Severity) (cat : string) (txt : Text) (s : Importer) : Importer :=
  {| m_impFiles := m_impFiles s; m_params := m_params s;
     m_splibFins := m_splibFins s; m_pepIndices := m_pepIndices s;
     m_mzIndices := m_mzIndices s; m_preamble := m_preamble s;
     m_QFSearchLib := m_QFSearchLib s; m_ppMappings := m_ppMappings s;
     m_count := m_count s; m_denoiser := m_denoiser s;
     m_singletonPeptideIons := m_singletonPeptideIons s;
     lib_preamble := lib_preamble s; lib_entries := lib_entries s;
     g_log := g_log s ++ [{| severity := sev; category := cat; text := txt |}] |}.

Definition pushPreamble (line : string) (s : Importer) : Importer :=
  {| m_impFiles := m_impFiles s; m_params := m_params s;
     m_splibFins := m_splibFins s; m_pepIndices := m_pepIndices s;
     m_mzIndices := m_mzIndices s; m_preamble := m_preamble s ++ [line];
     m_QFSearchLib := m_QFSearchLib s; m_ppMappings := m_ppMappings s;
     m_count := m_count s; m_denoiser := m_denoiser s;
     m_singletonPeptideIons := m_singletonPeptideIons s;
     lib_preamble := lib_preamble s; lib_entries := lib_entries s;
     g_log := g_log s |}.

Definition appendPreamble (lines : list string) (s : Importer) : Importer :=
  {| m_impFiles := m_impFiles s; m_params := m_params s;
     m_splibFins := m_splibFins s; m_pepIndices := m_pepIndices s;
     m_mzIndices := m_mzIndices s; m_preamble := m_preamble s ++ lines;
     m_QFSearchLib := m_QFSearchLib s; m_ppMappings := m_ppMappings s;
     m_count := m_count s; m_denoiser := m_denoiser s;
     m_singletonPeptideIons := m_singletonPeptideIons s;
     lib_preamble := lib_preamble s; lib_entries := lib_entries s;
     g_log := g_log s |}.

(** [m_lib->writePreamble(m_preamble)] *)
Definition writePreamble (s : Importer) : Importer :=
  {| m_impFiles := m_impFiles s; m_params := m_params s;
     m_splibFins := m_splibFins s; m_pepIndices := m_pepIndices s;
     m_mzIndices := m_mzIndices s; m_preamble := m_preamble s;
     m_QFSearchLib := m_QFSearchLib s; m_ppMappings := m_ppMappings s;
     m_count := m_count s; m_denoiser := m_denoiser s;
     m_singletonPeptideIons := m_singletonPeptideIons s;
     lib_preamble := Some (m_preamble s); lib_entries := lib_entries s;
     g_log := g_log s |}.

(** [m_lib->insertEntry(e)] *)
Definition insertEntry (e : Entry) (s : Importer) : Importer :=
  {| m_impFiles := m_impFiles s; m_params := m_params s;
     m_splibFins := m_splibFins s; m_pepIndices := m_pepIndices s;
     m_mzIndices := m_mzIndices s; m_preamble := m_preamble s;
     m_QFSearchLib := m_QFSearchLib s; m_ppMappings := m_ppMappings s;
     m_count := m_count s; m_denoiser := m_denoiser s;
     m_singletonPeptideIons := m_singletonPeptideIons s;
     lib_preamble := lib_preamble s; lib_entries := lib_entries s ++ [e];
     g_log := g_log s |}.

(** [m_count++] *)
Definition incCount (s : Importer) : Importer :=
  {| m_impFiles := m_impFiles s; m_params := m_params s;
     m_splibFins := m_splibFins s; m_pepIndices := m_pepIndices s;
     m_mzIndices := m_mzIndices s; m_preamble := m_preamble s;
     m_QFSearchLib := m_QFSearchLib s; m_ppMappings := m_ppMappings s;
     m_count := u32 (m_count s + 1); m_denoiser := m_denoiser s;
     m_singletonPeptideIons := m_singletonPeptideIons s;
     lib_preamble := lib_preamble s; lib_entries := lib_entries s;
     g_log := g_log s |}.

Definition pushOpened (fin : option SpLib) (pep : option PepIndex) (mz : option MzIndex) (s : Importer) : Importer :=
  {| m_impFiles := m_impFiles s; m_params := m_params s;
     m_splibFins := m_splibFins s ++ [fin];
     m_pepIndices := m_pepIndices s ++ [pep];
     m_mzIndices := m_mzIndices s ++ [mz]; m_preamble := m_preamble s;
     m_QFSearchLib := m_QFSearchLib s; m_ppMappings := m_ppMappings s;
     m_count := m_count s; m_denoiser := m_denoiser s;
     m_singletonPeptideIons := m_singletonPeptideIons s;
     lib_preamble := lib_preamble s; lib_entries := lib_entries s;
     g_log := g_log s |}.

Definition setPPMappings (m : option PPMap) (s : Importer) : Importer :=
  {| m_impFiles := m_impFiles s; m_params := m_params s;
     m_splibFins := m_splibFins s; m_pepIndices := m_pepIndices s;
     m_mzIndices := m_mzIndices s; m_preamble := m_preamble s;
     m_QFSearchLib := m_QFSearchLib s; m_ppMappings := m;
     m_count := m_count s; m_denoiser := m_denoiser s;
     m_singletonPeptideIons := m_singletonPeptideIons s;
     lib_preamble := lib_preamble s; lib_entries := lib_entries s;
     g_log := g_log s |}.

Definition setQFSearchLib (l : option SpLib) (s : Importer) : Importer :=
  {| m_impFiles := m_impFiles s; m_params := m_params s;
     m_splibFins := m_splibFins s; m_pepIndices := m_pepIndices s;
     m_mzIndices := m_mzIndices s; m_preamble := m_preamble s;
     m_QFSearchLib := l; m_ppMappings := m_ppMappings s;
     m_count := m_count s; m_denoiser := m_denoiser s;
     m_singletonPeptideIons := m_singletonPeptideIons s;
     lib_preamble := lib_preamble s; lib_entries := lib_entries s;
     g_log := g_log s |}.

Definition setDenoiser (d : option Denoiser) (s : Importer) : Importer :=
  {| m_impFiles := m_impFiles s; m_params := m_params s;
     m_splibFins := m_splibFins s; m_pepIndices := m_pepIndices s;
     m_mzIndices := m_mzIndices s; m_preamble := m_preamble s;
     m_QFSearchLib := m_QFSearchLib s; m_ppMappings := m_ppMappings s;
     m_count := m_count s; m_denoiser := d;
     m_singletonPeptideIons := m_singletonPeptideIons s;
     lib_preamble := lib_preamble s; lib_entries := lib_entries s;
     g_log := g_log s |}.

Definition pushSingleton (p : string * string) (s : Importer) : Importer :=
  {| m_impFiles := m_impFiles s; m_params := m_params s;
     m_splibFins := m_splibFins s; m_pepIndices := m_pepIndices s;
     m_mzIndices := m_mzIndices s; m_preamble := m_preamble s;
     m_QFSearchLib := m_QFSearchLib s; m_ppMappings := m_ppMappings s;
     m_count := m_count s; m_denoiser := m_denoiser s;
     m_singletonPeptideIons := m_singletonPeptideIons s ++ [p];
     lib_preamble := lib_preamble s; lib_entries := lib_entries s;
     g_log := g_log s |}.

Definition setParams (p : Params) (s : Importer) : Importer :=
  {| m_impFiles := m_impFiles s; m_params := p; m_splibFins := m_splibFins s;
     m_pepIndices := m_pepIndices s; m_mzIndices := m_mzIndices s;
     m_preamble := m_preamble s; m_QFSearchLib := m_QFSearchLib s;
     m_ppMappings := m_ppMappings s; m_count := m_count s;
     m_denoiser := m_denoiser s;
     m_singletonPeptideIons := m_singletonPeptideIons s;
     lib_preamble := lib_preamble s; lib_entries := lib_entries s;
     g_log := g_log s |}.

(** The constructor: no file opened yet, nothing written, the denoiser
    created on request and preset unless it is to be trained on the fly.
    (The output file name and the plot directory are file-system
    bookkeeping.) *)
Definition construct (files : list InputFile) (params : Params) : Importer :=
  {| m_impFiles := files; m_params := params; m_splibFins := [];
     m_pepIndices := []; m_mzIndices := []; m_preamble := [];
     m_QFSearchLib := None; m_ppMappings := None; m_count := 0;
     m_denoiser :=
       if useBayesianDenoiser params then
         Some (if negb (trainBayesianDenoiser params)
               then useDefault newDenoiser else newDenoiser)
       else None;
     m_singletonPeptideIons := []; lib_preamble := None; lib_entries := [];
     g_log := [] |}.

(** [m_lib->getPeptideLibIndexPtr()->isInIndex(peptide, subkey)]: the
    output library files each inserted entry under its key. *)
Definition libIsInIndex (s : Importer) (peptide subkey : string) : bool :=
  existsb (fun e => String.eqb (fst (entryKey e)) peptide
                    && String.eqb (snd (entryKey e)) subkey)
          (lib_entries s).

(** ** passAllFilters *)
Definition passAllFilters (s : Importer) (e : Entry) : bool :=
  match m_ppMappings s with
  | None => basePassAllFilters (m_params s) e
  | Some m =>
    match peptidePtr e with
    | None => basePassAllFilters (m_params s) e
    | Some pep =>
      if basePassAllFilters (m_params s) e then
        match m !! stripped pep with
        | None => false
        | Some found =>
          match found with
          | None => if refreshDeleteUnmapped (m_params s) then false else true
          | Some prots =>
            if refreshDeleteMultimapped (m_params s)
               && negb (Z.of_nat (length prots) =? 1)
            then false else true
          end
        end
      else false
    end
  end.

(** ** processEntry

    [annotatePeaks(true)] fills peak annotations and [plot] writes an
    image file; neither touches a field of the model. *)
Definition processEntry (s : Importer) (e0 : Entry) : Entry :=
  let p := m_params s in
  let e1 := if nonEmpty (setFragmentation p)
            then setFragType (setFragmentation p) e0 else e0 in
  let e2 := match getOneComment "NAA" e1, peptidePtr e1 with
            | None, Some pep => setOneComment "NAA" (fmtUInt (NAA pep)) e1
            | _, _ => e1
            end in
  let e3 := if 0 <? reduceSpectrum p then
              let '(pl, reducedFraction) :=
                reduce (reduceSpectrum p) (minimumMRMQ3MZ p)
                       (maximumMRMQ3MZ p) (nrepsUsed e2) (peakList e2) in
              setOneComment "ReducedFracIonCurrent"
                            (fmtFixed 3 reducedFraction) (setPeakList pl e2)
            else e2 in
  match m_ppMappings s, peptidePtr e3 with
  | Some m, Some pep =>
    match m !! stripped pep with
    | None => e3
    | Some (Some prots) => remapProteins prots e3
    | Some None =>
      let e4 := match getOneComment "Protein" e3 with
                | Some origProtein => setOneComment "OrigProtein" origProtein e3
                | None => e3
                end in
      setOneComment "PepContext" "0/UNMAPPED"
                    (setOneComment "Protein" "0/UNMAPPED" e4)
    end
  | _, _ => e3
  end.

(** ** constructFileListStr *)
Definition constructFileListStr (s : Importer) : string :=
  let names := map fileName (m_impFiles s) in
  let head := dquote +:+ makeFullPath (nth 0 names EmptyString)
              +:+ dquote +:+ " " in
  if 9 <? Z.of_nat (length names) then
    head +:+ combineAction (m_params s) +:+ " ... " +:+ dquote
         +:+ makeFullPath (List.last names EmptyString) +:+ dquote +:+ " "
  else
    fold_left (fun acc f =>
      acc +:+ combineAction (m_params s) +:+ " " +:+ dquote
          +:+ makeFullPath f +:+ dquote +:+ " ") (tl names) head.

(** ** openSplibs *)
Definition addSequencesForRefresh (seqs : list string) (s : Importer)
  : Importer :=
  let m0 := match m_ppMappings s with Some m => m | None => ∅ end in
  setPPMappings (Some (fold_left (fun m i => <[i := None]> m) seqs m0)) s.

Definition openOne (openMzIndex openPepIndex checkUniqueness refresh : bool)
    (s : Importer) (f : InputFile) : Importer :=
  match content f with
  | None =>
    pushOpened None None None
      (logMsg SevError "CREATE"
         [Str "Cannot open SPLIB file "; Str dquote; Str (fileName f);
          Str dquote; Str " for reading. File skipped."] s)
  | Some lib =>
    let wantRefresh := refresh && nonEmpty (refreshDatabase (m_params s)) in
    let pep :=
      if openPepIndex || checkUniqueness || wantRefresh then
        if checkUniqueness && negb (isUniqueLibrary (pepidx lib))
        then None else Some (pepidx lib)
      else None in
    let s1 := match pep with
              | Some idx =>
                if wantRefresh
                then addSequencesForRefresh (getAllSequences idx) s else s
              | None => s
              end in
    let mz := if openMzIndex then Some (mzidx lib) else None in
    appendPreamble (preambleLines lib) (pushOpened (Some lib) pep mz s1)
  end.

Definition openSplibs (openMzIndex openPepIndex checkUniqueness refresh : bool)
    (s : Importer) : Importer :=
  match m_splibFins s with
  | _ :: _ => s
  | [] =>
    fold_left (openOne openMzIndex openPepIndex checkUniqueness refresh)
              (m_impFiles s) s
  end.

(** [refresh]: refresh the protein mappings of the sequences collected. *)
Definition refresh (s : Importer) : Importer :=
  match m_ppMappings s with
  | None => s
  | Some m =>
    setPPMappings
      (Some (fastaRefresh (refreshDatabase (m_params s))
                          (refreshTrypticOnly (m_params s)) m)) s
  end.

(** ** The quality filter

    [applyQualityFilter] is a cascade with early returns. [Frame] holds its
    locals together with what it reaches by reference (the entry, the
    statistics, the importer); each block of the function is a step from a
    frame to a [Verdict]: the function has returned, or control falls
    through to the next block. *)
Record Frame := {
  f_entry : Entry;
  f_stats : QFStats;
  f_imp : Importer;
  inquorate : bool;
  singleton : bool;
  impure : bool;
  unconfirmed : bool;
  badConflictingID : bool;
  numRepsUsed : Z;
  tag : Text
}.

Inductive Verdict :=
| Return (b : bool) (f : Frame)
| Continue (f : Frame).

Definition bump (c : QFCounter) (f : Frame) : Frame :=
  {| f_entry := f_entry f; f_stats := incr c (f_stats f); f_imp := f_imp f;
     inquorate := inquorate f; singleton := singleton f; impure := impure f;
     unconfirmed := unconfirmed f; badConflictingID := badConflictingID f;
     numRepsUsed := numRepsUsed f; tag := tag f |}.

Definition bumpIf (b : bool) (c : QFCounter) (f : Frame) : Frame :=
  {| f_entry := f_entry f; f_stats := incrIf b c (f_stats f);
     f_imp := f_imp f; inquorate := inquorate f; singleton := singleton f;
     impure := impure f; unconfirmed := unconfirmed f;
     badConflictingID := badConflictingID f; numRepsUsed := numRepsUsed f;
     tag := tag f |}.

Definition flog (cat : string) (txt : Text) (f : Frame) : Frame :=
  {| f_entry := f_entry f; f_stats := f_stats f;
     f_imp := logMsg SevInfo cat txt (f_imp f); inquorate := inquorate f;
     singleton := singleton f; impure := impure f;
     unconfirmed := unconfirmed f; badConflictingID := badConflictingID f;
     numRepsUsed := numRepsUsed f; tag := tag f |}.

Definition fsetStatus (st : string) (f : Frame) : Frame :=
  {| f_entry := setStatus st (f_entry f); f_stats := f_stats f;
     f_imp := f_imp f; inquorate := inquorate f; singleton := singleton f;
     impure := impure f; unconfirmed := unconfirmed f;
     badConflictingID := badConflictingID f; numRepsUsed := numRepsUsed f;
     tag := tag f |}.

Definition fsetEntry (e : Entry) (f : Frame) : Frame :=
  {| f_entry := e; f_stats := f_stats f; f_imp := f_imp f;
     inquorate := inquorate f; singleton := singleton f; impure := impure f;
     unconfirmed := unconfirmed f; badConflictingID := badConflictingID f;
     numRepsUsed := numRepsUsed f; tag := tag f |}.

Definition setInquorate (b : bool) (n : Z) (t : Text) (f : Frame) : Frame :=
  {| f_entry := f_entry f; f_stats := f_stats f; f_imp := f_imp f;
     inquorate := b; singleton := singleton f; impure := impure f;
     unconfirmed := unconfirmed f; badConflictingID := badConflictingID f;
     numRepsUsed := n; tag := t |}.

Definition setSingleton (f : Frame) : Frame :=
  {| f_entry := f_entry f; f_stats := f_stats f; f_imp := f_imp f;
     inquorate := inquorate f; singleton := true; impure := impure f;
     unconfirmed := unconfirmed f; badConflictingID := badConflictingID f;
     numRepsUsed := numRepsUsed f; tag := tag f |}.

Definition setImpure (f : Frame) : Frame :=
  {| f_entry := f_entry f; f_stats := f_stats f; f_imp := f_imp f;
     inquorate := inquorate f; singleton := singleton f; impure := true;
     unconfirmed := unconfirmed f; badConflictingID := badConflictingID f;
     numRepsUsed := numRepsUsed f; tag := tag f |}.

Definition setUnconfirmed (f : Frame) : Frame :=
  {| f_entry := f_entry f; f_stats := f_stats f; f_imp := f_imp f;
     inquorate := inquorate f; singleton := singleton f; impure := impure f;
     unconfirmed := true; badConflictingID := badConflictingID f;
     numRepsUsed := numRepsUsed f; tag := tag f |}.

Definition setBadConflictingID (f : Frame) : Frame :=
  {| f_entry := f_entry f; f_stats := f_stats f; f_imp := f_imp f;
     inquorate := inquorate f; singleton := singleton f; impure := impure f;
     unconfirmed := unconfirmed f; badConflictingID := true;
     numRepsUsed := numRepsUsed f; tag := tag f |}.

Definition andThen (v : Outcome Verdict) (k : Frame -> Outcome Verdict)
  : Outcome Verdict :=
  match v with
  | Done (Continue f) => k f
  | other => other
  end.

(** *** isImpure *)
Definition isImpure (e : Entry) (numRepsUsed : Z) (penalizeSingletons : bool)
  : bool * Text * Entry :=
  match peptidePtr e with
  | None => (false, [], e)
  | Some pep =>
    let '(fracUnassignedTop20, numUnassignedTop20, numAssignedTop20, e') :=
      match getOneComment "FracUnassigned" e with
      | Some fracUnassignedStr =>
        let '(fr, un, tot) := parseFracUnassignedTop20 fracUnassignedStr in
        (fr, u32 un, u32 (tot - u32 un), e)
      | None =>
        let '(frAll, unAll, asAll) :=
          calcFractionUnassigned pep (peakList e) 999999 [] in
        let '(fr20, un20, as20) :=
          calcFractionUnassigned pep (peakList e) 20 [true; true] in
        let '(fr5, un5, as5) :=
          calcFractionUnassigned pep (peakList e) 5 [true; true] in
        let str :=
          fmtFixed 2 fr5 +:+ "," +:+ fmtUInt (u32 un5) +:+ "/"
            +:+ fmtUInt (u32 (u32 un5 + u32 as5)) +:+ ";"
          +:+ fmtFixed 2 fr20 +:+ "," +:+ fmtUInt (u32 un20) +:+ "/"
            +:+ fmtUInt (u32 (u32 un20 + u32 as20)) +:+ ";"
          +:+ fmtFixed 2 frAll +:+ "," +:+ fmtUInt (u32 unAll) +:+ "/"
            +:+ fmtUInt (u32 (u32 unAll + u32 asAll)) in
        (fr20, u32 un20, u32 as20, setOneComment "FracUnassigned" str e)
      end in
    if (charge e' =? 1)
       || ((negb penalizeSingletons || (1 <? numRepsUsed))
           && dlt fracUnassignedTop20 (4 # 10))
       || (penalizeSingletons && (numRepsUsed =? 1)
           && (dlt fracUnassignedTop20 (4 # 10)
               && (numUnassignedTop20 <? u32 (numAssignedTop20 - 2))))
    then (false, [], e')
    else (true,
          [Str "| FRAC UNASSIGNED "; Dbl fracUnassignedTop20; Str ";";
           UInt numUnassignedTop20; Str "/";
           UInt (u32 (numUnassignedTop20 + numAssignedTop20))],
          e')
  end.

(** *** hasSharedSequence

    This and [isBadConflictingID] read one member of the importer, the
    pointer [m_QFSearchLib], which is what they are given here. *)
Definition hasSharedSequence (qfSearchLib : option SpLib) (e : Entry)
  : Outcome bool :=
  match peptidePtr e with
  | None => Done false
  | Some pep =>
    match qfSearchLib with
    | None => Crash NullSearchLib
    | Some lib => Done (idxHasSharedSequence (pepidx lib) pep (fragType e))
    end
  end.

(** *** isBadConflictingID

    [scanSimilar] is the loop over the retrieved entries, [ss] the text
    gathered so far; a similar entry's peptide is dereferenced. *)
Fixpoint scanSimilar (e : Entry) (pep : Peptide) (numRepsUsed : Z)
    (penalizeSingletons : bool) (entries : list Entry) (ss : Text)
  : Outcome (bool * Text) :=
  match entries with
  | [] => Done (false, ss)
  | i :: rest =>
    if negb (libId e =? libId i) then
      let dot := compare (peakList e) (peakList i) in
      if dge dot (70 # 100)
         || (penalizeSingletons && (numRepsUsed =? 1) && dge dot (65 # 100))
      then
        let matchNumRepsUsed := u32 (nrepsUsed i) in
        let matchProb := prob i in
        match peptidePtr i with
        | None => Crash NullPeptide
        | Some ipep =>
          let ss1 := ss ++ [Str "| SIMILAR ("; Dbl dot; Str ") to ";
                            UInt (libId i); Str " : ";
                            Str (interactStyleWithCharge ipep); Str " (";
                            UInt matchNumRepsUsed; Str " replicates; P=";
                            Dbl matchProb; Str ")"] in
          if fst (isHomolog pep ipep (6 # 10)) then
            scanSimilar e pep numRepsUsed penalizeSingletons rest
                        (ss1 ++ [Str " HOMOLOG "])
          else if numRepsUsed <? matchNumRepsUsed then Done (true, ss1)
          else if (matchNumRepsUsed =? numRepsUsed) && dgt matchProb (prob e)
               then Done (true, ss1)
          else scanSimilar e pep numRepsUsed penalizeSingletons rest ss1
        end
      else scanSimilar e pep numRepsUsed penalizeSingletons rest ss
    else scanSimilar e pep numRepsUsed penalizeSingletons rest ss
  end.

Definition isBadConflictingID (qfSearchLib : option SpLib) (e : Entry)
    (numRepsUsed : Z) (penalizeSingletons : bool) : Outcome (bool * Text) :=
  match peptidePtr e with
  | None => Done (false, [])
  | Some pep =>
    match qfSearchLib with
    | None => Crash NullSearchLib
    | Some lib =>
      scanSimilar e pep numRepsUsed penalizeSingletons
        (retrieveMz (mzidx lib) (precursorMz e - (45 # 10))%Q
                    (precursorMz e + (45 # 10))%Q) []
    end
  end.

(** *** applyQualityFilter, block by block *)
Definition startFrame (s : Importer) (e : Entry) (q : QFStats) : Frame :=
  {| f_entry := setStatus "Normal" e; f_stats := q; f_imp := incCount s;
     inquorate := false; singleton := false; impure := false;
     unconfirmed := false; badConflictingID := false; numRepsUsed := 0;
     tag := [] |}.

Definition immuneChecks (f : Frame) : Verdict :=
  let p := m_params (f_imp f) in
  let e := f_entry f in
  if dge (prob e) (qualityImmuneProbThreshold p) then
    Return true (bump immuneProb f)
  else
    let seqStr := if qualityImmuneMultipleEngines p
                  then getOneComment "Se" e else None in
    let numSeqEngines := match seqStr with
                         | Some str => u32 (parseSeCount str)
                         | None => 1
                         end in
    if bool_decide (is_Some seqStr) && (1 <? numSeqEngines) then
      Return true (bump immuneEngine f)
    else
      let n := u32 (nrepsUsed e) in
      let t := [Str "entry #"; UInt (libId e); Str " : "; Str (name e);
                Str " ("; UInt n; Str " replicates; "]
               ++ (if 1 <? numSeqEngines
                   then [UInt numSeqEngines; Str " engines; "] else [])
               ++ [Str "P="; Dbl (prob e); Str ") "] in
      let repQuorum := if u32 (minimumNumReplicates p) <? 2
                       then 2 else u32 (minimumNumReplicates p) in
      Continue (setInquorate (n <? repQuorum) n t f).

Definition level5 (f : Frame) : Verdict :=
  let p := m_params (f_imp f) in
  if (5 <=? qualityLevelRemove p) || (5 <=? qualityLevelMark p) then
    if inquorate f then
      let f1 := bump Q5 f in
      if 5 <=? qualityLevelRemove p then
        Return false (flog "QUALITY_FILTER" (Str "Remove INQUORATE " :: tag f) f1)
      else if 5 <=? qualityLevelMark p then
        Continue (fsetStatus "Inquorate"
                   (flog "QUALITY_FILTER" (Str "Mark INQUORATE " :: tag f) f1))
      else Continue f1
    else Continue f
  else Continue f.

Definition level4 (f : Frame) : Verdict :=
  let p := m_params (f_imp f) in
  if inquorate f
     && ((4 <=? qualityLevelRemove p) || (4 <=? qualityLevelMark p)) then
    if numRepsUsed f =? 1 then
      let f1 := bump Q4Q5 (bump Q4 (setSingleton f)) in
      if 4 <=? qualityLevelRemove p then
        Return false (flog "QUALITY_FILTER" (Str "Remove SINGLETON " :: tag f) f1)
      else if 4 <=? qualityLevelMark p then
        Continue (fsetStatus "Singleton"
                   (flog "QUALITY_FILTER" (Str "Mark SINGLETON " :: tag f) f1))
      else Continue f1
    else Continue f
  else Continue f.

Definition level3 (f : Frame) : Outcome Verdict :=
  let p := m_params (f_imp f) in
  if inquorate f
     && ((3 <=? qualityLevelRemove p) || (3 <=? qualityLevelMark p)) then
    shared ← hasSharedSequence (m_QFSearchLib (f_imp f)) (f_entry f);
    if negb shared then
      let f1 := bumpIf (singleton f) Q3Q4Q5
                 (bumpIf (singleton f) Q3Q4
                   (bump Q3Q5 (bump Q3 (setUnconfirmed f)))) in
      if 3 <=? qualityLevelRemove p then
        Done (Return false
                (flog "QUALITY_FILTER"
                      (Str "Remove INQUORATE_UNCONFIRMED " :: tag f) f1))
      else if 3 <=? qualityLevelMark p then
        Done (Continue
                (fsetStatus "Inquorate_Unconfirmed"
                   (flog "QUALITY_FILTER"
                         (Str "Mark INQUORATE_UNCONFIRMED " :: tag f) f1)))
      else Done (Continue f1)
    else Done (Continue f)
  else Done (Continue f).

Definition level2 (f : Frame) : Outcome Verdict :=
  let p := m_params (f_imp f) in
  if (2 <=? qualityLevelRemove p) || (2 <=? qualityLevelMark p) then
    '(bad, msg) ← isBadConflictingID (m_QFSearchLib (f_imp f)) (f_entry f)
                     (numRepsUsed f) (qualityPenalizeSingletons p);
    if bad : bool then
      let f1 :=
        bumpIf (singleton f && unconfirmed f) Q2Q3Q4Q5
          (bumpIf (singleton f && unconfirmed f) Q2Q3Q4
            (bumpIf (unconfirmed f) Q2Q3Q5
              (bumpIf (unconfirmed f) Q2Q3
                (bumpIf (singleton f) Q2Q4Q5
                  (bumpIf (singleton f) Q2Q4
                    (bumpIf (inquorate f) Q2Q5
                      (bump Q2 (setBadConflictingID f)))))))) in
      if 2 <=? qualityLevelRemove p then
        Done (Return false
                (flog "QUALITY_FILTER"
                      (Str "Remove CONFLICTING_ID " :: tag f ++ msg) f1))
      else if 2 <=? qualityLevelMark p then
        Done (Continue
                (fsetStatus "Conflicting_ID"
                   (flog "QUALITY_FILTER"
                         (Str "Mark CONFLICTING_ID " :: tag f ++ msg) f1)))
      else Done (Continue f1)
    else
      match msg with
      | [] => Done (Continue f)
      | _ :: _ =>
        Done (Continue
                (flog "QUALITY_FILTER"
                      (Str "Keep CONFLICTING_ID " :: tag f ++ msg) f))
      end
  else Done (Continue f).

Definition level1 (f : Frame) : Verdict :=
  let p := m_params (f_imp f) in
  if (1 <=? qualityLevelRemove p) || (1 <=? qualityLevelMark p) then
    let '(imp, msg, e') :=
      isImpure (f_entry f) (numRepsUsed f) (qualityPenalizeSingletons p) in
    let f0 := fsetEntry e' f in
    if imp : bool then
      let b := badConflictingID f in
      let f1 :=
        bumpIf (b && singleton f && unconfirmed f) Q1Q2Q3Q4Q5
         (bumpIf (b && singleton f && unconfirmed f) Q1Q2Q3Q4
          (bumpIf (b && unconfirmed f) Q1Q2Q3Q5
           (bumpIf (b && unconfirmed f) Q1Q2Q3
            (bumpIf (b && singleton f) Q1Q2Q4Q5
             (bumpIf (b && singleton f) Q1Q2Q4
              (bumpIf (b && inquorate f) Q1Q2Q5
               (bumpIf b Q1Q2
                (bumpIf (singleton f && unconfirmed f) Q1Q3Q4Q5
                 (bumpIf (singleton f && unconfirmed f) Q1Q3Q4
                  (bumpIf (unconfirmed f) Q1Q3Q5
                   (bumpIf (unconfirmed f) Q1Q3
                    (bumpIf (singleton f) Q1Q4Q5
                     (bumpIf (singleton f) Q1Q4
                      (bumpIf (inquorate f) Q1Q5
                       (bump Q1 (setImpure f0)))))))))))))))) in
      if 1 <=? qualityLevelRemove p then
        Return false
          (flog "QUALITY_FILTER" (Str "Remove IMPURE " :: tag f ++ msg) f1)
      else if 1 <=? qualityLevelMark p then
        Continue
          (fsetStatus "Impure"
             (flog "QUALITY_FILTER" (Str "Mark IMPURE " :: tag f ++ msg) f1))
      else Continue f1
    else Continue f0
  else Continue f.

(** The number of replicates a peak must be seen in:
    [(unsigned int)(numRepsUsed * peakQuorum - 0.00001) + 1], at least 1.
    The count is converted to a double exactly; the quorum is the double
    the parameter holds and [0.00001] the double of the literal; the
    product and the difference are rounded. *)
Definition minNumRepWithPeak (p : Params) (numRepsUsed : Z) : Z :=
  let m := u32 (to_uint (dsub (dmul (inject_Z numRepsUsed)
                                    (roundDouble (peakQuorum p)))
                              (roundDouble (1 # 100000))) + 1) in
  if m <? 1 then 1 else m.

Definition enforcePeakQuorum (f : Frame) : Verdict :=
  let p := m_params (f_imp f) in
  Return true
    (fsetEntry
       (setPeakList
          (removeInquoratePeaks (minNumRepWithPeak p (numRepsUsed f))
                                (peakList (f_entry f)))
          (f_entry f)) f).

Definition cascade (f : Frame) : Outcome Verdict :=
  andThen (andThen (andThen (andThen (andThen (andThen
    (Done (immuneChecks f))
    (fun f => Done (level5 f)))
    (fun f => Done (level4 f)))
    level3)
    level2)
    (fun f => Done (level1 f)))
    (fun f => Done (enforcePeakQuorum f)).

(** [applyQualityFilter(entry, qfstats)]: the value returned, with the
    entry, the statistics and the importer as the call leaves them. *)
Definition applyQualityFilter (s : Importer) (e : Entry) (q : QFStats)
  : Outcome (bool * Entry * QFStats * Importer) :=
  v ← cascade (startFrame s e q);
  match v with
  | Return b f => Done (b, f_entry f, f_stats f, f_imp f)
  | Continue f => Done (true, f_entry f, f_stats f, f_imp f)
  end.

(** *** doQualityFilter *)

(** The loop over the mass index of the library. *)
Fixpoint qualityFilterLoop (entries : list Entry) (s : Importer) (q : QFStats)
  : Outcome (Importer * QFStats) :=
  match entries with
  | [] => Done (s, q)
  | entry :: rest =>
    if passAllFilters s entry then
      '(keep, e', q', s') ← applyQualityFilter s entry q;
      if keep : bool
      then qualityFilterLoop rest (insertEntry (processEntry s' e') s') q'
      else qualityFilterLoop rest s' q'
    else qualityFilterLoop rest s q
  end.

(** Arithmetic on [unsigned int]. *)
Definition usub (a b : Z) : Z := u32 (a - b).
Definition uadd (a b : Z) : Z := u32 (a + b).
Local Infix "⊖" := usub (at level 50, left associativity).
Local Infix "⊕" := uadd (at level 50, left associativity).

(** The number of spectra that will remain at each quality level. *)
Definition level1Of (count : Z) (q : QFStats) : Z := count ⊖ q Q1.
Definition level2Of (count : Z) (q : QFStats) : Z :=
  level1Of count q ⊖ q Q2 ⊕ q Q1Q2.
Definition level3Of (count : Z) (q : QFStats) : Z :=
  level2Of count q ⊖ q Q3 ⊕ q Q1Q3 ⊕ q Q2Q3 ⊖ q Q1Q2Q3.
Definition level4Of (count : Z) (q : QFStats) : Z :=
  level3Of count q ⊖ q Q4 ⊕ q Q1Q4 ⊕ q Q2Q4 ⊕ q Q3Q4 ⊖ q Q1Q2Q4
    ⊖ q Q1Q3Q4 ⊖ q Q2Q3Q4 ⊕ q Q1Q2Q3Q4.
Definition level5Of (count : Z) (q : QFStats) : Z :=
  level4Of count q ⊖ q Q5 ⊕ q Q1Q5 ⊕ q Q2Q5 ⊕ q Q3Q5 ⊕ q Q4Q5 ⊖ q Q1Q2Q5
    ⊖ q Q1Q3Q5 ⊖ q Q1Q4Q5 ⊖ q Q2Q3Q5 ⊖ q Q2Q4Q5 ⊖ q Q3Q4Q5 ⊕ q Q1Q2Q3Q5
    ⊕ q Q1Q2Q4Q5 ⊕ q Q1Q3Q4Q5 ⊕ q Q2Q3Q4Q5 ⊖ q Q1Q2Q3Q4Q5.

Definition levelsText (count : Z) (q : QFStats) : Text :=
  [Str "Level 0 = "; UInt count;
   Str "; Level 1 = "; UInt (level1Of count q);
   Str "; Level 2 = "; UInt (level2Of count q);
   Str "; Level 3 = "; UInt (level3Of count q);
   Str "; Level 4 = "; UInt (level4Of count q);
   Str "; Level 5 = "; UInt (level5Of count q)].

Definition logQFStats (q : QFStats) (s : Importer) : Importer :=
  logMsg SevInfo "QUALITY_FILTER STATS" (levelsText (m_count s) q)
    (logMsg SevInfo "QUALITY_FILTER STATS"
       [Str "immune_prob = "; UInt (q immuneProb);
        Str "; immune_engine = "; UInt (q immuneEngine)] s).

(** [new SpectraSTLib(fileName, ...)]: a library object over the named
    file; the object exists whatever the file holds. *)
Definition openLib (f : option InputFile) : SpLib :=
  match f with
  | Some {| content := Some lib |} => lib
  | _ => {| pepidx := []; mzidx := []; preambleLines := [] |}
  end.

Definition putDescription (s : Importer) : Importer :=
  let desc := constructDescrStr (m_params s) (constructFileListStr s)
                                ".splib" in
  logMsg SevInfo "CREATE" [Str desc] (pushPreamble desc s).

Definition doQualityFilter (s : Importer) : Outcome Importer :=
  if negb (Z.of_nat (length (m_impFiles s)) =? 1) then
    Done (logMsg SevError "QUALITY FILTER"
            [Str "Quality filter must be applied to one .splib file only. No filtering performed."]
            s)
  else
    let s1 := openSplibs true true true true (putDescription s) in
    match nth 0 (m_splibFins s1) None, nth 0 (m_pepIndices s1) None with
    | Some _, None =>
      Done (logMsg SevError "QUALITY_FILTER"
              [Str "Quality filter requires unique library. Library ";
               Str dquote;
               Str (nth 0 (map fileName (m_impFiles s1)) EmptyString);
               Str dquote;
               Str " is non-unique. No filtering is performed."] s1)
    | _, _ =>
      match nth 0 (m_mzIndices s1) None with
      | None => Done s1
      | Some mzIndex =>
        let s2 := writePreamble s1 in
        let p := m_params s2 in
        let s3 := if (2 <=? qualityLevelMark p) || (2 <=? qualityLevelRemove p)
                  then setQFSearchLib
                         (Some (openLib (head (m_impFiles s2)))) s2
                  else s2 in
        '(s4, qfstats) ← qualityFilterLoop mzIndex s3 qfstats_zero;
        if (5 <=? qualityLevelMark p) && (qualityLevelRemove p =? 0)
        then Done (logQFStats qfstats s4)
        else Done s4
      end
    end.

(** ** Combining libraries *)

Fixpoint foldM {A B : Type} (f : A -> B -> Outcome A) (l : list B) (a : A)
  : Outcome A :=
  match l with
  | [] => Done a
  | x :: rest => a' ← f a x; foldM f rest a'
  end.

Definition isUnionLike (p : Params) : bool :=
  String.eqb (combineAction p) "UNION" || String.eqb (combineAction p) "APPEND".

(** Whether the peptide ion is to be included, given the pass. *)
Definition includeKey (s : Importer) (curPepIndex : nat)
    (peptide k : string) : bool :=
  let p := m_params s in
  if isUnionLike p then
    negb (negb (Nat.eqb curPepIndex 0) && libIsInIndex s peptide k)
  else if String.eqb (combineAction p) "INTERSECT" then
    forallb (fun i => match i with
                      | Some idx => isInIndex idx peptide k
                      | None => true
                      end) (tl (m_pepIndices s))
  else if String.eqb (combineAction p) "SUBTRACT" then
    forallb (fun i => match i with
                      | Some idx => negb (isInIndex idx peptide k)
                      | None => true
                      end) (tl (m_pepIndices s))
  else true.

(** The retrieval loop over the peptide indices, with its two breaks. *)
Fixpoint retrieveAll (p : Params) (indices : list (option PepIndex))
    (peptide k : string) (entries : list Entry) : list Entry :=
  match indices with
  | [] => entries
  | i :: rest =>
    let entries' := match i with
                    | Some idx => entries ++ retrieve idx peptide k
                    | None => entries
                    end in
    if bool_decide (is_Some i) && String.eqb (combineAction p) "APPEND"
       && negb (Nat.eqb (length entries') 0)
    then entries'
    else if String.eqb (combineAction p) "SUBTRACT" then entries'
    else retrieveAll p rest peptide k entries'
  end.

Definition insertFiltered (s : Importer) (e : Entry) : Importer :=
  if passAllFilters s e then insertEntry (processEntry s e) s else s.

(** *** doBuildAction *)
Definition doBuildAction (entries : list Entry) (s : Importer)
  : Outcome Importer :=
  let p := m_params s in
  if String.eqb (buildAction p) "BEST_REPLICATE" then
    match findBestReplicate p entries with
    | Some best => Done (insertFiltered s best)
    | None => Done s
    end
  else if String.eqb (buildAction p) "CONSENSUS" then
    let consensus := makeConsensusSpectrum p (m_denoiser s) entries in
    let s1 := setDenoiser
                (option_map (fun d => denoiserAfterConsensus p d entries)
                            (m_denoiser s)) s in
    match consensus with
    | Some c =>
      if passAllFilters s1 c then
        let defer := match m_denoiser s1 with
                     | Some d => negb (isFilterReady d)
                                 && (u32 (nrepsUsed c) =? 1)
                     | None => false
                     end in
        if defer then
          match peptidePtr c with
          | None => Crash NullPeptide
          | Some pep => Done (pushSingleton (stripped pep, snd (entryKey c)) s1)
          end
        else Done (insertEntry (processEntry s1 c) s1)
      else Done s1
    | None => Done s1
    end
  else
    Done (fold_left insertFiltered entries s).

(** *** The passes of import over the peptide indices *)
Definition importSubkey (curPepIndex : nat) (peptide : string) (s : Importer)
    (k : string) : Outcome Importer :=
  if includeKey s curPepIndex peptide k then
    doBuildAction (retrieveAll (m_params s) (m_pepIndices s) peptide k [])
                  (incCount s)
  else Done s.

Definition importPeptide (curPepIndex : nat) (s : Importer)
    (ps : string * list (string * list Entry)) : Outcome Importer :=
  foldM (importSubkey curPepIndex (fst ps)) (map fst (snd ps)) s.

Definition importPass (s : Importer) (curPepIndex : nat) : Outcome Importer :=
  match nth curPepIndex (m_pepIndices s) None with
  | Some pepIndex => foldM (importPeptide curPepIndex) pepIndex s
  | None => Done s
  end.

Definition importPasses (s : Importer) : Outcome Importer :=
  if isUnionLike (m_params s)
  then foldM importPass (seq 0 (length (m_pepIndices s))) s
  else importPass s 0%nat.

(** *** reloadAndProcessSingletons *)
Definition reloadAndProcessSingletons (s : Importer) : Outcome Importer :=
  foldM (fun s si =>
           doBuildAction
             (retrieveAll (m_params s) (m_pepIndices s) (fst si) (snd si) [])
             s)
        (m_singletonPeptideIons s) s.

(** *** doSubtractHomologs *)

(** The text logged when [pep] is found homologous to [en]. *)
Definition homologText (pep : Peptide) (mz : double) (identity : Z)
    (thisPep : Peptide) (en : Entry) : Text :=
  [Str (interactStyleWithCharge pep); Str " (m/z = "; Dbl mz;
   Str ") is homologous ("; Int identity; Str ") to ";
   Str (interactStyleWithCharge thisPep); Str " (m/z = ";
   Dbl (precursorMz en); Str "). Removed."].

(** The inner loop: the first isobaric entry that is the same peptide, or
    a homolog at the same charge. *)
Fixpoint findHomolog (pep : Peptide) (mz : double) (charge_ : Z)
    (isobaricEntries : list Entry) : option Text :=
  match isobaricEntries with
  | [] => None
  | en :: rest =>
    match peptidePtr en with
    | None => findHomolog pep mz charge_ rest
    | Some thisPep =>
      if peptideEq pep thisPep then
        Some (homologText pep mz 0 thisPep en)
      else if (charge_ =? charge en)
              && fst (isHomolog pep thisPep (7 # 10)) then
        Some (homologText pep mz (snd (isHomolog pep thisPep (7 # 10)))
                          thisPep en)
      else findHomolog pep mz charge_ rest
    end
  end.

(** The loop over the mass indices of the other files. *)
Fixpoint searchOthers (pep : Peptide) (mz : double) (charge_ : Z)
    (others : list (option MzIndex)) : option Text :=
  match others with
  | [] => None
  | None :: rest => searchOthers pep mz charge_ rest
  | Some idx :: rest =>
    match findHomolog pep mz charge_
            (retrieveMz idx (mz - (45 # 10))%Q (mz + (45 # 10))%Q) with
    | Some t => Some t
    | None => searchOthers pep mz charge_ rest
    end
  end.

Definition subtractStep (s : Importer) (entry : Entry) : Importer :=
  match peptidePtr entry with
  | None => s
  | Some pep =>
    match searchOthers pep (precursorMz entry) (charge entry)
                       (tl (m_mzIndices s)) with
    | Some t => logMsg SevInfo "CREATE" t s
    | None => insertFiltered (incCount s) entry
    end
  end.

Definition doSubtractHomologs (s : Importer) : Importer :=
  let s1 := writePreamble (openSplibs true false false true s) in
  match nth 0 (m_mzIndices s1) None with
  | None => s1
  | Some mzIndex => fold_left subtractStep mzIndex s1
  end.

(** *** doSortByNreps *)
Definition doSortByNreps (s : Importer) : Importer :=
  if negb (Z.of_nat (length (m_impFiles s)) =? 1) then
    logMsg SevError "SORT_BY_NREPS"
      [Str "Sorting by Nreps must be applied to one .splib file only. No library created."]
      s
  else
    let s1 := openSplibs true false false true (putDescription s) in
    match nth 0 (m_splibFins s1) None with
    | None => s1
    | Some _ =>
      match nth 0 (m_mzIndices s1) None with
      | None => s1
      | Some mzIndex =>
        fold_left insertFiltered (sortEntriesByNreps mzIndex)
                  (writePreamble s1)
      end
    end.

(** *** doGenerateDecoy *)
Definition doGenerateDecoy (s : Importer) : Importer :=
  if negb (Z.of_nat (length (m_impFiles s)) =? 1) then
    logMsg SevError "DECOY"
      [Str "Decoy generation must be applied to one .splib file only. No decoy library created."]
      s
  else
    let s0 := setParams (setReduceSpectrum 0 (m_params s)) s in
    let s1 := openSplibs false true true true (putDescription s0) in
    match nth 0 (m_splibFins s1) None with
    | None => s1
    | Some _ =>
      match nth 0 (m_pepIndices s1) None with
      | None =>
        logMsg SevError "DECOY"
          [Str "Decoy generation requires unique library. Library ";
           Str dquote;
           Str (nth 0 (map fileName (m_impFiles s1)) EmptyString);
           Str dquote; Str " is non-unique. No decoy is generated."] s1
      | Some pepIndex =>
        let s2 := writePreamble s1 in
        fold_left (fun s e => insertEntry e s)
                  (decoyEntries (m_params s2) pepIndex (passAllFilters s2)
                                (processEntry s2)) s2
      end
    end.

(** *** doUserSpecifiedModifications *)
Definition doUserSpecifiedModifications (s : Importer) : Importer :=
  if negb (Z.of_nat (length (m_impFiles s)) =? 1) then
    logMsg SevError "SEMI-EMPIRICAL"
      [Str "Semi-empirical spectrum generation must be applied to one .splib file only. No UserSpMods library created."]
      s
  else if negb (nonEmpty (allowableModTokens (m_params s))) then
    logMsg SevError "SEMI-EMPIRICAL"
      [Str "No user-specified modifications specified. Please use -cx option to list all allowable mod tokens. No action performed."]
      s
  else
    let s0 := setParams (setReduceSpectrum 0 (m_params s)) s in
    let s1 := openSplibs false true true true (putDescription s0) in
    match nth 0 (m_splibFins s1) None with
    | None => s1
    | Some _ =>
      match nth 0 (m_pepIndices s1) None with
      | None =>
        logMsg SevError "SEMI-EMPIRICAL"
          [Str "Semi-empirical spectrum generation requires unique library. Library ";
           Str dquote;
           Str (nth 0 (map fileName (m_impFiles s1)) EmptyString);
           Str dquote;
           Str " is non-unique. No semi-empirical spectrum is generated."] s1
      | Some pepIndex =>
        let s2 := writePreamble s1 in
        fold_left (fun s e => insertEntry e s)
                  (semiEmpiricalEntries (m_params s2) pepIndex) s2
      end
    end.

(** ** Similarity clustering

    [findSpectralNeighbors] works on pointers: [isobaricEntries] is a
    vector of pointers that it sets to [NULL] in place, [hits] holds
    copies of some of them, and the peak list of an entry is simplified
    through whichever pointer reaches it. The entries made by the
    retrieval are therefore kept in a store ([cl_heap], addressed by
    position), the vector holds addresses ([cl_slots]), and the entry the
    search starts from ([cl_root]) is apart from them.

    [cl_trace] is a record of the calls of [compare], in order: the file
    offsets of the two entries compared, the round, the dot product, and
    whether the compared entry was inserted into the cluster there. *)
Record Comparison := {
  cmp_entry : Z;
  cmp_other : Z;
  cmp_round : Z;
  cmp_dot : double;
  cmp_joined : bool
}.

Inductive EntryRef :=
| RootEntry
| HeapEntry (a : nat).

Record Clustering := {
  cl_root : Entry;
  cl_heap : list Entry;
  cl_slots : list (option nat);
  cl_cluster : gset Z;
  cl_trace : list Comparison
}.

#[global] Instance Entry_inhabited : Inhabited Entry :=
  populate {| libId := 0; name := EmptyString; libFileOffset := 0;
              peptidePtr := None; charge := 0; fragType := EmptyString;
              status := EmptyString; nrepsUsed := 0; prob := 0%Q;
              precursorMz := 0%Q; comments := ∅; peakList := [] |}.

Definition derefEntry (st : Clustering) (r : EntryRef) : Entry :=
  match r with
  | RootEntry => cl_root st
  | HeapEntry a => cl_heap st !!! a
  end.

(** [entry->getPeakList()->simplify(50, 99999)] *)
Definition simplifyEntry (e : Entry) : Entry :=
  setPeakList (simplify 50 99999 (peakList e)) e.

Definition simplifyRef (r : EntryRef) (st : Clustering) : Clustering :=
  match r with
  | RootEntry =>
    {| cl_root := simplifyEntry (cl_root st); cl_heap := cl_heap st;
       cl_slots := cl_slots st; cl_cluster := cl_cluster st;
       cl_trace := cl_trace st |}
  | HeapEntry a =>
    {| cl_root := cl_root st; cl_heap := alter simplifyEntry a (cl_heap st);
       cl_slots := cl_slots st; cl_cluster := cl_cluster st;
       cl_trace := cl_trace st |}
  end.

(** [( *en) = NULL] at position [k] of the vector. *)
Definition nullSlot (k : nat) (st : Clustering) : Clustering :=
  {| cl_root := cl_root st; cl_heap := cl_heap st;
     cl_slots := <[k := None]> (cl_slots st); cl_cluster := cl_cluster st;
     cl_trace := cl_trace st |}.

Definition joinCluster (offset : Z) (st : Clustering) : Clustering :=
  {| cl_root := cl_root st; cl_heap := cl_heap st; cl_slots := cl_slots st;
     cl_cluster := {[ offset ]} ∪ cl_cluster st; cl_trace := cl_trace st |}.

Definition record (c : Comparison) (st : Clustering) : Clustering :=
  {| cl_root := cl_root st; cl_heap := cl_heap st; cl_slots := cl_slots st;
     cl_cluster := cl_cluster st; cl_trace := cl_trace st ++ [c] |}.

(** The locals of one scan of the vector. *)
Record Scan := {
  sc_st : Clustering;
  hits : list nat;
  numInCluster : Z;
  sumMzInCluster : double
}.

(** The body of the loop over [isobaricEntries], at position [k]. *)
Definition scanOne (p : Params) (entry : EntryRef) (round : Z)
    (lowMz highMz : double) (sc : Scan) (k : nat) : Scan :=
  let st := sc_st sc in
  match cl_slots st !! k with
  | Some (Some a) =>
    let en := cl_heap st !!! a in
    if bool_decide (libFileOffset en ∈ cl_cluster st) then
      {| sc_st := nullSlot k st; hits := hits sc;
         numInCluster := numInCluster sc;
         sumMzInCluster := sumMzInCluster sc |}
    else
      let precursorMz_ := precursorMz en in
      if dlt precursorMz_ lowMz || dgt precursorMz_ highMz then sc
      else
        let st1 := simplifyRef (HeapEntry a) st in
        let dot := compare (peakList (derefEntry st1 entry))
                           (peakList (derefEntry st1 (HeapEntry a))) in
        let joined :=
          dge dot (unidentifiedClusterMinimumDot p
                   - inject_Z round * (5 # 10))%Q in
        let st2 := record {| cmp_entry := libFileOffset (derefEntry st1 entry);
                             cmp_other := libFileOffset en;
                             cmp_round := round; cmp_dot := dot;
                             cmp_joined := joined |} st1 in
        if joined then
          {| sc_st := joinCluster (libFileOffset en) st2;
             hits := hits sc ++ [a];
             numInCluster := u32 (numInCluster sc + 1);
             sumMzInCluster := (sumMzInCluster sc + precursorMz_)%Q |}
        else if dlt dot (3 # 10) then
          {| sc_st := nullSlot k st2; hits := hits sc;
             numInCluster := numInCluster sc;
             sumMzInCluster := sumMzInCluster sc |}
        else
          {| sc_st := st2; hits := hits sc;
             numInCluster := numInCluster sc;
             sumMzInCluster := sumMzInCluster sc |}
  | _ => sc
  end.

(** [findSpectralNeighbors]. The recursion stops at round 2; [fuel]
    bounds it structurally and 3 is enough from round 0. *)
Fixpoint findSpectralNeighbors (fuel : nat) (p : Params) (entry : EntryRef)
    (rootPrecursorMz : double) (round : Z) (st : Clustering) : Clustering :=
  match fuel with
  | O => st
  | S fuel' =>
    let st0 := simplifyRef entry st in
    let lowMz := (rootPrecursorMz - (25 # 10) + inject_Z round)%Q in
    let highMz := (rootPrecursorMz + (25 # 10) - inject_Z round)%Q in
    let size_ := Z.of_nat (size (cl_cluster st0)) in
    let sc := fold_left (scanOne p entry round lowMz highMz)
                (seq 0 (length (cl_slots st0)))
                {| sc_st := st0; hits := [];
                   numInCluster := u32 size_;
                   sumMzInCluster := (rootPrecursorMz * inject_Z size_)%Q |} in
    if 2 <=? round then sc_st sc
    else
      let meanMzInCluster :=
        (sumMzInCluster sc / inject_Z (numInCluster sc))%Q in
      fold_left (fun st h =>
                   findSpectralNeighbors fuel' p (HeapEntry h) meanMzInCluster
                                         (round + 1) st)
                (hits sc) (sc_st sc)
  end.

(** The state of the first loop of [doSimilarityClustering]. *)
Record ClusterRun := {
  cr_imp : Importer;
  clusteredEntries : gmap Z Z;
  multiclusters : list (gset Z);
  cr_trace : list Comparison
}.

Definition isClustered (r : ClusterRun) (offset : Z) : bool :=
  bool_decide (is_Some (clusteredEntries r !! offset)).

Definition clusterStep (mzIndex : MzIndex) (r : ClusterRun) (entry : Entry)
  : ClusterRun :=
  let s := cr_imp r in
  let offset := libFileOffset entry in
  if isClustered r offset then r
  else
    let rootPrecursorMz := precursorMz entry in
    let isobaricEntries :=
      retrieveMz mzIndex (rootPrecursorMz - (25 # 10))%Q
                 (rootPrecursorMz + (25 # 10))%Q in
    let slots :=
      imap (fun k en => if isClustered r (libFileOffset en)
                        then None else Some k) isobaricEntries in
    let st := findSpectralNeighbors 3 (m_params s) RootEntry rootPrecursorMz 0
                {| cl_root := entry; cl_heap := isobaricEntries;
                   cl_slots := slots; cl_cluster := {[ offset ]};
                   cl_trace := [] |} in
    let cluster := cl_cluster st in
    if Z.of_nat (size cluster) =? 1 then
      let '(xrea, e1) :=
        match getOneComment "Xrea" (cl_root st) with
        | Some xreaStr => (atof xreaStr, cl_root st)
        | None =>
          let x := calcXrea (peakList (cl_root st)) in
          (x, setOneComment "Xrea" (fmtFixed 3 x) (cl_root st))
        end in
      let s1 :=
        if passAllFilters s e1
           && ((1 <? u32 (nrepsUsed e1))
               || dge xrea (unidentifiedSingletonXreaThreshold (m_params s)))
        then insertEntry (processEntry s e1) s else s in
      {| cr_imp := s1;
         clusteredEntries := <[libFileOffset e1 := -1]> (clusteredEntries r);
         multiclusters := multiclusters r;
         cr_trace := cr_trace r ++ cl_trace st |}
    else
      let clusterIndex := Z.of_nat (length (multiclusters r)) in
      {| cr_imp := s;
         clusteredEntries :=
           fold_left (fun m i => <[i := clusterIndex]> m)
                     (merge_sort Z.le (elements cluster)) (clusteredEntries r);
         multiclusters := multiclusters r ++ [cluster];
         cr_trace := cr_trace r ++ cl_trace st |}.

(** Reading back the entry stored at a file offset; the mass index lists
    every entry of the file with its offset. *)
Definition entryAt (lib : SpLib) (offset : Z) : option Entry :=
  List.find (fun e => libFileOffset e =? offset) (mzidx lib).

Definition mergeCluster (lib : SpLib) (s : Importer) (cl : gset Z)
  : Importer :=
  let entries := omap (entryAt lib) (merge_sort Z.le (elements cl)) in
  match makeConsensusSpectrum (m_params s) None entries with
  | Some consensus => insertFiltered s consensus
  | None => s
  end.

(** The first loop, over the entries in the order [sortEntriesBySN]
    leaves them. *)
Definition clusterAll (s : Importer) (mzIndex : MzIndex) : ClusterRun :=
  fold_left (clusterStep mzIndex) (sortEntriesBySN mzIndex)
            {| cr_imp := s; clusteredEntries := ∅; multiclusters := [];
               cr_trace := [] |}.

Definition doSimilarityClustering (s : Importer) : Importer :=
  if negb (Z.of_nat (length (m_impFiles s)) =? 1) then
    logMsg SevError "SIMILARITY_CLUSTERING"
      [Str "Similarity clustering must be applied to one .splib file only. No library created."]
      s
  else
    let s1 := openSplibs true false false false (putDescription s) in
    match nth 0 (m_splibFins s1) None with
    | None => s1
    | Some splibFin =>
      match nth 0 (m_mzIndices s1) None with
      | None => s1
      | Some mzIndex =>
        let r := clusterAll (writePreamble s1) mzIndex in
        fold_left (mergeCluster splibFin) (multiclusters r) (cr_imp r)
      end
    end.

(** ** import *)
Definition import (s : Importer) : Outcome Importer :=
  let p := m_params s in
  if String.eqb (combineAction p) "SUBTRACT_HOMOLOGS"
     && nonEmpty (buildAction p) then
    Done (logMsg SevError "CREATE"
            [Str "Cannot perform build action "; Str (buildAction p);
             Str " together with combine action SUBTRACT_HOMOLOGS."] s)
  else if String.eqb (buildAction p) "QUALITY_FILTER" then doQualityFilter s
  else if String.eqb (buildAction p) "DECOY" then Done (doGenerateDecoy s)
  else if String.eqb (buildAction p) "SORT_BY_NREPS" then
    Done (doSortByNreps s)
  else if String.eqb (buildAction p) "USER_SPECIFIED_MODS" then
    Done (doUserSpecifiedModifications s)
  else if String.eqb (buildAction p) "SIMILARITY_CLUSTERING" then
    Done (doSimilarityClustering s)
  else
    let s1 := putDescription s in
    if String.eqb (combineAction p) "SUBTRACT_HOMOLOGS" then
      Done (doSubtractHomologs s1)
    else
      let s2 := writePreamble (openSplibs false true false true s1) in
      let s3 := if nonEmpty (refreshDatabase p) then refresh s2 else s2 in
      match nth 0 (m_pepIndices s3) None with
      | None => Done s3
      | Some _ =>
        s4 ← importPasses s3;
        match m_denoiser s4 with
        | Some d =>
          if negb (Nat.eqb (length (m_singletonPeptideIons s4)) 0) then
            reloadAndProcessSingletons
              (setDenoiser (Some (generateBayesianModel d)) s4)
          else Done s4
        | None => Done s4
        end
      end.

(** A run: construct the importer on the input files and import. *)
Definition run (files : list InputFile) (params : Params) : Outcome Importer :=
  import (construct files params).

End Importer.

(** * Code beside the import paths

    The protein lists of [processEntry], [hackDeamidation],
    [constructOutputFileName], and the F value of
    [SpectraSTSimScores]. *)

(** ** The list of mapped proteins written by processEntry

    The loop of [processEntry] over the proteins a sequence maps to builds
    two strings, [proteins] and [contexts], from the pairs (protein,
    context). *)
Definition isDecoyProtein (prot : string) : bool :=
  String.prefix "DECOY" prot || String.prefix "REV" prot
  || String.prefix "rev" prot.

Definition joinProtein (acc : string * string) (prot : string * string)
  : string * string :=
  let '(proteins, contexts) := acc in
  if String.eqb proteins EmptyString then (fst prot, snd prot)
  else if isDecoyProtein (fst prot) then
    (proteins +:+ "/" +:+ fst prot, contexts +:+ "/" +:+ snd prot)
  else
    (fst prot +:+ "/" +:+ proteins, snd prot +:+ "/" +:+ contexts).

Definition joinProteins (prots : list (string * string)) : string * string :=
  fold_left joinProtein prots (EmptyString, EmptyString).

(** ** hackDeamidation

    The peptide as [hackDeamidation] reads it: the bare sequence, the
    length [NAA()] reports, and [mods], the map from position to
    modification. [massDiffInt] is [entry->getMassDiffInt()]. The messages
    to [cerr] and the re-annotation of the peaks are left out. *)
Record ModPeptide := {
  mp_stripped : string;
  mp_NAA : Z;
  mods : gmap Z string
}.

Definition setMods (m : gmap Z string) (p : ModPeptide) : ModPeptide :=
  {| mp_stripped := mp_stripped p; mp_NAA := mp_NAA p; mods := m |}.

(** The characters ['N'] and ['Q']. *)
Definition charN : Ascii.ascii := Ascii.ascii_of_nat 78.
Definition charQ : Ascii.ascii := Ascii.ascii_of_nat 81.

(** [p->stripped[pos] == 'N' || p->stripped[pos] == 'Q']; past the end of
    the sequence there is no residue. *)
Definition isNQ (seq : string) (pos : Z) : bool :=
  match String.get (Z.to_nat pos) seq with
  | Some c => Ascii.eqb c charN || Ascii.eqb c charQ
  | None => false
  end.

(** [p->mods.find(pos) == p->mods.end() && (... 'N' || ... 'Q')] *)
Definition openSite (seq : string) (m : gmap Z string) (pos : Z) : bool :=
  bool_decide (m !! pos = None) && isNQ seq pos.

Definition numPossibleSites (p : ModPeptide) : Z :=
  fold_left (fun n pos => if openSite (mp_stripped p) (mods p) pos
                          then n + 1 else n)
            (seqZ 0 (mp_NAA p)) 0.

Definition deamidateSites (seq : string) (positions : list Z)
    (m : gmap Z string) : gmap Z string :=
  fold_left (fun m pos => if openSite seq m pos
                          then <[pos := "Deamidated"]> m else m)
            positions m.

Definition hackDeamidation (massDiffInt : Z) (pep : option ModPeptide)
  : Outcome (bool * option ModPeptide) :=
  if 0 <? massDiffInt then
    match pep with
    | None => Crash NullPeptide
    | Some p =>
      if numPossibleSites p <=? massDiffInt then
        Done (true,
              Some (setMods (deamidateSites (mp_stripped p)
                                            (seqZ 0 (mp_NAA p)) (mods p)) p))
      else Done (false, Some p)
    end
  else Done (true, pep).

(** ** SpectraSTSimScores: the F value *)
Record SimScores := {
  dot : double;
  delta : double;
  dotBias : double;
  precursorMzDiff : double;
  hitsNum : Z;
  hitsMean : double;
  hitsStDev : double;
  fval : double;
  firstNonHomolog : Z
}.

Definition setFval (v : double) (s : SimScores) : SimScores :=
  {| dot := dot s; delta := delta s; dotBias := dotBias s;
     precursorMzDiff := precursorMzDiff s; hitsNum := hitsNum s;
     hitsMean := hitsMean s; hitsStDev := hitsStDev s; fval := v;
     firstNonHomolog := firstNonHomolog s |}.

(** [fval] after the first block of [imposeDotBiasPenalty], the
    subtraction by the dot bias. *)
Definition penalized (s : SimScores) : double :=
  if dlt (dotBias s) (9 # 100) then (fval s - (12 # 100))%Q
  else if dgt (dotBias s) (32 # 100) && Qle_bool (dotBias s) (35 # 100) then
    (fval s - (dotBias s - (32 # 100)) * 4)%Q
  else if dgt (dotBias s) (35 # 100) && Qle_bool (dotBias s) (45 # 100) then
    (fval s - ((12 # 100) + (dotBias s - (35 # 100)) * (12 # 10)))%Q
  else if dgt (dotBias s) (45 # 100) then (fval s - (24 # 100))%Q
  else fval s.

Definition imposeDotBiasPenalty (s : SimScores) : SimScores :=
  setFval (if Qle_bool (penalized s) 0 then (- (1 # 100000))%Q
           else penalized s) s.

Definition calcFval (fractionDelta : double) (s : SimScores) : SimScores :=
  if dlt (dot s) (1 # 100000) then setFval (- (1 # 100000))%Q s
  else
    let f0 := ((1 - fractionDelta) * dot s
               + fractionDelta * delta s / dot s)%Q in
    let f1 := if dgt f0 (4 # 10) && (hitsNum s <? 20)
              then ((1 - (5 # 10) * fractionDelta) * dot s)%Q else f0 in
    imposeDotBiasPenalty (setFval f1 s).

(** ** constructOutputFileName

    [parseFileName] of FileUtils splits a file name into path, name and
    extension; it is a parameter here. *)
Record FileName := {
  fn_path : string;
  fn_name : string;
  fn_ext : string
}.

Section OutputFileName.
Variable parseFileName : string -> FileName.

Definition operOf (p : Params) : string :=
  if String.eqb (combineAction p) "UNION" then "U"
  else if String.eqb (combineAction p) "INTERSECT" then "I"
  else if String.eqb (combineAction p) "SUBTRACT" then "S"
  else if String.eqb (combineAction p) "SUBTRACT_HOMOLOG" then "H"
  else if String.eqb (combineAction p) "APPEND" then "A"
  else "U".

Definition buildSuffix (p : Params) : string :=
  if String.eqb (buildAction p) "BEST_REPLICATE" then "_best"
  else if String.eqb (buildAction p) "CONSENSUS" then "_consensus"
  else if String.eqb (buildAction p) "QUALITY_FILTER" then "_quality"
  else if String.eqb (buildAction p) "DECOY" then "_decoy"
  else if String.eqb (buildAction p) "SORT_BY_NREPS" then "_sorted"
  else if String.eqb (buildAction p) "USER_SPECIFIED_MODS" then "_mods"
  else "_new".

(** [m_impFileNames[0]] is read whatever the number of files; with no file
    the model reads the empty name. *)
Definition constructOutputFileName (impFileNames : list string) (p : Params)
  : string :=
  let fn0 := parseFileName (nth 0 impFileNames EmptyString) in
  let ss0 := fn_path fn0 +:+ fn_name fn0 in
  let ss1 :=
    if Z.of_nat (length impFileNames) <? 4 then
      fold_left (fun ss f =>
                   ss +:+ "_" +:+ operOf p +:+ "_"
                      +:+ fn_name (parseFileName f))
                (tl impFileNames) ss0
    else ss0 +:+ "_" +:+ operOf p +:+ "_plus" in
  ss1 +:+ buildSuffix p +:+ ".splib".

End OutputFileName.

(** * Properties of the importer *)
Section Props.
Context `{C : Collaborators}.

Definition repQuorum (p : Params) : Z :=
  if u32 (minimumNumReplicates p) <? 2 then 2 else u32 (minimumNumReplicates p).

Definition immune (p : Params) (e : Entry) : bool :=
  dge (prob e) (qualityImmuneProbThreshold p)
  || (qualityImmuneMultipleEngines p
      && match getOneComment "Se" e with
         | Some str => 1 <? u32 (parseSeCount str)
         | None => false
         end).

Lemma immuneChecks_immune f :
  immune (m_params (f_imp f)) (f_entry f) = true ->
  exists c, immuneChecks f = Return true (bump c f)
            /\ (c = immuneProb \/ c = immuneEngine).
Proof.
  unfold immune, immuneChecks. intros H.
  destruct (dge _ _); [eexists; split; [reflexivity|auto]|]. simpl in H.
  destruct (qualityImmuneMultipleEngines _); simpl in H; [|discriminate].
  destruct (getOneComment "Se" (f_entry f)) as [str|]; [|discriminate].
  rewrite bool_decide_true by eauto. simpl. rewrite H.
  eexists; split; [reflexivity|auto].
Qed.

Lemma immuneChecks_not_immune f :
  immune (m_params (f_imp f)) (f_entry f) = false ->
  exists t, immuneChecks f =
    Continue (setInquorate (u32 (nrepsUsed (f_entry f)) <? repQuorum (m_params (f_imp f)))
                (u32 (nrepsUsed (f_entry f))) t f).
Proof.
  unfold immune, immuneChecks, repQuorum. intros H.
  destruct (dge _ _); [discriminate|]. simpl in H.
  destruct (qualityImmuneMultipleEngines _); simpl in H.
  - destruct (getOneComment "Se" (f_entry f)) as [str|].
    + rewrite H. rewrite andb_false_r. eexists; reflexivity.
    + simpl. eexists; reflexivity.
  - simpl. eexists; reflexivity.
Qed.

(** What a block of the cascade may do to a property of the frame. *)
Definition keeps (P : Frame -> Prop) (step : Frame -> Outcome Verdict) : Prop :=
  forall f v, P f -> step f = Done v ->
    match v with
    | Continue f' => P f'
    | Return b f' => b = false /\ P f'
    end.

Ltac split_ifs :=
  repeat match goal with
         | |- context [if ?b then _ else _] => destruct b eqn:?
         | |- context [match ?x with _ => _ end] => destruct x eqn:?
         end.

Record Stable (P : Frame -> Prop) : Prop := {
  st_bump : forall c f, P f -> P (bump c f);
  st_bumpIf : forall b c f, P f -> P (bumpIf b c f);
  st_flog : forall cat t f, P f -> P (flog cat t f)
}.

Lemma cascade_cases (P : Frame -> Prop) f v :
  keeps P (fun f => Done (level5 f)) -> keeps P (fun f => Done (level4 f)) ->
  keeps P level3 -> keeps P level2 -> keeps P (fun f => Done (level1 f)) ->
  cascade f = Done v ->
  (exists c, v = Return true (bump c f)
             /\ immune (m_params (f_imp f)) (f_entry f) = true)
  \/ (exists f1, immuneChecks f = Continue f1
        /\ immune (m_params (f_imp f)) (f_entry f) = false
        /\ (P f1 -> (exists f', P f' /\ v = Return false f')
                    \/ (exists f', P f' /\ v = enforcePeakQuorum f'))).
Proof.
  intros K5 K4 K3 K2 K1 Hc. unfold cascade in Hc.
  destruct (immune (m_params (f_imp f)) (f_entry f)) eqn:Him.
  - destruct (immuneChecks_immune f Him) as (c & Hi & _). rewrite Hi in Hc.
    simpl in Hc. left. exists c. injection Hc as <-; auto.
  - destruct (immuneChecks_not_immune f Him) as [t Hi]. rewrite Hi in Hc.
    right. eexists. split; [exact Hi|]. split; [reflexivity|]. intros HP.
    set (f1 := setInquorate _ _ _ _) in *. cbn [andThen] in Hc.
    pose proof (K5 f1 _ HP eq_refl) as H5.
    destruct (level5 f1) as [b5 f5|f5]; cbn [andThen] in Hc.
    { simpl in H5. destruct H5 as [-> H5]. left. injection Hc as <-; eauto. }
    simpl in H5. pose proof (K4 f5 _ H5 eq_refl) as H4.
    destruct (level4 f5) as [b4 f4|f4]; cbn [andThen] in Hc.
    { simpl in H4. destruct H4 as [-> H4]. left. injection Hc as <-; eauto. }
    simpl in H4. destruct (level3 f4) as [[b3 f3|f3]|] eqn:E3; cbn [andThen] in Hc;
      try discriminate.
    { pose proof (K3 f4 _ H4 E3) as H3. simpl in H3. destruct H3 as [-> H3].
      left. injection Hc as <-; eauto. }
    pose proof (K3 f4 _ H4 E3) as H3. simpl in H3.
    destruct (level2 f3) as [[b2 f2|f2]|] eqn:E2; cbn [andThen] in Hc;
      try discriminate.
    { pose proof (K2 f3 _ H3 E2) as H2. simpl in H2. destruct H2 as [-> H2].
      left. injection Hc as <-; eauto. }
    pose proof (K2 f3 _ H3 E2) as H2. simpl in H2.
    pose proof (K1 f2 _ H2 eq_refl) as H1.
    destruct (level1 f2) as [b1 f1'|f1']; cbn [andThen] in Hc.
    { simpl in H1. destruct H1 as [-> H1]. left. injection Hc as <-; eauto. }
    simpl in H1. right. exists f1'. injection Hc as <-; auto.
Qed.


Lemma isImpure_entry e n pen :
  peakList (isImpure e n pen).2 = peakList e
  /\ status (isImpure e n pen).2 = status e.
Proof.
  unfold isImpure. destruct (peptidePtr e); [|auto].
  destruct (getOneComment "FracUnassigned" e).
  - destruct (parseFracUnassignedTop20 _) as [[? ?] ?].
    destruct (_ || _); auto.
  - do 3 destruct (calcFractionUnassigned _ _ _ _) as [[? ?] ?].
    destruct (_ || _); auto.
Qed.

Ltac destruct_ifs_in H :=
  repeat match type of H with
         | context [if ?b then _ else _] => destruct b eqn:?
         end.

Ltac finish_keep :=
  match goal with
  | H : Done _ = Done _ |- _ => injection H as <-; cbn; auto
  | H : Crash _ = Done _ |- _ => discriminate H
  end.


(** What the blocks leave alone. *)
Definition frameKept (e : Entry) (s : Importer) (f : Frame) : Prop :=
  peakList (f_entry f) = peakList e
  /\ numRepsUsed f = u32 (nrepsUsed e)
  /\ m_params (f_imp f) = m_params s
  /\ m_QFSearchLib (f_imp f) = m_QFSearchLib s
  /\ m_ppMappings (f_imp f) = m_ppMappings s
  /\ lib_entries (f_imp f) = lib_entries s
  /\ lib_preamble (f_imp f) = lib_preamble s
  /\ m_count (f_imp f) = u32 (m_count s + 1).

Ltac keep_tac HP H :=
  destruct_ifs_in H; injection H as <-; try split; trivial;
  unfold frameKept in *; cbn; intuition congruence.

Lemma frameKept_level5 e s : keeps (frameKept e s) (fun f => Done (level5 f)).
Proof. intros f v HP H. unfold level5 in H. keep_tac HP H. Qed.

Lemma frameKept_level4 e s : keeps (frameKept e s) (fun f => Done (level4 f)).
Proof. intros f v HP H. unfold level4 in H. keep_tac HP H. Qed.

Lemma frameKept_level3 e s : keeps (frameKept e s) level3.
Proof.
  intros f v HP H. unfold level3 in H.
  destruct (_ && _); [|keep_tac HP H].
  destruct (hasSharedSequence _ _) as [[]|]; cbn in H; try discriminate;
    keep_tac HP H.
Qed.

Lemma frameKept_level2 e s : keeps (frameKept e s) level2.
Proof.
  intros f v HP H. unfold level2 in H.
  destruct (_ || _); [|keep_tac HP H].
  destruct (isBadConflictingID _ _ _ _) as [[[] [|? ?]]|]; cbn in H;
    try discriminate; keep_tac HP H.
Qed.

Lemma frameKept_level1 e s : keeps (frameKept e s) (fun f => Done (level1 f)).
Proof.
  intros f v HP H. unfold level1 in H.
  destruct (_ || _); [|keep_tac HP H].
  pose proof (isImpure_entry (f_entry f) (numRepsUsed f)
         (qualityPenalizeSingletons (m_params (f_imp f)))) as [Hx _].
  destruct (isImpure _ _ _) as [[[] ?] ?]; cbn in H, Hx; keep_tac HP H.
Qed.

Lemma frameKept_start e s q t b :
  frameKept e s (setInquorate b (u32 (nrepsUsed e)) t (startFrame s e q)).
Proof. unfold frameKept. cbn. intuition. Qed.

(** The shape of every result of [applyQualityFilter]. *)
Lemma applyQualityFilter_cases s e q b e' q' s' :
  applyQualityFilter s e q = Done (b, e', q', s') ->
  m_params s' = m_params s
  /\ m_QFSearchLib s' = m_QFSearchLib s
  /\ m_ppMappings s' = m_ppMappings s
  /\ lib_entries s' = lib_entries s
  /\ lib_preamble s' = lib_preamble s
  /\ m_count s' = u32 (m_count s + 1)
  /\ (if immune (m_params s) e
      then b = true /\ e' = setStatus "Normal" e
      else b = true ->
           peakList e' =
             removeInquoratePeaks
               (minNumRepWithPeak (m_params s) (u32 (nrepsUsed e)))
               (peakList e)).
Proof.
  unfold applyQualityFilter. intros H.
  destruct (cascade (startFrame s e q)) as [v|] eqn:Hc; [|discriminate].
  apply (cascade_cases (frameKept e s)) in Hc;
    auto using frameKept_level5, frameKept_level4, frameKept_level3,
               frameKept_level2, frameKept_level1.
  cbn [f_imp f_entry startFrame m_params incCount setStatus prob getOneComment comments]
    in Hc.
  change (immune (m_params s) e) with
    (immune (m_params s) (setStatus "Normal" e)).
  cbn [f_imp f_entry startFrame m_params incCount] in Hc.
  destruct Hc as [(c & -> & Him)|(f1 & Hi & Him & Hrest)].
  - cbn in H. injection H as <- <- <- <-. cbn.
    unfold immune in *. cbn in Him |- *. rewrite Him. auto 10.
  - unfold immune in *. cbn in Him |- *. rewrite Him.
    destruct (immuneChecks_not_immune (startFrame s e q)) as [t Ht].
    { exact Him. }
    rewrite Ht in Hi. injection Hi as <-.
    specialize (Hrest (frameKept_start _ _ _ _ _)).
    destruct Hrest as [(f' & HP & ->)|(f' & HP & ->)].
    + cbn in H. injection H as <- <- <- <-.
      unfold frameKept in HP. intuition discriminate.
    + cbn in H. injection H as <- <- <- <-.
      unfold frameKept in HP. cbn. intuition congruence.
Qed.



Lemma applyQualityFilter_singleton_remove5 s e q :
  qualityLevelRemove (m_params s) = 5 ->
  minimumNumReplicates (m_params s) = 3 ->
  nrepsUsed e = 1 ->
  immune (m_params s) e = false ->
  exists t,
    applyQualityFilter s e q =
      Done (false, setStatus "Normal" e, incr Q5 q,
            logMsg SevInfo "QUALITY_FILTER" (Str "Remove INQUORATE " :: t)
                   (incCount s)).
Proof.
  intros Hr Hm Hn Him.
  destruct (immuneChecks_not_immune (startFrame s e q)) as [t Ht].
  { exact Him. }
  exists t. unfold applyQualityFilter, cascade. rewrite Ht.
  cbn [andThen]. unfold level5.
  cbn [f_imp f_entry startFrame setInquorate m_params incCount inquorate
       nrepsUsed setStatus tag].
  rewrite Hr, Hn. unfold repQuorum. rewrite Hm. reflexivity.
Qed.

(** C1 (as amended). With [qualityLevelRemove = 5] and
    [minimumNumReplicates = 3], an entry with replicate count 1 that is not
    immune is removed: [applyQualityFilter] returns false, the caller's loop
    goes on without inserting it, and the removal is counted under Q5 only.
    The function returns at level 5, before the singleton block, so Q4 is
    left as it was. *)
Theorem C1_singleton_removed_counted_Q5 s e q rest :
  qualityLevelRemove (m_params s) = 5 ->
  minimumNumReplicates (m_params s) = 3 ->
  nrepsUsed e = 1 ->
  immune (m_params s) e = false ->
  passAllFilters s e = true ->
  exists e' q' s',
    applyQualityFilter s e q = Done (false, e', q', s')
    /\ q' Q5 = u32 (q Q5 + 1)
    /\ q' Q4 = q Q4
    /\ lib_entries s' = lib_entries s
    /\ qualityFilterLoop (e :: rest) s q = qualityFilterLoop rest s' q'.
Proof.
  intros Hr Hm Hn Him Hp.
  destruct (applyQualityFilter_singleton_remove5 s e q Hr Hm Hn Him)
    as [t Ht].
  do 3 eexists. split; [exact Ht|]. repeat split.
  cbn [qualityFilterLoop]. rewrite Hp, Ht. reflexivity.
Qed.


(** Some block of the cascade has set a status label on the entry of the
    frame: the inquorate mark needs [qualityLevelMark >= 5]; the other
    flags are raised only inside their blocks. *)
Definition marked (f : Frame) : bool :=
  (inquorate f && (5 <=? qualityLevelMark (m_params (f_imp f))))
  || singleton f || unconfirmed f || badConflictingID f || impure f.

Definition statusKept (f : Frame) : Prop :=
  marked f = false -> status (f_entry f) = "Normal".

Ltac status_tac H :=
  destruct_ifs_in H; injection H as <-; try split; trivial;
  unfold statusKept, marked in *; cbn;
  repeat match goal with
         | E : _ = true |- _ => rewrite E in *
         | E : _ = false |- _ => rewrite E in *
         end;
  cbn in *; rewrite ?orb_true_r in *; cbn in *;
  try (intros; discriminate); auto.

Lemma statusKept_level5 : keeps statusKept (fun f => Done (level5 f)).
Proof. intros f v HP H. unfold level5 in H. status_tac H. Qed.

Lemma statusKept_level4 : keeps statusKept (fun f => Done (level4 f)).
Proof. intros f v HP H. unfold level4 in H. status_tac H. Qed.

Lemma statusKept_level3 : keeps statusKept level3.
Proof.
  intros f v HP H. unfold level3 in H.
  destruct (_ && _); [|status_tac H].
  destruct (hasSharedSequence _ _) as [[]|]; cbn in H; try discriminate;
    status_tac H.
Qed.

Lemma statusKept_level2 : keeps statusKept level2.
Proof.
  intros f v HP H. unfold level2 in H.
  destruct (_ || _); [|status_tac H].
  destruct (isBadConflictingID _ _ _ _) as [[[] [|? ?]]|]; cbn in H;
    try discriminate; status_tac H.
Qed.

Lemma statusKept_level1 : keeps statusKept (fun f => Done (level1 f)).
Proof.
  intros f v HP H. unfold level1 in H.
  destruct (_ || _); [|status_tac H].
  pose proof (isImpure_entry (f_entry f) (numRepsUsed f)
         (qualityPenalizeSingletons (m_params (f_imp f)))) as [_ Hx].
  destruct (isImpure _ _ _) as [[[] ?] ?]; cbn in H, Hx; status_tac H.
  intros Hm. rewrite Hx. auto.
Qed.

(** C9. The status is reset to "Normal" before anything else: the result
    does not depend on the label the entry carried, and an entry that comes
    back from the cascade without any block having marked it has status
    exactly "Normal". *)
Theorem C9_status_reset_to_Normal s e q l :
  applyQualityFilter s (setStatus l e) q = applyQualityFilter s e q
  /\ status (f_entry (startFrame s (setStatus l e) q)) = "Normal"
  /\ forall f, cascade (startFrame s (setStatus l e) q) = Done (Return true f) ->
               marked f = false -> status (f_entry f) = "Normal".
Proof.
  split; [reflexivity|]. split; [reflexivity|].
  intros f Hc.
  apply (cascade_cases statusKept) in Hc;
    auto using statusKept_level5, statusKept_level4, statusKept_level3,
               statusKept_level2, statusKept_level1.
  destruct Hc as [(c & Hv & _)|(f1 & Hi & Him & Hrest)].
  - injection Hv as ->. reflexivity.
  - destruct (immuneChecks_not_immune _ Him) as [t Ht].
    rewrite Ht in Hi. injection Hi as <-.
    destruct Hrest as [(f' & _ & Hv)|(f' & HP & Hv)].
    + intros _. reflexivity.
    + discriminate.
    + injection Hv as ->. exact HP.
Qed.


(** *** The reference library is there whenever it is dereferenced *)

Definition derefsNullSearchLib {A : Type} (o : Outcome A) : bool :=
  match o with
  | Crash NullSearchLib => true
  | _ => false
  end.

(** The condition under which [doQualityFilter] creates [m_QFSearchLib]. *)
Definition searchLibReady (s : Importer) : Prop :=
  (2 <=? qualityLevelMark (m_params s)) || (2 <=? qualityLevelRemove (m_params s))
    = true ->
  is_Some (m_QFSearchLib s).

Lemma scanSimilar_no_null_lib e pep n pen l ss :
  derefsNullSearchLib (scanSimilar e pep n pen l ss) = false.
Proof.
  revert ss. induction l as [|i l IH]; intros ss; cbn; [reflexivity|].
  destruct (negb _); [|apply IH]. destruct (_ || _); [|apply IH].
  destruct (peptidePtr i); [|reflexivity].
  destruct (isHomolog _ _ _).1; [apply IH|].
  destruct (_ <? _); [reflexivity|]. destruct (_ && _); [reflexivity|apply IH].
Qed.

Lemma level3_no_null_lib f :
  searchLibReady (f_imp f) -> derefsNullSearchLib (level3 f) = false.
Proof.
  unfold searchLibReady, level3, hasSharedSequence. intros H.
  destruct (inquorate f); cbn; [|reflexivity].
  destruct ((3 <=? qualityLevelRemove (m_params (f_imp f)))
            || (3 <=? qualityLevelMark (m_params (f_imp f)))) eqn:E;
    [|reflexivity].
  destruct (peptidePtr _); cbn.
  - destruct H as [lib ->].
    { apply orb_true_iff in E. apply orb_true_iff.
      destruct E as [E|E]; [right|left]; apply Z.leb_le in E; apply Z.leb_le; lia. }
    cbn. destruct (negb _); [|reflexivity].
    destruct (3 <=? qualityLevelRemove _); [reflexivity|].
    destruct (3 <=? qualityLevelMark _); reflexivity.
  - destruct (3 <=? qualityLevelRemove _); [reflexivity|].
    destruct (3 <=? qualityLevelMark _); reflexivity.
Qed.

Lemma level2_no_null_lib f :
  searchLibReady (f_imp f) -> derefsNullSearchLib (level2 f) = false.
Proof.
  unfold searchLibReady, level2, isBadConflictingID. intros H.
  destruct ((2 <=? qualityLevelRemove (m_params (f_imp f)))
            || (2 <=? qualityLevelMark (m_params (f_imp f)))) eqn:E;
    [|reflexivity].
  destruct (peptidePtr _); cbn.
  - destruct H as [lib ->].
    { apply orb_true_iff in E. apply orb_true_iff. tauto. }
    pose proof (scanSimilar_no_null_lib (f_entry f) p (numRepsUsed f)
      (qualityPenalizeSingletons (m_params (f_imp f)))
      (retrieveMz (mzidx lib) (precursorMz (f_entry f) - (45 # 10))%Q
                  (precursorMz (f_entry f) + (45 # 10))%Q) []) as Hs.
    destruct (scanSimilar _ _ _ _ _ _) as [[[] [|? ?]]|fa]; cbn in *;
      try assumption;
      repeat match goal with |- context [if ?b then _ else _] => destruct b end;
      reflexivity.
  - reflexivity.
Qed.

Lemma searchLibReady_kept e s f :
  frameKept e s f -> searchLibReady s -> searchLibReady (f_imp f).
Proof.
  unfold frameKept, searchLibReady. intros (_ & _ & -> & -> & _) H. exact H.
Qed.

Lemma applyQualityFilter_no_null_lib s e q :
  searchLibReady s -> derefsNullSearchLib (applyQualityFilter s e q) = false.
Proof.
  intros Hs. unfold applyQualityFilter.
  destruct (cascade (startFrame s e q)) as [v|fa] eqn:Hc; cbn.
  { destruct v; reflexivity. }
  unfold cascade in Hc.
  destruct (immune (m_params s) (setStatus "Normal" e)) eqn:Him.
  - destruct (immuneChecks_immune (startFrame s e q) Him) as (c & Hi & _).
    rewrite Hi in Hc. discriminate.
  - destruct (immuneChecks_not_immune (startFrame s e q) Him) as [t Ht].
    rewrite Ht in Hc. cbn [andThen] in Hc.
    pose proof (frameKept_start e s q t
      (u32 (nrepsUsed (f_entry (startFrame s e q)))
       <? repQuorum (m_params (f_imp (startFrame s e q))))) as HP.
    set (f1 := setInquorate _ _ _ _) in *.
    pose proof (frameKept_level5 e s f1 _ HP eq_refl) as H5.
    destruct (level5 f1) as [b5 f5|f5]; cbn [andThen] in Hc; [discriminate|].
    pose proof (frameKept_level4 e s f5 _ H5 eq_refl) as H4.
    destruct (level4 f5) as [b4 f4|f4]; cbn [andThen] in Hc; [discriminate|].
    cbn in H4.
    pose proof (level3_no_null_lib f4 (searchLibReady_kept _ _ _ H4 Hs)) as N3.
    destruct (level3 f4) as [[b3 f3|f3]|x3] eqn:E3; cbn [andThen] in Hc;
      try discriminate.
    2:{ injection Hc as <-. exact N3. }
    pose proof (frameKept_level3 e s f4 _ H4 E3) as H3. cbn in H3.
    pose proof (level2_no_null_lib f3 (searchLibReady_kept _ _ _ H3 Hs)) as N2.
    destruct (level2 f3) as [[b2 f2|f2]|x2] eqn:E2; cbn [andThen] in Hc;
      try discriminate.
    2:{ injection Hc as <-. exact N2. }
    destruct (level1 f2); discriminate.
Qed.

Lemma insertEntry_ready s e : searchLibReady s -> searchLibReady (insertEntry e s).
Proof. exact (fun H => H). Qed.

Lemma qualityFilterLoop_no_null_lib l : forall s q,
  searchLibReady s -> derefsNullSearchLib (qualityFilterLoop l s q) = false.
Proof.
  induction l as [|e l IH]; intros s q Hs; cbn; [reflexivity|].
  destruct (passAllFilters s e); [|auto].
  pose proof (applyQualityFilter_no_null_lib s e q Hs) as Ha.
  destruct (applyQualityFilter s e q) as [[[[b e'] q'] s']|fa] eqn:E; cbn.
  2:{ exact Ha. }
  apply applyQualityFilter_cases in E as (Hp & Hl & _).
  assert (searchLibReady s') as Hs'.
  { unfold searchLibReady in *. rewrite Hp, Hl. exact Hs. }
  destruct b; apply IH; auto.
Qed.


Lemma searchLibReady_created s lib :
  searchLibReady
    (if (2 <=? qualityLevelMark (m_params s))
        || (2 <=? qualityLevelRemove (m_params s))
     then setQFSearchLib (Some lib) s else s).
Proof.
  unfold searchLibReady.
  destruct ((2 <=? qualityLevelMark (m_params s))
            || (2 <=? qualityLevelRemove (m_params s))) eqn:G; cbn.
  - eauto.
  - rewrite G. discriminate.
Qed.

Lemma doQualityFilter_no_null_lib s :
  derefsNullSearchLib (doQualityFilter s) = false.
Proof.
  unfold doQualityFilter.
  destruct (negb _); [reflexivity|].
  set (s1 := openSplibs _ _ _ _ _).
  destruct (nth 0 (m_splibFins s1) None), (nth 0 (m_pepIndices s1) None);
    try reflexivity.
  all: destruct (nth 0 (m_mzIndices s1) None) as [mz|]; [|reflexivity].
  all: match goal with
       | |- context [qualityFilterLoop ?l ?s3 ?q] =>
         assert (searchLibReady s3) as Hs;
           [|pose proof (qualityFilterLoop_no_null_lib l s3 q Hs) as Hl;
             destruct (qualityFilterLoop l s3 q) as [[s4 q4]|fa]; cbn;
             [destruct (_ && _); reflexivity|exact Hl]]
       end.
  all: apply (searchLibReady_created (writePreamble s1)).
Qed.

Lemma foldM_no_null_lib {A B : Type} (f : A -> B -> Outcome A) l :
  (forall a b, derefsNullSearchLib (f a b) = false) ->
  forall a, derefsNullSearchLib (foldM f l a) = false.
Proof.
  intros Hf. induction l as [|b l IH]; intros a; cbn; [reflexivity|].
  specialize (Hf a b). destruct (f a b); cbn; auto.
Qed.

Lemma doBuildAction_no_null_lib entries s :
  derefsNullSearchLib (doBuildAction entries s) = false.
Proof.
  unfold doBuildAction.
  repeat match goal with
         | |- context [if ?b then _ else _] => destruct b
         | |- context [match ?x with _ => _ end] => destruct x
         end; reflexivity.
Qed.

Lemma importPasses_no_null_lib s :
  derefsNullSearchLib (importPasses s) = false.
Proof.
  assert (forall s cur, derefsNullSearchLib (importPass s cur) = false) as Hp.
  { intros s0 cur. unfold importPass.
    destruct (nth cur _ None); [|reflexivity].
    apply foldM_no_null_lib. intros a b. unfold importPeptide.
    apply foldM_no_null_lib. intros a' k. unfold importSubkey.
    destruct (includeKey _ _ _ _); [apply doBuildAction_no_null_lib|reflexivity]. }
  unfold importPasses. destruct (isUnionLike _); [|apply Hp].
  apply foldM_no_null_lib. exact Hp.
Qed.

(** C10. No run dereferences a null [m_QFSearchLib]: the shared-sequence
    check is gated on a level of at least 3 and the conflicting-ID check on
    a level of at least 2, and [doQualityFilter] creates the reference
    library whenever a level is at least 2. *)
Theorem C10_search_library_never_null files params :
  derefsNullSearchLib (run files params) = false
  /\ forall s e q, searchLibReady s ->
       derefsNullSearchLib (applyQualityFilter s e q) = false.
Proof.
  split; [|exact applyQualityFilter_no_null_lib].
  unfold run, import.
  repeat match goal with
         | |- context [if ?b then _ else _] => destruct b
         end; try reflexivity; try apply doQualityFilter_no_null_lib.
  all: match goal with
       | |- context [importPasses ?s] =>
         pose proof (importPasses_no_null_lib s) as H1;
           destruct (importPasses s) as [s4|fa]; cbn; [|exact H1]
       end.
  all: destruct (m_denoiser s4); [|reflexivity].
  all: destruct (negb _); [|reflexivity].
  all: unfold reloadAndProcessSingletons; apply foldM_no_null_lib.
  all: intros; apply doBuildAction_no_null_lib.
Qed.

(** *** The peak quorum *)
Lemma Qfloor_unique (z : Z) (y : Q) :
  (inject_Z z <= y)%Q -> (y < inject_Z (z + 1))%Q -> Qfloor y = z.
Proof.
  intros H1 H2.
  pose proof (Qfloor_le y) as F1. pose proof (Qlt_floor y) as F2.
  assert (Qfloor y < z + 1).
  { rewrite Zlt_Qlt. eapply Qle_lt_trans; eauto. }
  assert (z < Qfloor y + 1).
  { rewrite Zlt_Qlt. eapply Qle_lt_trans; eauto. }
  lia.
Qed.

Lemma Qceiling_unique (z : Z) (y : Q) :
  (inject_Z (z - 1) < y)%Q -> (y <= inject_Z z)%Q -> Qceiling y = z.
Proof.
  intros H1 H2.
  pose proof (Qle_ceiling y) as F1. pose proof (Qceiling_lt y) as F2.
  assert (Qceiling y - 1 < z).
  { rewrite Zlt_Qlt. eapply Qlt_le_trans; eauto. }
  assert (z - 1 < Qceiling y).
  { rewrite Zlt_Qlt. eapply Qlt_le_trans; eauto. }
  lia.
Qed.

Lemma Qle_bool_false (a b : Q) : Qle_bool a b = false -> (b < a)%Q.
Proof.
  intros H. apply Qnot_le_lt. intros Hle. apply Qle_bool_iff in Hle. congruence.
Qed.

Ltac qz :=
  unfold Z.sub; rewrite ?inject_Z_plus;
  change (inject_Z 0) with 0%Q in *; change (inject_Z 1) with 1%Q in *;
  change (inject_Z (-1)) with (-1 # 1)%Q in *;
  change (inject_Z (- (1))) with (-1 # 1)%Q in *; lra.

(** Rounding: powers of two and the error of one operation. *)
Lemma pow2_pos e : (0 < pow2 e)%Q.
Proof. unfold pow2. apply Qpower_0_lt. reflexivity. Qed.

Lemma pow2_le e1 e2 : e1 <= e2 -> (pow2 e1 <= pow2 e2)%Q.
Proof. intros H. unfold pow2. apply Qpower_le_compat_l; [exact H|]. discriminate. Qed.

Lemma pow2_lt_inv e1 e2 : (pow2 e1 < pow2 e2)%Q -> e1 < e2.
Proof. intros H. apply (Qpower_lt_compat_l_inv 2); [exact H|reflexivity]. Qed.

Lemma pow2_nonneg_Z e : 0 <= e -> (pow2 e == inject_Z (2 ^ e))%Q.
Proof. intros H. unfold pow2. rewrite Zpower_Qpower by exact H. reflexivity. Qed.

Lemma ilog2_le x : (0 < x)%Q -> (pow2 (ilog2 x) <= x)%Q.
Proof.
  intros Hx. unfold ilog2.
  set (a := Z.log2 (Qnum x)). set (b := Z.log2 (Z.pos (Qden x))).
  destruct (Qle_bool (pow2 (a - b)) x) eqn:E; [apply Qle_bool_iff; exact E|].
  assert (Hn : 0 < Qnum x).
  { destruct x as [n d]. unfold Qlt in Hx. cbn in *. lia. }
  assert (Ha : 2 ^ a <= Qnum x) by (apply Z.log2_spec; exact Hn).
  assert (Hb : Z.pos (Qden x) < 2 ^ (b + 1)).
  { replace (b + 1) with (Z.succ b) by lia. apply Z.log2_spec. reflexivity. }
  assert (Ha0 : 0 <= a) by apply Z.log2_nonneg.
  assert (Hb0 : 0 <= b) by apply Z.log2_nonneg.
  replace (a - b - 1) with (a - (b + 1)) by lia.
  unfold pow2. rewrite Qpower_minus by discriminate.
  fold (pow2 a) (pow2 (b + 1)).
  rewrite !pow2_nonneg_Z by lia.
  assert (Hp : (0 < inject_Z (2 ^ (b + 1)))%Q).
  { rewrite <- pow2_nonneg_Z by lia. apply pow2_pos. }
  apply Qle_shift_div_r; [exact Hp|].
  destruct x as [n d]. cbn in *. unfold Qle. cbn.
  rewrite Z.mul_1_r. nia.
Qed.

Lemma roundEven_near x :
  (x - (1 # 2) <= inject_Z (roundEven x) <= x + (1 # 2))%Q.
Proof.
  unfold roundEven.
  pose proof (Qfloor_le x) as F1. pose proof (Qlt_floor x) as F2.
  rewrite inject_Z_plus in F2. change (inject_Z 1) with 1%Q in F2.
  destruct (x - inject_Z (Qfloor x) ?= 1 # 2)%Q eqn:E.
  - apply Qeq_alt in E. destruct (Z.even (Qfloor x));
      rewrite ?inject_Z_plus; change (inject_Z 1) with 1%Q; lra.
  - apply Qlt_alt in E. lra.
  - apply Qgt_alt in E. rewrite inject_Z_plus. change (inject_Z 1) with 1%Q. lra.
Qed.

Lemma ulpAt_pos x : (0 < ulpAt x)%Q.
Proof. apply pow2_pos. Qed.

(** The rounding of a positive number is off by half a unit in the last
    place at most. *)
Lemma roundPos_near x :
  (x - ulpAt x * (1 # 2) <= roundPos x <= x + ulpAt x * (1 # 2))%Q.
Proof.
  unfold roundPos. pose proof (ulpAt_pos x) as Hs.
  pose proof (roundEven_near (x / ulpAt x)) as [H1 H2].
  set (r := inject_Z (roundEven (x / ulpAt x))) in *. clearbody r.
  set (s := ulpAt x) in *. clearbody s.
  assert (E : (x == x / s * s)%Q) by (field; lra).
  split.
  - assert ((x / s - (1 # 2)) * s <= r * s)%Q
      by (apply Qmult_le_compat_r; lra).
    lra.
  - assert (r * s <= (x / s + (1 # 2)) * s)%Q
      by (apply Qmult_le_compat_r; lra).
    lra.
Qed.

Lemma ulpAt_small x e :
  (0 < x)%Q -> (x < pow2 e)%Q -> -1022 < e -> (ulpAt x <= pow2 (e - 53))%Q.
Proof.
  intros Hx Hlt He. unfold ulpAt. apply pow2_le.
  assert (ilog2 x < e).
  { apply pow2_lt_inv. eapply Qle_lt_trans; [apply ilog2_le; exact Hx|exact Hlt]. }
  lia.
Qed.

(** Within 2^33 of zero a result is rounded by 2^-21 at most. *)
Lemma roundDouble_near x :
  (- pow2 33 < x)%Q -> (x < pow2 33)%Q ->
  (x - pow2 (-21) <= roundDouble x <= x + pow2 (-21))%Q.
Proof.
  intros Hlo Hhi. unfold roundDouble. rewrite Qred_correct.
  assert (P : (0 < pow2 (-21))%Q) by apply pow2_pos.
  assert (Hh : (pow2 (-20) * (1 # 2) == pow2 (-21))%Q) by reflexivity.
  destruct (x ?= 0)%Q eqn:E.
  - apply Qeq_alt in E. lra.
  - apply Qlt_alt in E.
    assert (Hx : (0 < - x)%Q) by lra.
    pose proof (roundPos_near (- x)) as [H1 H2].
    pose proof (ulpAt_small (- x) 33 Hx ltac:(lra) ltac:(lia)) as Hu.
    change (33 - 53) with (-20) in Hu.
    assert ((ulpAt (- x) * (1 # 2) <= pow2 (-21))%Q) by lra.
    lra.
  - apply Qgt_alt in E.
    pose proof (roundPos_near x) as [H1 H2].
    pose proof (ulpAt_small x 33 E Hhi ltac:(lia)) as Hu.
    change (33 - 53) with (-20) in Hu.
    assert ((ulpAt x * (1 # 2) <= pow2 (-21))%Q) by lra.
    lra.
Qed.

(** The double computed for [n * q - 0.00001] is within 0.0000015 of the
    exact value, for a count below 2^32 and a quorum between 0 and 1. *)
Lemma quorum_product_near n q :
  0 <= n < 2 ^ 32 -> (0 <= q)%Q -> (q <= 1)%Q ->
  let x := (inject_Z n * q)%Q in
  let y := dsub (dmul (inject_Z n) q) (roundDouble (1 # 100000)) in
  (x - (115 # 10000000) <= y <= x - (85 # 10000000))%Q.
Proof.
  intros Hn Hq0 Hq1. cbv zeta. unfold dsub, dmul.
  set (x := (inject_Z n * q)%Q).
  assert (E21 : (pow2 (-21) == 1 # 2097152)%Q) by reflexivity.
  assert (E33 : (pow2 33 == 8589934592)%Q) by reflexivity.
  assert (Hn0 : (0 <= inject_Z n)%Q).
  { change (inject_Z 0 <= inject_Z n)%Q. rewrite <- Zle_Qle. lia. }
  assert (Hn1 : (inject_Z n <= 4294967295)%Q).
  { change (inject_Z n <= inject_Z 4294967295)%Q. rewrite <- Zle_Qle. lia. }
  assert (Hx0 : (0 <= x)%Q) by (unfold x; apply Qmult_le_0_compat; assumption).
  assert (Hx1 : (x <= inject_Z n)%Q).
  { unfold x. rewrite <- (Qmult_1_r (inject_Z n)) at 2.
    apply Qmult_le_compat_nonneg; split; try lra. }
  clearbody x.
  destruct (roundDouble_near x) as [A1 A2]; try lra.
  destruct (roundDouble_near (1 # 100000)) as [B1 B2]; try lra.
  set (p1 := roundDouble x) in *. clearbody p1.
  set (c := roundDouble (1 # 100000)) in *. clearbody c.
  destruct (roundDouble_near (p1 - c)) as [D1 D2]; try lra.
Qed.

(** The threshold is the ceiling of the product, with a floor of 1, when
    the product is at most 1 or lies at least 0.000012 above the integer
    below it; a product that is an integer lies 1 above that integer. *)
Lemma minNumRepWithPeak_ceiling p n :
  0 <= n < 2 ^ 32 ->
  (0 <= roundDouble (peakQuorum p))%Q -> (roundDouble (peakQuorum p) <= 1)%Q ->
  let x := (inject_Z n * roundDouble (peakQuorum p))%Q in
  (x <= 1 \/ (12 # 1000000) <= x - inject_Z (Qceiling x - 1))%Q ->
  minNumRepWithPeak p n = Z.max 1 (Qceiling x).
Proof.
  intros Hn Hq0 Hq1. cbv zeta. intros Hx. unfold minNumRepWithPeak.
  set (q := peakQuorum p) in *. clearbody q.
  pose proof (quorum_product_near n (roundDouble q) Hn Hq0 Hq1) as Hy.
  cbv zeta in Hy.
  set (y := dsub (dmul (inject_Z n) (roundDouble q))
                 (roundDouble (1 # 100000))) in *.
  set (x := (inject_Z n * roundDouble q)%Q) in *.
  assert (Hn0 : (0 <= inject_Z n)%Q).
  { change (inject_Z 0 <= inject_Z n)%Q. rewrite <- Zle_Qle. lia. }
  assert (Hx0 : (0 <= x)%Q) by (unfold x; apply Qmult_le_0_compat; assumption).
  assert (Hx1 : (x <= inject_Z n)%Q).
  { unfold x. rewrite <- (Qmult_1_r (inject_Z n)) at 2.
    apply Qmult_le_compat_nonneg; split; try lra. }
  clearbody y x.
  pose proof (Qle_ceiling x) as C1. pose proof (Qceiling_lt x) as C2.
  assert (Hc0 : 0 <= Qceiling x).
  { rewrite Zle_Qle. change (inject_Z 0) with 0%Q. lra. }
  assert (Hcn : Qceiling x <= n).
  { assert (Qceiling x - 1 < n); [|lia]. rewrite Zlt_Qlt. lra. }
  unfold to_uint, truncate.
  assert (Hu : forall t : Z, 0 <= t < 2 ^ 32 -> u32 (u32 t + 1) = u32 (t + 1)).
  { intros t Ht. unfold u32. rewrite (Z.mod_small t) by lia. reflexivity. }
  destruct (Qle_bool 1 x) eqn:E1.
  - (* 1 <= x *)
    apply Qle_bool_iff in E1.
    assert (Hm : ((12 # 1000000) <= x - inject_Z (Qceiling x - 1))%Q).
    { destruct Hx as [Hx|Hx]; [|exact Hx].
      assert (Qceiling x = 1) as ->;
        [|change (inject_Z (1 - 1)) with 0%Q; lra].
      apply Qceiling_unique; qz. }
    set (k := Qceiling x - 1) in *.
    assert (Hk : Qceiling x = k + 1) by (unfold k; lia).
    rewrite Hk in *. clearbody k.
    rewrite inject_Z_plus in C1. change (inject_Z 1) with 1%Q in C1.
    assert (Hk0 : 0 <= k).
    { rewrite Zle_Qle. change (inject_Z 0) with 0%Q. lra. }
    assert (Hy0 : (0 <= y)%Q).
    { assert (inject_Z 0 <= inject_Z k)%Q by (rewrite <- Zle_Qle; lia).
      change (inject_Z 0) with 0%Q in *. lra. }
    apply Qle_bool_iff in Hy0. rewrite Hy0.
    assert (Qfloor y = k) as ->.
    { apply Qfloor_unique; [lra|]. rewrite inject_Z_plus.
      change (inject_Z 1) with 1%Q. lra. }
    rewrite Hu by lia. unfold u32. rewrite Z.mod_small by lia.
    destruct (k + 1 <? 1) eqn:E; [apply Z.ltb_lt in E; lia|lia].
  - (* x < 1 *)
    apply Qle_bool_false in E1.
    assert (Ht : (if Qle_bool 0 y then Qfloor y else Qceiling y) = 0).
    { destruct (Qle_bool 0 y) eqn:Ey.
      - apply Qle_bool_iff in Ey. apply Qfloor_unique; qz.
      - apply Qle_bool_false in Ey. apply Qceiling_unique; qz. }
    rewrite Ht.
    assert (Qceiling x = 0 \/ Qceiling x = 1) as Hc.
    { destruct (Qeq_dec x 0) as [E0|E0].
      - left. apply Qceiling_unique; qz.
      - right. apply Qceiling_unique; qz. }
    cbn. destruct Hc as [-> | ->]; reflexivity.
Qed.

(** *** Configuration conflicts *)

Definition singleFileActions : list string :=
  ["QUALITY_FILTER"; "DECOY"; "SORT_BY_NREPS"; "USER_SPECIFIED_MODS";
   "SIMILARITY_CLUSTERING"].

Definition conflicting (files : list InputFile) (p : Params) : bool :=
  (String.eqb (combineAction p) "SUBTRACT_HOMOLOGS" && nonEmpty (buildAction p))
  || (existsb (String.eqb (buildAction p)) singleFileActions
      && (1 <? Z.of_nat (length files))).

(** C8. A run whose configuration is conflicting (SUBTRACT_HOMOLOGS with a
    build action, or more than one input file given to QUALITY_FILTER,
    DECOY, SORT_BY_NREPS, USER_SPECIFIED_MODS or SIMILARITY_CLUSTERING) logs
    one error and returns the importer as constructed: no preamble and no
    entry is written. *)
Theorem C8_conflict_logged_no_output files p :
  conflicting files p = true ->
  exists cat txt,
    run files p = Done (logMsg SevError cat txt (construct files p))
    /\ lib_preamble (logMsg SevError cat txt (construct files p)) = None
    /\ lib_entries (logMsg SevError cat txt (construct files p)) = [].
Proof.
  unfold conflicting, run, import. intros H.
  cbn [m_params construct].
  destruct (String.eqb (combineAction p) "SUBTRACT_HOMOLOGS"
            && nonEmpty (buildAction p)) eqn:E1.
  { do 2 eexists. split; [reflexivity|]. split; reflexivity. }
  cbn [orb] in H. apply andb_true_iff in H as [Hb Hn].
  assert (negb (Z.of_nat (length files) =? 1) = true) as Hl.
  { apply Z.ltb_lt in Hn. apply negb_true_iff, Z.eqb_neq. lia. }
  unfold singleFileActions in Hb. cbn [existsb] in Hb.
  repeat (apply orb_true_iff in Hb as [Hb|Hb]); try discriminate;
    apply String.eqb_eq in Hb; rewrite Hb; cbn [String.eqb Ascii.eqb Bool.eqb];
    unfold doQualityFilter, doGenerateDecoy, doSortByNreps,
           doUserSpecifiedModifications, doSimilarityClustering;
    cbn [m_impFiles construct]; rewrite Hl;
    do 2 eexists; (split; [reflexivity|]); split; reflexivity.
Qed.


(** *** openSplibs only appends to the vectors and leaves the output alone *)
Lemma openOne_fields a b c d s f :
  lib_entries (openOne a b c d s f) = lib_entries s
  /\ lib_preamble (openOne a b c d s f) = lib_preamble s
  /\ m_params (openOne a b c d s f) = m_params s
  /\ exists x, m_pepIndices (openOne a b c d s f) = m_pepIndices s ++ [x]
               /\ (content f = None -> x = None).
Proof.
  unfold openOne. destruct (content f) as [lib|].
  - destruct (if b || c || _ then _ else _) as [idx|].
    + destruct (d && _); cbn; eauto 10 using eq_refl.
      all: repeat split; eexists; split; [reflexivity|discriminate].
    + cbn. repeat split; eexists; split; [reflexivity|discriminate].
  - cbn. repeat split; eexists; split; [reflexivity|reflexivity].
Qed.

Lemma fold_openOne_fields a b c d files : forall s,
  lib_entries (fold_left (openOne a b c d) files s) = lib_entries s
  /\ lib_preamble (fold_left (openOne a b c d) files s) = lib_preamble s
  /\ m_params (fold_left (openOne a b c d) files s) = m_params s
  /\ exists l, m_pepIndices (fold_left (openOne a b c d) files s)
               = m_pepIndices s ++ l.
Proof.
  induction files as [|f files IH]; intros s; cbn.
  - repeat split. exists []. rewrite app_nil_r. reflexivity.
  - destruct (IH (openOne a b c d s f)) as (-> & -> & -> & l & ->).
    destruct (openOne_fields a b c d s f) as (-> & -> & -> & x & -> & _).
    repeat split. exists (x :: l). rewrite <- app_assoc. reflexivity.
Qed.

(** What [openSplibs] stores for one file. *)
Definition pepIndexOf (openPepIndex checkUniqueness refresh_ : bool)
    (p : Params) (f : InputFile) : option PepIndex :=
  match content f with
  | None => None
  | Some lib =>
    if openPepIndex || checkUniqueness
       || (refresh_ && nonEmpty (refreshDatabase p)) then
      if checkUniqueness && negb (isUniqueLibrary (pepidx lib))
      then None else Some (pepidx lib)
    else None
  end.

Definition mzIndexOf (openMzIndex : bool) (f : InputFile) : option MzIndex :=
  match content f with
  | None => None
  | Some lib => if openMzIndex then Some (mzidx lib) else None
  end.

Lemma openOne_stores a b c d s f :
  m_pepIndices (openOne a b c d s f)
    = m_pepIndices s ++ [pepIndexOf b c d (m_params s) f]
  /\ m_mzIndices (openOne a b c d s f) = m_mzIndices s ++ [mzIndexOf a f]
  /\ m_splibFins (openOne a b c d s f) = m_splibFins s ++ [content f]
  /\ m_params (openOne a b c d s f) = m_params s
  /\ lib_entries (openOne a b c d s f) = lib_entries s
  /\ lib_preamble (openOne a b c d s f) = lib_preamble s
  /\ m_singletonPeptideIons (openOne a b c d s f) = m_singletonPeptideIons s
  /\ m_denoiser (openOne a b c d s f) = m_denoiser s
  /\ m_count (openOne a b c d s f) = m_count s
  /\ m_impFiles (openOne a b c d s f) = m_impFiles s
  /\ m_QFSearchLib (openOne a b c d s f) = m_QFSearchLib s.
Proof.
  unfold openOne, pepIndexOf, mzIndexOf. destruct (content f) as [lib|].
  - destruct (b || c || _).
    + destruct (c && _); [cbn; auto 12|].
      destruct (d && _); cbn; auto 12.
    + cbn. auto 12.
  - cbn. auto 12.
Qed.

Lemma openSplibs_stores a b c d files : forall s,
  let s' := fold_left (openOne a b c d) files s in
  m_pepIndices s' = m_pepIndices s ++ map (pepIndexOf b c d (m_params s)) files
  /\ m_mzIndices s' = m_mzIndices s ++ map (mzIndexOf a) files
  /\ m_splibFins s' = m_splibFins s ++ map content files
  /\ m_params s' = m_params s
  /\ lib_entries s' = lib_entries s
  /\ lib_preamble s' = lib_preamble s
  /\ m_singletonPeptideIons s' = m_singletonPeptideIons s
  /\ m_denoiser s' = m_denoiser s
  /\ m_count s' = m_count s
  /\ m_impFiles s' = m_impFiles s
  /\ m_QFSearchLib s' = m_QFSearchLib s.
Proof.
  induction files as [|f files IH]; intros s; cbn zeta.
  - cbn. rewrite !app_nil_r. auto 12.
  - cbn [fold_left map].
    destruct (IH (openOne a b c d s f))
      as (-> & -> & -> & -> & -> & -> & -> & -> & -> & -> & ->).
    destruct (openOne_stores a b c d s f)
      as (-> & -> & -> & -> & -> & -> & -> & -> & -> & -> & ->).
    rewrite <- !app_assoc. auto 12.
Qed.

Lemma refresh_keeps s :
  m_params (refresh s) = m_params s
  /\ m_pepIndices (refresh s) = m_pepIndices s
  /\ lib_entries (refresh s) = lib_entries s
  /\ m_singletonPeptideIons (refresh s) = m_singletonPeptideIons s.
Proof. unfold refresh. destruct (m_ppMappings s); auto. Qed.

Definition plainCombine : list string :=
  ["UNION"; "APPEND"; "INTERSECT"; "SUBTRACT"].

(** C3. A run with combine action UNION, APPEND, INTERSECT or SUBTRACT and
    no single-file build action, whose first input cannot be opened: the
    run stops before importing, and no entry is written, but the preamble of
    the output library was written before the first peptide index was
    looked at. *)
Theorem C3_first_input_unusable_preamble_written f rest p :
  existsb (String.eqb (combineAction p)) plainCombine = true ->
  existsb (String.eqb (buildAction p)) singleFileActions = false ->
  content f = None ->
  exists s', run (f :: rest) p = Done s'
             /\ lib_entries s' = []
             /\ is_Some (lib_preamble s').
Proof.
  intros Hc Hb Hf. unfold run, import. cbn [m_params construct].
  assert (String.eqb (combineAction p) "SUBTRACT_HOMOLOGS" = false) as ->.
  { unfold plainCombine in Hc. cbn [existsb] in Hc.
    repeat (apply orb_true_iff in Hc as [Hc|Hc]); try discriminate;
      apply String.eqb_eq in Hc; rewrite Hc; reflexivity. }
  unfold singleFileActions in Hb. cbn [existsb] in Hb.
  repeat (apply orb_false_iff in Hb as [? Hb]).
  repeat match goal with E : String.eqb _ _ = false |- _ => rewrite E; clear E end.
  cbn [andb].
  set (s1 := putDescription (construct (f :: rest) p)).
  assert (m_splibFins s1 = []) as Hfins by reflexivity.
  assert (exists l, m_pepIndices (openSplibs false true false true s1) = None :: l
          /\ lib_entries (openSplibs false true false true s1) = []) as (l & Hl & He).
  { unfold openSplibs. rewrite Hfins.
    change (m_impFiles s1) with (f :: rest). cbn [fold_left].
    destruct (fold_openOne_fields false true false true rest
                (openOne false true false true s1 f)) as (-> & _ & _ & l & ->).
    destruct (openOne_fields false true false true s1 f)
      as (-> & _ & _ & x & -> & Hx).
    rewrite (Hx Hf). exists l. split; reflexivity. }
  assert (forall s, m_pepIndices (refresh s) = m_pepIndices s
                    /\ lib_entries (refresh s) = lib_entries s
                    /\ lib_preamble (refresh s) = lib_preamble s) as Hr.
  { intros s. unfold refresh. destruct (m_ppMappings s); auto. }
  set (s2 := openSplibs false true false true s1) in *.
  assert (m_pepIndices (writePreamble s2) = None :: l) as Hl' by exact Hl.
  assert (lib_entries (writePreamble s2) = []) as He' by exact He.
  assert (is_Some (lib_preamble (writePreamble s2))) as Hp' by (cbn; eauto).
  destruct (nonEmpty (refreshDatabase p)).
  - destruct (Hr (writePreamble s2)) as (R1 & R2 & R3).
    exists (refresh (writePreamble s2)). rewrite R1, R2, R3, Hl'. auto.
  - exists (writePreamble s2). rewrite Hl'. auto.
Qed.


(** *** What the filter and [processEntry] read of the importer *)
Definition sameConfig (s s' : Importer) : Prop :=
  m_params s' = m_params s
  /\ m_ppMappings s' = m_ppMappings s
  /\ m_pepIndices s' = m_pepIndices s
  /\ m_mzIndices s' = m_mzIndices s
  /\ m_denoiser s' = m_denoiser s
  /\ m_singletonPeptideIons s' = m_singletonPeptideIons s
  /\ lib_preamble s' = lib_preamble s.

Lemma sameConfig_refl s : sameConfig s s.
Proof. repeat split. Qed.

Lemma sameConfig_trans s1 s2 s3 :
  sameConfig s1 s2 -> sameConfig s2 s3 -> sameConfig s1 s3.
Proof. unfold sameConfig. intuition congruence. Qed.

Lemma passAllFilters_config s s' e :
  sameConfig s s' -> passAllFilters s' e = passAllFilters s e.
Proof.
  intros (Hp & Hm & _). unfold passAllFilters. rewrite Hp, Hm. reflexivity.
Qed.

Lemma processEntry_config s s' e :
  sameConfig s s' -> processEntry s' e = processEntry s e.
Proof.
  intros (Hp & Hm & _). unfold processEntry. rewrite Hp, Hm. reflexivity.
Qed.

(** The entries that reach the output from a list of candidates. *)
Definition written (s : Importer) (entries : list Entry) : list Entry :=
  map (processEntry s) (List.filter (passAllFilters s) entries).

Lemma insertFiltered_config s e : sameConfig s (insertFiltered s e).
Proof.
  unfold insertFiltered. destruct (passAllFilters s e); repeat split.
Qed.

Lemma fold_insertFiltered entries : forall s,
  sameConfig s (fold_left insertFiltered entries s)
  /\ lib_entries (fold_left insertFiltered entries s)
     = lib_entries s ++ written s entries.
Proof.
  unfold written.
  induction entries as [|e entries IH]; intros s; cbn [fold_left].
  - split; [apply sameConfig_refl|]. cbn. rewrite app_nil_r. reflexivity.
  - destruct (IH (insertFiltered s e)) as (Hc & He).
    pose proof (insertFiltered_config s e) as Hc1.
    split; [eapply sameConfig_trans; eauto|]. rewrite He.
    rewrite (filter_ext _ _ (fun x => passAllFilters_config _ _ x Hc1)).
    rewrite (map_ext _ _ (fun x => processEntry_config _ _ x Hc1)).
    unfold insertFiltered. cbn [List.filter].
    destruct (passAllFilters s e); cbn; [rewrite <- app_assoc|]; reflexivity.
Qed.


(** *** UNION of a library with a copy of itself *)

(** The peptide ions of an index, in index order, with their entries. *)
Definition peptideIons (idx : PepIndex) : list (string * string * list Entry) :=
  flat_map (fun ps => map (fun ke => (fst ps, fst ke, snd ke)) (snd ps)) idx.

(** An index lists each peptide once, and each subkey once per peptide. *)
Definition wfIndex (idx : PepIndex) : Prop :=
  NoDup (map fst idx) /\ Forall (fun ps => NoDup (map fst (snd ps))) idx.

(** The output index files a written entry under the peptide ion it was
    retrieved by. *)
Definition keyStable (p : Params) (idx : PepIndex) : Prop :=
  forall s peptide sks k es e,
    m_params s = p -> In (peptide, sks) idx -> In (k, es) sks -> In e es ->
    entryKey (processEntry s e) = (peptide, k).

Lemma assoc_flat_map {V W : Type} (f : V -> list W) (l : list (string * V)) k v :
  NoDup (map fst l) -> In (k, v) l ->
  flat_map (fun kv => if String.eqb (fst kv) k then f (snd kv) else []) l = f v.
Proof.
  induction l as [|[k' v'] l IH]; intros Hnd Hin; [destruct Hin|].
  cbn in Hnd |- *. apply NoDup_cons in Hnd as [Hni Hnd].
  destruct Hin as [Heq|Hin].
  - injection Heq as -> ->. rewrite String.eqb_refl.
    assert (flat_map (fun kv => if String.eqb (fst kv) k then f (snd kv) else []) l = [])
      as ->; [|apply app_nil_r].
    clear IH Hnd. induction l as [|[k2 v2] l IH]; [reflexivity|]. cbn.
    destruct (String.eqb_spec k2 k) as [->|].
    + exfalso. apply Hni. cbn. left.
    + apply IH. intros Hin. apply Hni. cbn. right. exact Hin.
  - destruct (String.eqb_spec k' k) as [->|].
    + exfalso. apply Hni. apply list_elem_of_In, in_map_iff. exists (k, v). auto.
    + cbn. apply IH; auto.
Qed.

Lemma retrieve_wf idx peptide sks k es :
  wfIndex idx -> In (peptide, sks) idx -> In (k, es) sks ->
  retrieve idx peptide k = es.
Proof.
  intros [Hnd Hsub] Hp Hk. unfold retrieve, lookupSubkeys.
  rewrite (assoc_flat_map (fun x => x) idx peptide sks Hnd Hp).
  rewrite Forall_forall in Hsub.
  apply (assoc_flat_map (fun x => x) sks k es); auto.
  apply (Hsub (peptide, sks)). apply list_elem_of_In. exact Hp.
Qed.


Lemma written_config s s' l : sameConfig s s' -> written s' l = written s l.
Proof.
  intros H. unfold written.
  rewrite (filter_ext _ _ (fun x => passAllFilters_config _ _ x H)).
  apply map_ext. intros x. apply processEntry_config. exact H.
Qed.

Lemma written_app s l1 l2 : written s (l1 ++ l2) = written s l1 ++ written s l2.
Proof. unfold written. rewrite List.filter_app, map_app. reflexivity. Qed.

Lemma written_flat_map {B : Type} s (g : B -> list Entry) (l : list B) :
  written s (flat_map g l) = flat_map (fun b => written s (g b)) l.
Proof.
  induction l as [|b l IH]; [reflexivity|].
  cbn [flat_map]. rewrite written_app, IH. reflexivity.
Qed.

Lemma filter_none {A : Type} (f : A -> bool) (l : list A) :
  (forall x, In x l -> f x = false) -> List.filter f l = [].
Proof.
  induction l as [|x l IH]; intros H; [reflexivity|]. cbn.
  rewrite (H x (or_introl eq_refl)). apply IH. intros y Hy. apply H. right. exact Hy.
Qed.

Lemma flat_map_ext_In {A B : Type} (f g : A -> list B) (l : list A) :
  (forall x, In x l -> f x = g x) -> flat_map f l = flat_map g l.
Proof.
  induction l as [|x l IH]; intros H; [reflexivity|]. cbn.
  rewrite (H x (or_introl eq_refl)), IH; [reflexivity|].
  intros y Hy. apply H. right. exact Hy.
Qed.

Lemma flat_map_flat_map {A B D : Type} (f : B -> list D) (g : A -> list B)
    (l : list A) :
  flat_map f (flat_map g l) = flat_map (fun x => flat_map f (g x)) l.
Proof.
  induction l as [|x l IH]; [reflexivity|]. cbn.
  rewrite flat_map_app, IH. reflexivity.
Qed.

Lemma flat_map_map {A B D : Type} (f : B -> list D) (g : A -> B) (l : list A) :
  flat_map f (map g l) = flat_map (fun x => f (g x)) l.
Proof. induction l as [|x l IH]; [reflexivity|]. cbn. rewrite IH. reflexivity. Qed.

Lemma foldM_written {B : Type} (Inv : Importer -> Prop)
    (f : Importer -> B -> Outcome Importer) (g : B -> list Entry) (l : list B) :
  (forall s s', sameConfig s s' -> Inv s -> Inv s') ->
  (forall s b, In b l -> Inv s ->
     exists s', f s b = Done s' /\ sameConfig s s'
                /\ lib_entries s' = lib_entries s ++ written s (g b)) ->
  forall s, Inv s ->
    exists s', foldM f l s = Done s' /\ sameConfig s s'
               /\ lib_entries s' = lib_entries s
                                   ++ flat_map (fun b => written s (g b)) l.
Proof.
  intros Hinv. induction l as [|b l IH]; intros Hf s Hs; cbn.
  - exists s. split; [reflexivity|]. split; [apply sameConfig_refl|].
    rewrite app_nil_r. reflexivity.
  - destruct (Hf s b (or_introl eq_refl) Hs) as (s1 & -> & Hc1 & He1). cbn.
    destruct (IH (fun s b Hb => Hf s b (or_intror Hb)) s1 (Hinv _ _ Hc1 Hs))
      as (s2 & -> & Hc2 & He2).
    exists s2. split; [reflexivity|]. split; [eapply sameConfig_trans; eauto|].
    rewrite He2, He1, <- app_assoc. f_equal. f_equal.
    apply flat_map_ext. intros x. apply written_config. exact Hc1.
Qed.

Section UnionSelf.
Variables (p : Params) (idx : PepIndex).
Hypothesis Hcombine : combineAction p = "UNION".
Hypothesis Hbuild : buildAction p = EmptyString.

Definition unionState (s : Importer) : Prop :=
  m_params s = p /\ m_pepIndices s = [Some idx; Some idx].

Lemma unionState_config s s' : sameConfig s s' -> unionState s -> unionState s'.
Proof. unfold sameConfig, unionState. intuition congruence. Qed.

Definition twice (peptide k : string) : list Entry :=
  retrieve idx peptide k ++ retrieve idx peptide k.

Lemma union_included s cur peptide k :
  unionState s -> includeKey s cur peptide k = true ->
  exists s', importSubkey cur peptide s k = Done s' /\ sameConfig s s'
             /\ lib_entries s' = lib_entries s ++ written s (twice peptide k).
Proof.
  intros [Hp Hi] Hinc. unfold importSubkey. rewrite Hinc.
  cbn [incCount m_params m_pepIndices]. rewrite Hp, Hi.
  assert (retrieveAll p [Some idx; Some idx] peptide k [] = twice peptide k)
    as ->.
  { unfold retrieveAll. rewrite Hcombine. reflexivity. }
  unfold doBuildAction. cbn [incCount m_params]. rewrite Hp, Hbuild.
  cbn [String.eqb].
  destruct (fold_insertFiltered (twice peptide k) (incCount s)) as (Hc & He).
  eexists. split; [reflexivity|]. split.
  - eapply sameConfig_trans; [|exact Hc]. repeat split.
  - rewrite He. reflexivity.
Qed.

Lemma union_pass0_subkey s peptide k :
  unionState s ->
  exists s', importSubkey 0 peptide s k = Done s' /\ sameConfig s s'
             /\ lib_entries s' = lib_entries s ++ written s (twice peptide k).
Proof.
  intros Hs. apply union_included; [exact Hs|].
  destruct Hs as [Hp _]. unfold includeKey, isUnionLike.
  rewrite Hp, Hcombine. reflexivity.
Qed.

Lemma union_pass0 s :
  unionState s ->
  exists s', importPass s 0 = Done s' /\ sameConfig s s'
    /\ lib_entries s' =
       lib_entries s
       ++ flat_map (fun ps => flat_map (fun k => written s (twice (fst ps) k))
                                       (map fst (snd ps))) idx.
Proof.
  intros Hs. unfold importPass. destruct Hs as [Hp Hi]. rewrite Hi. cbn [nth].
  assert (unionState s) as Hs by (split; assumption).
  destruct (foldM_written unionState (importPeptide 0)
              (fun ps => flat_map (fun k => twice (fst ps) k) (map fst (snd ps)))
              idx unionState_config) with (s := s)
    as (s' & Hf & Hc & He); [|exact Hs|].
  - intros s0 ps _ Hs0. unfold importPeptide.
    destruct (foldM_written unionState (importSubkey 0 (fst ps))
                (fun k => twice (fst ps) k) (map fst (snd ps))
                unionState_config) with (s := s0)
      as (s1 & Hf1 & Hc1 & He1); [|exact Hs0|].
    + intros s2 k _ Hs2. apply union_pass0_subkey. exact Hs2.
    + exists s1. split; [exact Hf1|]. split; [exact Hc1|]. rewrite He1.
      f_equal. symmetry. apply written_flat_map.
  - exists s'. split; [exact Hf|]. split; [exact Hc|]. rewrite He. f_equal.
    apply flat_map_ext. intros ps. apply written_flat_map.
Qed.

Lemma retrieve_In idx0 peptide k e :
  In e (retrieve idx0 peptide k) ->
  exists sks es, In (peptide, sks) idx0 /\ In (k, es) sks /\ In e es.
Proof.
  unfold retrieve, lookupSubkeys. intros H.
  apply in_flat_map in H as ([k' es] & Hl & He). cbn in He.
  destruct (String.eqb_spec k' k) as [->|]; [|destruct He].
  apply in_flat_map in Hl as ([p' sks] & Hi & Hs). cbn in Hs.
  destruct (String.eqb_spec p' peptide) as [->|]; [|destruct Hs].
  eauto.
Qed.

(** Every entry of the index that passes the filters has its peptide ion
    in the index of the output. *)
Definition covered (s : Importer) : Prop :=
  forall peptide k e,
    In e (retrieve idx peptide k) -> passAllFilters s e = true ->
    libIsInIndex s peptide k = true.

Lemma covered_config s s' :
  sameConfig s s' -> lib_entries s' = lib_entries s -> covered s -> covered s'.
Proof.
  intros Hc He Hcov peptide k e Hin Hp. unfold libIsInIndex. rewrite He.
  apply Hcov with e; [exact Hin|]. rewrite <- Hp. symmetry.
  apply passAllFilters_config. exact Hc.
Qed.

Lemma union_pass1_subkey s peptide k :
  unionState s -> covered s ->
  exists s', importSubkey 1 peptide s k = Done s' /\ sameConfig s s'
             /\ lib_entries s' = lib_entries s.
Proof.
  intros Hs Hcov. destruct (includeKey s 1 peptide k) eqn:Hinc.
  - destruct (union_included s 1%nat peptide k Hs Hinc) as (s' & Hf & Hc & He).
    exists s'. split; [exact Hf|]. split; [exact Hc|]. rewrite He.
    assert (written s (twice peptide k) = []) as ->; [|apply app_nil_r].
    unfold includeKey, isUnionLike in Hinc. destruct Hs as [Hp _].
    rewrite Hp, Hcombine in Hinc. cbn in Hinc.
    apply negb_true_iff in Hinc.
    unfold written, twice. rewrite List.filter_app.
    assert (List.filter (passAllFilters s) (retrieve idx peptide k) = []) as ->;
      [|reflexivity].
    apply filter_none. intros e Hin.
    destruct (passAllFilters s e) eqn:Hpass; [|reflexivity].
    rewrite (Hcov peptide k e Hin Hpass) in Hinc. discriminate.
  - unfold importSubkey. rewrite Hinc. exists s.
    split; [reflexivity|]. split; [apply sameConfig_refl|reflexivity].
Qed.

Lemma foldM_unchanged {B : Type} (Inv : Importer -> Prop)
    (f : Importer -> B -> Outcome Importer) (l : list B) :
  (forall s s', sameConfig s s' -> lib_entries s' = lib_entries s ->
                Inv s -> Inv s') ->
  (forall s b, Inv s ->
     exists s', f s b = Done s' /\ sameConfig s s'
                /\ lib_entries s' = lib_entries s) ->
  forall s, Inv s ->
    exists s', foldM f l s = Done s' /\ sameConfig s s'
               /\ lib_entries s' = lib_entries s.
Proof.
  intros Hinv Hf. induction l as [|b l IH]; intros s Hs; cbn.
  - exists s. split; [reflexivity|]. split; [apply sameConfig_refl|reflexivity].
  - destruct (Hf s b Hs) as (s1 & -> & Hc1 & He1). cbn.
    destruct (IH s1 (Hinv _ _ Hc1 He1 Hs)) as (s2 & -> & Hc2 & He2).
    exists s2. split; [reflexivity|]. split; [eapply sameConfig_trans; eauto|].
    congruence.
Qed.

Lemma union_pass1 s :
  unionState s -> covered s ->
  exists s', importPass s 1 = Done s' /\ sameConfig s s'
             /\ lib_entries s' = lib_entries s.
Proof.
  intros Hs Hcov. unfold importPass. destruct Hs as [Hp Hi]. rewrite Hi.
  cbn [nth].
  assert (forall s s', sameConfig s s' -> lib_entries s' = lib_entries s ->
            unionState s /\ covered s -> unionState s' /\ covered s') as Hinv.
  { intros s0 s1 Hc He [H1 H2]. split;
      [eapply unionState_config|eapply covered_config]; eauto. }
  apply (foldM_unchanged (fun s => unionState s /\ covered s)); auto.
  - intros s0 ps Hs0. unfold importPeptide.
    apply (foldM_unchanged (fun s => unionState s /\ covered s)); auto.
    intros s1 k [H1 H2]. apply union_pass1_subkey; assumption.
  - split; [split|]; assumption.
Qed.

(** After the first pass from an empty output, every peptide ion of the
    index with an entry that passes the filters is in the output index. *)
Lemma covered_after_pass0 s s' :
  keyStable p idx -> unionState s -> sameConfig s s' ->
  lib_entries s' =
    flat_map (fun ps => flat_map (fun k => written s (twice (fst ps) k))
                                 (map fst (snd ps))) idx ->
  covered s'.
Proof.
  intros Hkey [Hp _] Hc He peptide k e Hin Hpass.
  rewrite (passAllFilters_config _ _ e Hc) in Hpass.
  destruct (retrieve_In idx peptide k e Hin) as (sks & es & Hi & Hk & Hes).
  unfold libIsInIndex. apply existsb_exists. exists (processEntry s e). split.
  - rewrite He. apply in_flat_map. exists (peptide, sks). split; [exact Hi|].
    apply in_flat_map. exists k. split.
    + apply in_map_iff. exists (k, es). auto.
    + unfold written, twice. cbn [fst]. apply in_map. apply filter_In.
      split; [|exact Hpass]. apply in_or_app. left. exact Hin.
  - rewrite (Hkey s peptide sks k es e Hp Hi Hk Hes). cbn.
    rewrite !String.eqb_refl. reflexivity.
Qed.


End UnionSelf.


(** C4 (as amended). UNION of a library with an identical copy of itself,
    with no build action, does not give the library back. The output is,
    for each peptide ion of the library in the order of its peptide index,
    the entries of the ion followed by the same entries again, as far as
    they pass the filters and as [processEntry] leaves them: every entry
    that passes is written twice, only a build action reduces the entries
    of an ion. This is for an index that lists each peptide once and each
    of its subkeys once ([wfIndex]), and for parameters under which the
    output index files a written entry under the peptide ion it was
    retrieved by ([keyStable]). A fragmentation override breaks the second
    condition; the ions are then found missing in the second pass too and
    written again. *)
Theorem C4_union_with_itself_writes_each_entry_twice fA fB libA libB p :
  content fA = Some libA -> content fB = Some libB ->
  pepidx libB = pepidx libA ->
  combineAction p = "UNION" -> buildAction p = EmptyString ->
  wfIndex (pepidx libA) -> keyStable p (pepidx libA) ->
  exists s',
    run [fA; fB] p = Done s'
    /\ lib_entries s' =
       flat_map (fun ion => written s' (snd ion ++ snd ion))
                (peptideIons (pepidx libA)).
Proof.
  intros HA HB Hidx Hcomb Hbuild Hwf Hkey.
  set (idx := pepidx libA) in *.
  unfold run, import. cbn [m_params construct]. rewrite Hcomb, Hbuild.
  cbn [String.eqb Ascii.eqb Bool.eqb andb].
  set (s1 := putDescription (construct [fA; fB] p)).
  set (s2 := openSplibs false true false true s1).
  pose proof (openSplibs_stores false true false true [fA; fB] s1) as Hst.
  cbv zeta in Hst.
  change (fold_left (openOne false true false true) [fA; fB] s1) with s2 in Hst.
  destruct Hst as (Hpi & _ & _ & Hpar & Hent & _ & Hsing & _).
  change (m_pepIndices s1) with (@nil (option PepIndex)) in Hpi.
  change (m_params s1) with p in Hpi, Hpar.
  change (lib_entries s1) with (@nil Entry) in Hent.
  change (m_singletonPeptideIons s1) with (@nil (string * string)) in Hsing.
  clearbody s2. clear s1.
  cbn [map app] in Hpi. unfold pepIndexOf in Hpi. rewrite HA, HB, Hidx in Hpi.
  cbn [orb andb] in Hpi. fold idx in Hpi.
  set (s3 := if nonEmpty (refreshDatabase p)
             then refresh (writePreamble s2) else writePreamble s2).
  assert (unionState p idx s3 /\ lib_entries s3 = []
          /\ m_singletonPeptideIons s3 = []) as (Hs3 & He3 & Hsi3).
  { assert (unionState p idx (writePreamble s2)
            /\ lib_entries (writePreamble s2) = []
            /\ m_singletonPeptideIons (writePreamble s2) = []) as Hw.
    { unfold unionState. cbn [writePreamble m_params m_pepIndices lib_entries
                              m_singletonPeptideIons].
      rewrite Hpi, Hpar, Hent, Hsing. auto. }
    unfold s3. destruct (nonEmpty _); [|exact Hw].
    destruct (refresh_keeps (writePreamble s2)) as (R1 & R2 & R3 & R4).
    unfold unionState. rewrite R1, R2, R3, R4. exact Hw. }
  change (nth 0 (m_pepIndices s3) None) with (nth 0 (m_pepIndices s3) None).
  destruct Hs3 as [Hp3 Hi3]. rewrite Hi3. cbn [nth].
  assert (unionState p idx s3) as Hs3 by (split; assumption).
  unfold importPasses, isUnionLike. rewrite Hp3, Hcomb, Hi3.
  cbn [String.eqb Ascii.eqb Bool.eqb orb length seq foldM].
  destruct (union_pass0 p idx Hcomb Hbuild s3 Hs3) as (s4 & -> & Hc4 & He4).
  cbn.
  rewrite He3 in He4. cbn [app] in He4.
  pose proof (covered_after_pass0 p idx s3 s4 Hkey Hs3 Hc4 He4) as Hcov.
  destruct (union_pass1 p idx Hcomb Hbuild s4
              (unionState_config p idx _ _ Hc4 Hs3) Hcov)
    as (s5 & -> & Hc5 & He5).
  cbn.
  assert (sameConfig s3 s5) as Hc35 by (eapply sameConfig_trans; eauto).
  assert (m_singletonPeptideIons s5 = []) as Hs5.
  { destruct Hc35 as (_ & _ & _ & _ & _ & -> & _). exact Hsi3. }
  exists s5. split.
  { destruct (m_denoiser s5); [rewrite Hs5|]; reflexivity. }
  rewrite He5, He4. unfold peptideIons.
  rewrite flat_map_flat_map.
  apply flat_map_ext_In. intros [peptide sks] Hin. cbn [fst snd].
  rewrite !flat_map_map.
  apply flat_map_ext_In. intros [k es] Hk. cbn [fst snd].
  unfold twice. rewrite (retrieve_wf idx peptide sks k es Hwf Hin Hk).
  symmetry. apply written_config. exact Hc35.
Qed.


(** *** SUBTRACT_HOMOLOGS *)

(** In the words of the specification: an entry of another input, within
    4.5 m/z of the precursor, that carries the identical peptide, or a
    peptide at the same charge with sequence identity at least 0.7. *)
Definition sameOrHomolog (pep : Peptide) (charge_ : Z) (en : Entry) : bool :=
  match peptidePtr en with
  | Some thisPep =>
    peptideEq pep thisPep
    || ((charge_ =? charge en) && fst (isHomolog pep thisPep (7 # 10)))
  | None => false
  end.

Definition within45 (mz : double) (en : Entry) : bool :=
  Qle_bool (mz - (45 # 10))%Q (precursorMz en)
  && Qle_bool (precursorMz en) (mz + (45 # 10))%Q.

Definition hasHomologIn (others : list InputFile) (entry : Entry) : bool :=
  match peptidePtr entry with
  | None => false
  | Some pep =>
    existsb (fun f =>
      match content f with
      | Some lib =>
        existsb (fun en => within45 (precursorMz entry) en
                           && sameOrHomolog pep (charge entry) en)
                (mzidx lib)
      | None => false
      end) others
  end.

Definition survivesSubtraction (others : list InputFile) (entry : Entry)
  : bool :=
  bool_decide (is_Some (peptidePtr entry)) && negb (hasHomologIn others entry).

Lemma findHomolog_None pep mz ch l :
  findHomolog pep mz ch l = None <-> existsb (sameOrHomolog pep ch) l = false.
Proof.
  induction l as [|en l IH]; cbn; [tauto|]. unfold sameOrHomolog at 1.
  destruct (peptidePtr en) as [thisPep|]; [|exact IH].
  destruct (peptideEq pep thisPep); cbn; [split; discriminate|].
  destruct ((ch =? charge en) && _); cbn; [split; discriminate|exact IH].
Qed.

Lemma existsb_filter {A : Type} (f g : A -> bool) (l : list A) :
  existsb f (List.filter g l) = existsb (fun x => g x && f x) l.
Proof.
  induction l as [|x l IH]; [reflexivity|]. cbn.
  destruct (g x); cbn; rewrite IH; reflexivity.
Qed.

Lemma searchOthers_None pep mz ch others :
  searchOthers pep mz ch (map (mzIndexOf true) others) = None
  <-> existsb (fun f =>
        match content f with
        | Some lib =>
          existsb (fun en => within45 mz en && sameOrHomolog pep ch en)
                  (mzidx lib)
        | None => false
        end) others = false.
Proof.
  induction others as [|f others IH]; cbn; [tauto|].
  unfold mzIndexOf at 1. destruct (content f) as [lib|]; cbn; [|exact IH].
  destruct (findHomolog pep mz ch _) eqn:E.
  - assert (existsb (fun en => within45 mz en && sameOrHomolog pep ch en)
                    (mzidx lib) = true) as ->; [|split; discriminate].
    unfold retrieveMz in E. destruct (existsb _ (mzidx lib)) eqn:E2; [reflexivity|].
    rewrite <- existsb_filter in E2.
    apply (proj2 (findHomolog_None pep mz ch _)) in E2.
    unfold within45 in E2. congruence.
  - apply (proj1 (findHomolog_None pep mz ch _)) in E. unfold retrieveMz in E.
    rewrite existsb_filter in E. unfold within45. rewrite E. exact IH.
Qed.

Lemma subtractStep_written others first s entry :
  m_mzIndices s = first :: map (mzIndexOf true) others ->
  sameConfig s (subtractStep s entry)
  /\ lib_entries (subtractStep s entry) =
     lib_entries s
     ++ written s (List.filter (survivesSubtraction others) [entry]).
Proof.
  intros Hm. unfold subtractStep, survivesSubtraction, hasHomologIn, written.
  cbn [List.filter]. destruct (peptidePtr entry) as [pep|]; cbn [bool_decide].
  2:{ rewrite bool_decide_false by (intros [? ?]; discriminate). cbn.
      rewrite app_nil_r. split; [apply sameConfig_refl|reflexivity]. }
  rewrite bool_decide_true by eauto. rewrite Hm. cbn [tl andb].
  destruct (searchOthers pep (precursorMz entry) (charge entry) _) eqn:E.
  - assert (existsb _ others = true) as ->.
    { destruct (existsb _ others) eqn:E2; [reflexivity|].
      apply (proj2 (searchOthers_None _ _ _ _)) in E2. congruence. }
    cbn. rewrite app_nil_r. split; [repeat split|reflexivity].
  - apply (proj1 (searchOthers_None _ _ _ _)) in E. rewrite E. cbn [negb].
    unfold insertFiltered. cbn [List.filter andb].
    change (passAllFilters (incCount s) entry) with (passAllFilters s entry).
    destruct (passAllFilters s entry); cbn.
    + split; [repeat split|reflexivity].
    + rewrite app_nil_r. split; [repeat split|reflexivity].
Qed.

Lemma fold_subtractStep others first l : forall s,
  m_mzIndices s = first :: map (mzIndexOf true) others ->
  sameConfig s (fold_left subtractStep l s)
  /\ lib_entries (fold_left subtractStep l s) =
     lib_entries s ++ written s (List.filter (survivesSubtraction others) l).
Proof.
  induction l as [|e l IH]; intros s Hm; cbn [fold_left].
  - cbn. rewrite app_nil_r. split; [apply sameConfig_refl|reflexivity].
  - destruct (subtractStep_written others first s e Hm) as (Hc1 & He1).
    destruct (IH (subtractStep s e)) as (Hc2 & He2).
    { destruct Hc1 as (_ & _ & _ & -> & _). exact Hm. }
    split; [eapply sameConfig_trans; eauto|].
    rewrite He2, He1, <- app_assoc. f_equal.
    rewrite (written_config _ _ _ Hc1), <- written_app. f_equal.
    symmetry. apply (List.filter_app _ [e] l).
Qed.

(** C7 (as amended). Under SUBTRACT_HOMOLOGS the entries of input 1 are
    taken in the order of its mass index. An entry that has no peptide is
    skipped. An entry with a peptide is dropped exactly when some other
    input that could be opened holds, within 4.5 m/z of its precursor, an
    entry with the identical peptide or with a peptide at the same charge
    whose sequence identity is at least 0.7. The remaining entries are
    written directly, those that pass the filters, with no build action. *)
Theorem C7_subtract_homologs f1 others lib1 p :
  content f1 = Some lib1 ->
  combineAction p = "SUBTRACT_HOMOLOGS" -> buildAction p = EmptyString ->
  exists s',
    run (f1 :: others) p = Done s'
    /\ lib_entries s' =
       written s' (List.filter (survivesSubtraction others) (mzidx lib1)).
Proof.
  intros H1 Hcomb Hbuild. unfold run, import. cbn [m_params construct].
  rewrite Hcomb, Hbuild. cbn [String.eqb Ascii.eqb Bool.eqb andb nonEmpty negb].
  set (s1 := putDescription (construct (f1 :: others) p)).
  unfold doSubtractHomologs.
  pose proof (openSplibs_stores true false false true (f1 :: others) s1) as Hst.
  cbv zeta in Hst.
  change (fold_left (openOne true false false true) (f1 :: others) s1)
    with (openSplibs true false false true s1) in Hst.
  set (s2 := openSplibs true false false true s1) in *.
  destruct Hst as (_ & Hmz & _ & _ & Hent & _).
  change (m_mzIndices s1) with (@nil (option MzIndex)) in Hmz.
  change (lib_entries s1) with (@nil Entry) in Hent.
  clearbody s2. clear s1.
  cbn [map app] in Hmz. unfold mzIndexOf at 1 in Hmz. rewrite H1 in Hmz.
  cbn [writePreamble m_mzIndices]. rewrite Hmz. cbn [nth].
  destruct (fold_subtractStep others (Some (mzidx lib1)) (mzidx lib1)
              (writePreamble s2) Hmz) as (Hc & He).
  eexists. split; [reflexivity|]. rewrite He.
  cbn [writePreamble lib_entries]. rewrite Hent. cbn [app].
  symmetry. apply written_config. exact Hc.
Qed.

(** *** Similarity clustering: what a direct comparison decides *)

(** The threshold of a round: the configured minimum dot, relaxed by 0.5
    for each round. *)
Definition roundThreshold (p : Params) (round : Z) : double :=
  (unidentifiedClusterMinimumDot p - inject_Z round * (5 # 10))%Q.

Definition comparisonOK (p : Params) (c : Comparison) : Prop :=
  0 <= cmp_round c <= 2
  /\ cmp_joined c = dge (cmp_dot c) (roundThreshold p (cmp_round c)).

(** A comparison is settled in a cluster: it was made in a round from 0
    to 2 and decided by the threshold of the round, it compared two
    different entries, and if it joined them both are in the cluster. *)
Definition settledIn (p : Params) (cl : gset Z) (c : Comparison) : Prop :=
  comparisonOK p c
  /\ cmp_entry c <> cmp_other c
  /\ (cmp_joined c = true -> cmp_entry c ∈ cl /\ cmp_other c ∈ cl).

(** The entries stay at their file offsets and the cluster only grows. *)
Definition extends (st st' : Clustering) : Prop :=
  cl_cluster st ⊆ cl_cluster st'
  /\ forall r, libFileOffset (derefEntry st' r) = libFileOffset (derefEntry st r).

Definition entryIn (st : Clustering) (r : EntryRef) : Prop :=
  libFileOffset (derefEntry st r) ∈ cl_cluster st.

Lemma settledIn_mono p cl cl' c :
  cl ⊆ cl' -> settledIn p cl c -> settledIn p cl' c.
Proof.
  intros Hsub (H1 & H2 & H3). split; [exact H1|]. split; [exact H2|].
  intros Hj. destruct (H3 Hj). split; apply Hsub; assumption.
Qed.

Lemma extends_refl st : extends st st.
Proof. split; [reflexivity|auto]. Qed.

Lemma extends_trans st1 st2 st3 :
  extends st1 st2 -> extends st2 st3 -> extends st1 st3.
Proof.
  intros [A1 B1] [A2 B2]. split; [etransitivity; eauto|].
  intros r. rewrite B2. apply B1.
Qed.

Lemma entryIn_extends st st' r : extends st st' -> entryIn st r -> entryIn st' r.
Proof. intros [A B] H. unfold entryIn. rewrite B. apply A. exact H. Qed.

Lemma heap_offset_simplify (l : list Entry) a b :
  libFileOffset (alter simplifyEntry a l !!! b) = libFileOffset (l !!! b).
Proof.
  rewrite !list_lookup_total_alt, list_lookup_alter.
  destruct (decide (a = b)) as [->|]; destruct (l !! b); reflexivity.
Qed.

Lemma simplifyRef_offset r r' st :
  libFileOffset (derefEntry (simplifyRef r st) r')
  = libFileOffset (derefEntry st r').
Proof.
  destruct r as [|a], r' as [|b]; cbn; try reflexivity.
  apply heap_offset_simplify.
Qed.

Lemma extends_simplify r st : extends st (simplifyRef r st).
Proof.
  split; [destruct r; reflexivity|]. intros r'. apply simplifyRef_offset.
Qed.

Lemma extends_null k st : extends st (nullSlot k st).
Proof. split; [reflexivity|]. intros [|a]; reflexivity. Qed.

(** What the body of the loop does where it compares: the comparison is
    recorded, and the compared entry is inserted into the cluster exactly
    when the dot product reaches the threshold of the round. *)
Lemma scanOne_compares p entry round lo hi sc k a :
  cl_slots (sc_st sc) !! k = Some (Some a) ->
  libFileOffset (cl_heap (sc_st sc) !!! a) ∉ cl_cluster (sc_st sc) ->
  dlt (precursorMz (cl_heap (sc_st sc) !!! a)) lo
  || dgt (precursorMz (cl_heap (sc_st sc) !!! a)) hi = false ->
  let other := libFileOffset (cl_heap (sc_st sc) !!! a) in
  let st1 := simplifyRef (HeapEntry a) (sc_st sc) in
  let dot := compare (peakList (derefEntry st1 entry))
                     (peakList (derefEntry st1 (HeapEntry a))) in
  let joined := dge dot (roundThreshold p round) in
  let st' := sc_st (scanOne p entry round lo hi sc k) in
  cl_cluster st'
  = (if joined then {[ other ]} ∪ cl_cluster (sc_st sc)
     else cl_cluster (sc_st sc))
  /\ cl_trace st'
     = cl_trace (sc_st sc)
       ++ [{| cmp_entry := libFileOffset (derefEntry st1 entry);
              cmp_other := other; cmp_round := round; cmp_dot := dot;
              cmp_joined := joined |}]
  /\ hits (scanOne p entry round lo hi sc k)
     = (if joined then hits sc ++ [a] else hits sc).
Proof.
  intros Hk Hout Hwin. cbv zeta. unfold scanOne. rewrite Hk.
  rewrite bool_decide_eq_false_2 by exact Hout. rewrite Hwin.
  unfold roundThreshold.
  destruct (dge _ _); [cbn; auto|].
  destruct (dlt _ (3 # 10)); cbn; auto.
Qed.

(** Where it does not compare, it leaves the cluster and the record of
    the comparisons as they are. *)
Lemma scanOne_skips p entry round lo hi sc k :
  (forall a, cl_slots (sc_st sc) !! k = Some (Some a) ->
             libFileOffset (cl_heap (sc_st sc) !!! a) ∈ cl_cluster (sc_st sc)
             \/ dlt (precursorMz (cl_heap (sc_st sc) !!! a)) lo
                || dgt (precursorMz (cl_heap (sc_st sc) !!! a)) hi = true) ->
  cl_cluster (sc_st (scanOne p entry round lo hi sc k)) = cl_cluster (sc_st sc)
  /\ cl_trace (sc_st (scanOne p entry round lo hi sc k)) = cl_trace (sc_st sc)
  /\ hits (scanOne p entry round lo hi sc k) = hits sc.
Proof.
  intros H. unfold scanOne.
  destruct (cl_slots (sc_st sc) !! k) as [[a|]|]; auto.
  destruct (bool_decide_reflect
              (libFileOffset (cl_heap (sc_st sc) !!! a) ∈ cl_cluster (sc_st sc)))
    as [Hin|Hout]; [cbn; auto|].
  destruct (H a eq_refl) as [Hin|Hw]; [contradiction|]. rewrite Hw. auto.
Qed.

(** The invariant of a scan: the comparisons so far are settled in the
    cluster, the entry the scan compares with is in the cluster, and so is
    every hit. *)
Definition scanOK (p : Params) (entry : EntryRef) (sc : Scan) : Prop :=
  Forall (settledIn p (cl_cluster (sc_st sc))) (cl_trace (sc_st sc))
  /\ entryIn (sc_st sc) entry
  /\ Forall (fun h => entryIn (sc_st sc) (HeapEntry h)) (hits sc).

Lemma scanOK_extends p entry sc sc' :
  extends (sc_st sc) (sc_st sc') -> cl_trace (sc_st sc') = cl_trace (sc_st sc) ->
  hits sc' = hits sc -> scanOK p entry sc -> scanOK p entry sc'.
Proof.
  intros He Ht Hh (H1 & H2 & H3). unfold scanOK. rewrite Ht, Hh.
  split; [|split].
  - eapply Forall_impl; [exact H1|]. intros c. apply settledIn_mono, He.
  - eapply entryIn_extends; eauto.
  - eapply Forall_impl; [exact H3|]. intros h. apply entryIn_extends, He.
Qed.

Lemma scanOne_scanOK p entry round lo hi sc k :
  0 <= round <= 2 ->
  scanOK p entry sc ->
  scanOK p entry (scanOne p entry round lo hi sc k)
  /\ extends (sc_st sc) (sc_st (scanOne p entry round lo hi sc k)).
Proof.
  intros Hr H.
  destruct (cl_slots (sc_st sc) !! k) as [[a|]|] eqn:Hk.
  2,3: unfold scanOne; rewrite Hk; split; [exact H|apply extends_refl].
  destruct (decide (libFileOffset (cl_heap (sc_st sc) !!! a)
                    ∈ cl_cluster (sc_st sc))) as [Hin|Hout].
  { unfold scanOne. rewrite Hk, bool_decide_eq_true_2 by exact Hin.
    split; [|apply extends_null].
    eapply scanOK_extends; [apply extends_null|reflexivity|reflexivity|exact H]. }
  destruct (dlt (precursorMz (cl_heap (sc_st sc) !!! a)) lo
            || dgt (precursorMz (cl_heap (sc_st sc) !!! a)) hi) eqn:Hw.
  { unfold scanOne. rewrite Hk, bool_decide_eq_false_2, Hw by exact Hout.
    split; [exact H|apply extends_refl]. }
  destruct (scanOne_compares p entry round lo hi sc k a Hk Hout Hw)
    as (Hc & Ht & Hh).
  cbv zeta in Hc, Ht, Hh.
  set (sc' := scanOne p entry round lo hi sc k) in *.
  assert (Hoff : forall r, libFileOffset (derefEntry (sc_st sc') r)
                           = libFileOffset (derefEntry (sc_st sc) r)).
  { intros r. unfold sc', scanOne. rewrite Hk, bool_decide_eq_false_2, Hw
      by exact Hout.
    destruct (dge _ _); [|destruct (dlt _ (3 # 10))]; cbn [sc_st];
      destruct r; cbn; try reflexivity; apply heap_offset_simplify. }
  assert (Hsub : cl_cluster (sc_st sc) ⊆ cl_cluster (sc_st sc')).
  { rewrite Hc. destruct (dge _ _); [apply union_subseteq_r|reflexivity]. }
  assert (He : extends (sc_st sc) (sc_st sc')) by (split; assumption).
  split; [|exact He].
  destruct H as (H1 & H2 & H3). unfold scanOK. rewrite Ht, Hh.
  split; [|split].
  - apply Forall_app. split.
    + eapply Forall_impl; [exact H1|]. intros c. apply settledIn_mono, Hsub.
    + constructor; [|constructor].
      split; [|split]; cbn [cmp_entry cmp_other cmp_joined].
      * split; [exact Hr|reflexivity].
      * rewrite simplifyRef_offset. intros E. apply Hout. rewrite <- E.
        exact H2.
      * intros Hj. rewrite Hc, Hj, simplifyRef_offset. split.
        -- apply elem_of_union_r. exact H2.
        -- apply elem_of_union_l, elem_of_singleton. reflexivity.
  - eapply entryIn_extends; eauto.
  - assert (Forall (fun h => entryIn (sc_st sc') (HeapEntry h)) (hits sc)) as H3'.
    { eapply Forall_impl; [exact H3|]. intros h. apply entryIn_extends, He. }
    destruct (dge _ _) eqn:Hj; [|exact H3'].
    apply Forall_app. split; [exact H3'|]. constructor; [|constructor].
    unfold entryIn. rewrite Hoff, Hc. cbn [derefEntry].
    apply elem_of_union_l, elem_of_singleton. reflexivity.
Qed.

Lemma fold_scanOne_scanOK p entry round lo hi ks : forall sc,
  0 <= round <= 2 ->
  scanOK p entry sc ->
  scanOK p entry (fold_left (scanOne p entry round lo hi) ks sc)
  /\ extends (sc_st sc) (sc_st (fold_left (scanOne p entry round lo hi) ks sc)).
Proof.
  induction ks as [|k ks IH]; intros sc Hr H; cbn [fold_left].
  - split; [exact H|apply extends_refl].
  - destruct (scanOne_scanOK p entry round lo hi sc k Hr H) as [H1 E1].
    destruct (IH _ Hr H1) as [H2 E2].
    split; [exact H2|eapply extends_trans; eauto].
Qed.

Lemma findSpectralNeighbors_settled p fuel : forall entry root round st,
  0 <= round <= 2 ->
  Forall (settledIn p (cl_cluster st)) (cl_trace st) ->
  entryIn st entry ->
  let st' := findSpectralNeighbors fuel p entry root round st in
  Forall (settledIn p (cl_cluster st')) (cl_trace st') /\ extends st st'.
Proof.
  induction fuel as [|fuel IH]; intros entry root round st Hr H Hin; cbv zeta.
  { split; [exact H|apply extends_refl]. }
  cbn [findSpectralNeighbors].
  match goal with
  | |- context [fold_left (scanOne ?p ?e ?r ?lo ?hi) ?ks ?sc0] =>
    pose proof (fold_scanOne_scanOK p e r lo hi ks sc0 Hr) as Hs;
      set (sc := fold_left (scanOne p e r lo hi) ks sc0) in *
  end.
  pose proof (extends_simplify entry st) as E0.
  destruct Hs as [(S1 & S2 & S3) E1].
  { split; [|split]; cbn [sc_st hits].
    - destruct entry; exact H.
    - eapply entryIn_extends; eauto.
    - constructor. }
  cbn [sc_st] in E1.
  assert (E01 : extends st (sc_st sc)) by (eapply extends_trans; eauto).
  clearbody sc. clear E0 E1.
  destruct (2 <=? round) eqn:E; [split; assumption|].
  apply Z.leb_gt in E.
  revert S1 S3 E01. generalize (sc_st sc). 
  induction (hits sc) as [|h hs IHh]; intros st1 S1 S3 E01; cbn [fold_left].
  - split; assumption.
  - apply Forall_cons in S3 as [Hh S3].
    match goal with
    | |- context [findSpectralNeighbors fuel p (HeapEntry h) ?m (round + 1) st1] =>
      destruct (IH (HeapEntry h) m (round + 1) st1 ltac:(lia) S1 Hh) as [T1 T2]
    end.
    apply IHh; [exact T1| |eapply extends_trans; eauto].
    eapply Forall_impl; [exact S3|]. intros h'. apply entryIn_extends, T2.
Qed.

(** The same for a run of the first loop: a comparison that joined has
    both its entries in one of the clusters of the run. *)
Definition settledAmong (p : Params) (cls : list (gset Z)) (c : Comparison)
  : Prop :=
  comparisonOK p c
  /\ cmp_entry c <> cmp_other c
  /\ (cmp_joined c = true ->
      exists cl, In cl cls /\ cmp_entry c ∈ cl /\ cmp_other c ∈ cl).

Lemma settledAmong_mono p cls cls' c :
  (forall cl, In cl cls -> In cl cls') ->
  settledAmong p cls c -> settledAmong p cls' c.
Proof.
  intros Hsub (H1 & H2 & H3). split; [exact H1|]. split; [exact H2|].
  intros Hj. destruct (H3 Hj) as (cl & Hcl & Hx). exists cl. auto.
Qed.

Lemma clusterStep_settled p mzIndex r entry :
  m_params (cr_imp r) = p ->
  Forall (settledAmong p (multiclusters r)) (cr_trace r) ->
  m_params (cr_imp (clusterStep mzIndex r entry)) = p
  /\ Forall (settledAmong p (multiclusters (clusterStep mzIndex r entry)))
            (cr_trace (clusterStep mzIndex r entry)).
Proof.
  intros Hp H. unfold clusterStep.
  destruct (isClustered r (libFileOffset entry)); [auto|].
  match goal with
  | |- context [findSpectralNeighbors 3 ?p0 ?e ?root 0 ?st0] =>
    pose proof (findSpectralNeighbors_settled p 3 e root 0 st0) as Hf;
      rewrite Hp;
      set (st := findSpectralNeighbors 3 p e root 0 st0) in *
  end.
  cbv zeta in Hf.
  destruct Hf as [Hf _]; [lia|constructor|unfold entryIn; cbn; apply elem_of_singleton; reflexivity|].
  clearbody st.
  destruct (Z.of_nat (size (cl_cluster st)) =? 1) eqn:Esz.
  - assert (Forall (settledAmong p (multiclusters r)) (cl_trace st)) as Hst.
    { eapply Forall_impl; [exact Hf|]. intros c (H1 & H2 & H3).
      split; [exact H1|]. split; [exact H2|]. intros Hj. exfalso.
      destruct (H3 Hj) as [Ha Hb]. apply Z.eqb_eq in Esz.
      assert (size (cl_cluster st) = 1%nat) as Hsz by lia.
      apply size_1_elem_of in Hsz as [x Hx].
      rewrite Hx in Ha, Hb. apply elem_of_singleton in Ha, Hb.
      apply H2. congruence. }
    destruct (getOneComment "Xrea" (cl_root st)); cbn [cr_imp cr_trace multiclusters].
    all: split; [|apply Forall_app; auto].
    all: match goal with |- context [if ?b then _ else _] => destruct b end;
      assumption.
  - cbn [cr_imp cr_trace multiclusters]. split; [exact Hp|].
    apply Forall_app. split.
    + eapply Forall_impl; [exact H|]. intros c. apply settledAmong_mono.
      intros cl Hcl. apply in_or_app. left. exact Hcl.
    + eapply Forall_impl; [exact Hf|]. intros c (H1 & H2 & H3).
      split; [exact H1|]. split; [exact H2|]. intros Hj.
      exists (cl_cluster st). split; [|exact (H3 Hj)].
      apply in_or_app. right. left. reflexivity.
Qed.

Lemma fold_clusterStep_settled p mzIndex l : forall r,
  m_params (cr_imp r) = p ->
  Forall (settledAmong p (multiclusters r)) (cr_trace r) ->
  Forall (settledAmong p (multiclusters (fold_left (clusterStep mzIndex) l r)))
         (cr_trace (fold_left (clusterStep mzIndex) l r)).
Proof.
  induction l as [|e l IH]; intros r Hp H; cbn [fold_left]; [exact H|].
  destruct (clusterStep_settled p mzIndex r e Hp H) as [Hp' H'].
  apply IH; assumption.
Qed.

(** C6 (as amended). Where the loop of [findSpectralNeighbors] compares
    the entry at a position of the vector (the entry is not in the cluster
    yet and its precursor is inside the window of the round), it inserts
    that entry into the cluster exactly when the dot product is at least
    the configured minimum less 0.5 per round, and records the comparison;
    where it does not compare, it inserts nothing. In a run of the
    clustering every comparison is made in a round from 0 to 2, between two
    different entries, and the two entries of a comparison that reached its
    threshold end in the same cluster of the run. A pair with dot product
    below 0.3 is therefore kept apart by the direct comparison in every
    round whose threshold is at least 0.3; in a round whose threshold has
    fallen below 0.3 it can be joined. *)
Theorem C6_direct_comparison_joins_by_round_threshold s mzIndex :
  (forall p entry round lo hi sc k a,
     cl_slots (sc_st sc) !! k = Some (Some a) ->
     libFileOffset (cl_heap (sc_st sc) !!! a) ∉ cl_cluster (sc_st sc) ->
     dlt (precursorMz (cl_heap (sc_st sc) !!! a)) lo
     || dgt (precursorMz (cl_heap (sc_st sc) !!! a)) hi = false ->
     let other := libFileOffset (cl_heap (sc_st sc) !!! a) in
     let st1 := simplifyRef (HeapEntry a) (sc_st sc) in
     let dot := compare (peakList (derefEntry st1 entry))
                        (peakList (derefEntry st1 (HeapEntry a))) in
     let joined := dge dot (roundThreshold p round) in
     let st' := sc_st (scanOne p entry round lo hi sc k) in
     cl_cluster st'
     = (if joined then {[ other ]} ∪ cl_cluster (sc_st sc)
        else cl_cluster (sc_st sc))
     /\ cl_trace st'
        = cl_trace (sc_st sc)
          ++ [{| cmp_entry := libFileOffset (derefEntry st1 entry);
                 cmp_other := other; cmp_round := round; cmp_dot := dot;
                 cmp_joined := joined |}])
  /\ (forall p entry round lo hi sc k,
        (forall a, cl_slots (sc_st sc) !! k = Some (Some a) ->
           libFileOffset (cl_heap (sc_st sc) !!! a) ∈ cl_cluster (sc_st sc)
           \/ dlt (precursorMz (cl_heap (sc_st sc) !!! a)) lo
              || dgt (precursorMz (cl_heap (sc_st sc) !!! a)) hi = true) ->
        cl_cluster (sc_st (scanOne p entry round lo hi sc k))
        = cl_cluster (sc_st sc)
        /\ cl_trace (sc_st (scanOne p entry round lo hi sc k))
           = cl_trace (sc_st sc))
  /\ (forall c, In c (cr_trace (clusterAll s mzIndex)) ->
        0 <= cmp_round c <= 2
        /\ cmp_joined c
           = dge (cmp_dot c) (roundThreshold (m_params s) (cmp_round c))
        /\ cmp_entry c <> cmp_other c
        /\ (cmp_joined c = true ->
            exists cl, In cl (multiclusters (clusterAll s mzIndex))
                       /\ cmp_entry c ∈ cl /\ cmp_other c ∈ cl)
        /\ (dlt (cmp_dot c) (3 # 10) = true ->
            dge (roundThreshold (m_params s) (cmp_round c)) (3 # 10) = true ->
            cmp_joined c = false)).
Proof.
  split; [|split].
  - intros p entry round lo hi sc k a Hk Hout Hw.
    destruct (scanOne_compares p entry round lo hi sc k a Hk Hout Hw)
      as (H1 & H2 & _).
    split; assumption.
  - intros p entry round lo hi sc k Hs.
    destruct (scanOne_skips p entry round lo hi sc k Hs) as (H1 & H2 & _).
    split; assumption.
  - intros c Hin.
    assert (Forall (settledAmong (m_params s)
                      (multiclusters (clusterAll s mzIndex)))
                   (cr_trace (clusterAll s mzIndex))) as Hall.
    { unfold clusterAll. apply fold_clusterStep_settled.
      - reflexivity.
      - apply List.Forall_nil. }
    rewrite Forall_forall in Hall.
    destruct (Hall c (proj2 (list_elem_of_In _ _) Hin)) as ([Hr Hj] & Hne & Hcl).
    split; [exact Hr|]. split; [exact Hj|]. split; [exact Hne|].
    split; [exact Hcl|].
    intros Hlt Hge. rewrite Hj. unfold dge, dlt in *.
    apply negb_true_iff in Hlt.
    destruct (Qle_bool (roundThreshold (m_params s) (cmp_round c)) (cmp_dot c))
      eqn:E; [|reflexivity].
    apply Qle_bool_iff in E, Hge.
    assert (Qle_bool (3 # 10) (cmp_dot c) = true); [|congruence].
    apply Qle_bool_iff. eapply Qle_trans; eauto.
Qed.

(** ** The statistics of the quality filter *)

(** *** The five concerns of an entry *)

Record Concerns := {
  isImpure_ : bool;
  isConflicting : bool;
  isUnconfirmed : bool;
  isSingleton : bool;
  isInquorate : bool
}.

(** The concerns of an entry that is not immune ([None]: immune), each as
    its block of the cascade decides it: inquorate by the replicate quorum,
    singleton and unconfirmed among the inquorate only. *)
Definition concerns (p : Params) (lib : option SpLib) (e : Entry)
  : Outcome (option Concerns) :=
  let e0 := setStatus "Normal" e in
  if immune p e0 then Done None
  else
    let n := u32 (nrepsUsed e) in
    let i5 := n <? repQuorum p in
    shared ← (if i5 then hasSharedSequence lib e0 else Done true);
    bad ← isBadConflictingID lib e0 n (qualityPenalizeSingletons p);
    Done (Some {| isImpure_ := (isImpure e0 n (qualityPenalizeSingletons p)).1.1;
                  isConflicting := bad.1;
                  isUnconfirmed := i5 && negb shared;
                  isSingleton := i5 && (n =? 1);
                  isInquorate := i5 |}).

(** The concerns a counter stands for. *)
Definition levelsOf (c : QFCounter) : list nat :=
  match c with
  | immuneProb | immuneEngine => []
  | Q1 => [1] | Q2 => [2] | Q3 => [3] | Q4 => [4] | Q5 => [5]
  | Q1Q2 => [1;2] | Q1Q3 => [1;3] | Q1Q4 => [1;4] | Q1Q5 => [1;5]
  | Q2Q3 => [2;3] | Q2Q4 => [2;4] | Q2Q5 => [2;5] | Q3Q4 => [3;4]
  | Q3Q5 => [3;5] | Q4Q5 => [4;5]
  | Q1Q2Q3 => [1;2;3] | Q1Q2Q4 => [1;2;4] | Q1Q2Q5 => [1;2;5]
  | Q1Q3Q4 => [1;3;4] | Q1Q3Q5 => [1;3;5] | Q1Q4Q5 => [1;4;5]
  | Q2Q3Q4 => [2;3;4] | Q2Q3Q5 => [2;3;5] | Q2Q4Q5 => [2;4;5]
  | Q3Q4Q5 => [3;4;5]
  | Q1Q2Q3Q4 => [1;2;3;4] | Q1Q2Q3Q5 => [1;2;3;5] | Q1Q2Q4Q5 => [1;2;4;5]
  | Q1Q3Q4Q5 => [1;3;4;5] | Q2Q3Q4Q5 => [2;3;4;5]
  | Q1Q2Q3Q4Q5 => [1;2;3;4;5]
  end%nat.

Definition hasConcern (fl : Concerns) (level : nat) : bool :=
  match level with
  | 1 => isImpure_ fl
  | 2 => isConflicting fl
  | 3 => isUnconfirmed fl
  | 4 => isSingleton fl
  | 5 => isInquorate fl
  | _ => false
  end%nat.

(** An entry counts under a counter when it has all its concerns. *)
Definition countsUnder (c : QFCounter) (fl : option Concerns) : bool :=
  match fl, levelsOf c with
  | _, [] => false
  | None, _ => false
  | Some fl, ls => forallb (hasConcern fl) ls
  end.

Lemma scanSimilar_status st e pep n pen l : forall ss,
  scanSimilar (setStatus st e) pep n pen l ss = scanSimilar e pep n pen l ss.
Proof.
  induction l as [|i l IH]; intros ss; [reflexivity|].
  cbn [scanSimilar libId setStatus peakList prob].
  destruct (peptidePtr i); rewrite ?IH; reflexivity.
Qed.

Lemma isBadConflictingID_status lib st e n pen :
  isBadConflictingID lib (setStatus st e) n pen = isBadConflictingID lib e n pen.
Proof.
  unfold isBadConflictingID. cbn [peptidePtr setStatus precursorMz].
  destruct (peptidePtr e); [|reflexivity]. destruct lib; [|reflexivity].
  apply scanSimilar_status.
Qed.

Lemma isImpure_status st e n pen :
  (isImpure (setStatus st e) n pen).1 = (isImpure e n pen).1.
Proof.
  unfold isImpure, getOneComment. cbn [peptidePtr setStatus comments peakList].
  destruct (peptidePtr e) as [pep|]; [|reflexivity].
  destruct (comments e !! "FracUnassigned") as [str|].
  - destruct (parseFracUnassignedTop20 str) as [[fr un] tot]. cbn.
    destruct (_ || _); reflexivity.
  - destruct (calcFractionUnassigned pep (peakList e) 999999 []) as [[? ?] ?].
    destruct (calcFractionUnassigned pep (peakList e) 20 [true; true])
      as [[? ?] ?].
    destruct (calcFractionUnassigned pep (peakList e) 5 [true; true])
      as [[? ?] ?].
    cbn. destruct (_ || _); reflexivity.
Qed.



(** *** The blocks of the cascade, one at a time *)

(** What every block finds and leaves in the frame of entry [e]. *)
Definition coreOf (p : Params) (lib : option SpLib) (e : Entry) (f : Frame)
  : Prop :=
  m_params (f_imp f) = p
  /\ m_QFSearchLib (f_imp f) = lib
  /\ numRepsUsed f = u32 (nrepsUsed e)
  /\ inquorate f = (u32 (nrepsUsed e) <? repQuorum p)
  /\ exists st, f_entry f = setStatus st e.

Definition active (p : Params) (level : Z) : bool :=
  (level <=? qualityLevelRemove p) || (level <=? qualityLevelMark p).

Definition removes (p : Params) (level : Z) : bool :=
  level <=? qualityLevelRemove p.

Definition verdictOf (fire remove_ : bool) (f : Frame) : Verdict :=
  if fire && remove_ then Return false f else Continue f.

Ltac core_tac :=
  unfold coreOf; cbn;
  repeat (split; try assumption; try reflexivity);
  rewrite ?orb_true_r, ?orb_false_r; try reflexivity; try assumption;
  try match goal with
      | H : f_entry _ = setStatus _ _ |- exists _, _ =>
        rewrite H; eexists; reflexivity
      end; eauto.

Lemma level5_spec p lib e f :
  coreOf p lib e f ->
  let fire := active p 5 && inquorate f in
  exists f',
    level5 f = verdictOf fire (removes p 5) f'
    /\ coreOf p lib e f'
    /\ f_stats f' = incrIf fire Q5 (f_stats f)
    /\ singleton f' = singleton f /\ unconfirmed f' = unconfirmed f
    /\ badConflictingID f' = badConflictingID f /\ impure f' = impure f.
Proof.
  intros (Hp & Hl & Hn & Hi & st & He). unfold level5, active, removes.
  rewrite Hp. cbv zeta.
  destruct ((5 <=? qualityLevelRemove p) || (5 <=? qualityLevelMark p)) eqn:Ea;
    [|exists f; core_tac].
  destruct (inquorate f) eqn:Ei; [|exists f; core_tac].
  destruct (5 <=? qualityLevelRemove p) eqn:Er.
  - eexists. split; [reflexivity|]. core_tac.
  - cbn in Ea. rewrite Ea. eexists. split; [reflexivity|]. core_tac.
Qed.

Lemma level4_spec p lib e f :
  coreOf p lib e f ->
  let fire := inquorate f && active p 4 && (numRepsUsed f =? 1) in
  exists f',
    level4 f = verdictOf fire (removes p 4) f'
    /\ coreOf p lib e f'
    /\ f_stats f' = incrIf fire Q4Q5 (incrIf fire Q4 (f_stats f))
    /\ singleton f' = singleton f || fire
    /\ unconfirmed f' = unconfirmed f
    /\ badConflictingID f' = badConflictingID f /\ impure f' = impure f.
Proof.
  intros (Hp & Hl & Hn & Hi & st & He). unfold level4, active, removes.
  rewrite Hp. cbv zeta.
  destruct (inquorate f && ((4 <=? qualityLevelRemove p) || (4 <=? qualityLevelMark p)))
    eqn:Ea; [|exists f; core_tac].
  destruct (numRepsUsed f =? 1) eqn:E1; [|exists f; core_tac].
  apply andb_true_iff in Ea as [Ei Ea].
  destruct (4 <=? qualityLevelRemove p) eqn:Er.
  - eexists. split; [reflexivity|]. core_tac.
  - cbn in Ea. rewrite Ea. eexists. split; [reflexivity|]. core_tac.
Qed.


Definition tally3 (fire sing : bool) (q : QFStats) : QFStats :=
  incrIf (fire && sing) Q3Q4Q5
    (incrIf (fire && sing) Q3Q4 (incrIf fire Q3Q5 (incrIf fire Q3 q))).

Definition tally2 (fire inq sing unconf : bool) (q : QFStats) : QFStats :=
  incrIf (fire && (sing && unconf)) Q2Q3Q4Q5
    (incrIf (fire && (sing && unconf)) Q2Q3Q4
      (incrIf (fire && unconf) Q2Q3Q5
        (incrIf (fire && unconf) Q2Q3
          (incrIf (fire && sing) Q2Q4Q5
            (incrIf (fire && sing) Q2Q4
              (incrIf (fire && inq) Q2Q5 (incrIf fire Q2 q))))))).

Definition tally1 (fire b inq sing unconf : bool) (q : QFStats) : QFStats :=
  incrIf (fire && (b && sing && unconf)) Q1Q2Q3Q4Q5
   (incrIf (fire && (b && sing && unconf)) Q1Q2Q3Q4
    (incrIf (fire && (b && unconf)) Q1Q2Q3Q5
     (incrIf (fire && (b && unconf)) Q1Q2Q3
      (incrIf (fire && (b && sing)) Q1Q2Q4Q5
       (incrIf (fire && (b && sing)) Q1Q2Q4
        (incrIf (fire && (b && inq)) Q1Q2Q5
         (incrIf (fire && b) Q1Q2
          (incrIf (fire && (sing && unconf)) Q1Q3Q4Q5
           (incrIf (fire && (sing && unconf)) Q1Q3Q4
            (incrIf (fire && unconf) Q1Q3Q5
             (incrIf (fire && unconf) Q1Q3
              (incrIf (fire && sing) Q1Q4Q5
               (incrIf (fire && sing) Q1Q4
                (incrIf (fire && inq) Q1Q5 (incrIf fire Q1 q))))))))))))))).

Lemma level3_spec p lib e f :
  coreOf p lib e f ->
  let cond := inquorate f && active p 3 in
  match (if cond then hasSharedSequence lib (setStatus "Normal" e)
         else Done true) with
  | Crash x => level3 f = Crash x
  | Done shared =>
    let fire := cond && negb shared in
    exists f',
      level3 f = Done (verdictOf fire (removes p 3) f')
      /\ coreOf p lib e f'
      /\ f_stats f' = tally3 fire (singleton f) (f_stats f)
      /\ singleton f' = singleton f
      /\ unconfirmed f' = unconfirmed f || fire
      /\ badConflictingID f' = badConflictingID f /\ impure f' = impure f
  end.
Proof.
  intros (Hp & Hl & Hn & Hi & st & He). unfold level3, active, removes, tally3.
  rewrite Hp, Hl, He. cbv zeta.
  change (hasSharedSequence lib (setStatus st e))
    with (hasSharedSequence lib (setStatus "Normal" e)).
  destruct (inquorate f && ((3 <=? qualityLevelRemove p) || (3 <=? qualityLevelMark p)))
    eqn:Ea; [|exists f; split; [reflexivity|core_tac]].
  destruct (hasSharedSequence lib (setStatus "Normal" e)) as [shared|x];
    [|reflexivity].
  cbn [mbind Outcome_bind].
  destruct shared; cbn [negb]; [exists f; split; [reflexivity|core_tac]|].
  apply andb_true_iff in Ea as [Ei Ea].
  destruct (3 <=? qualityLevelRemove p) eqn:Er.
  - eexists. split; [reflexivity|]. destruct (singleton f) eqn:Es; core_tac.
  - cbn in Ea. rewrite Ea. eexists. split; [reflexivity|].
    destruct (singleton f) eqn:Es; core_tac.
Qed.

Lemma level2_spec p lib e f :
  coreOf p lib e f ->
  let cond := active p 2 in
  match (if cond
         then isBadConflictingID lib (setStatus "Normal" e)
                (u32 (nrepsUsed e)) (qualityPenalizeSingletons p)
         else Done (false, [])) with
  | Crash x => level2 f = Crash x
  | Done bad =>
    let fire := cond && bad.1 in
    exists f',
      level2 f = Done (verdictOf fire (removes p 2) f')
      /\ coreOf p lib e f'
      /\ f_stats f' = tally2 fire (inquorate f) (singleton f) (unconfirmed f)
                             (f_stats f)
      /\ singleton f' = singleton f
      /\ unconfirmed f' = unconfirmed f
      /\ badConflictingID f' = badConflictingID f || fire
      /\ impure f' = impure f
  end.
Proof.
  intros (Hp & Hl & Hn & Hi & st & He). unfold level2, active, removes, tally2.
  rewrite Hp, Hl, He, Hn. cbv zeta. rewrite !isBadConflictingID_status.
  destruct ((2 <=? qualityLevelRemove p) || (2 <=? qualityLevelMark p)) eqn:Ea;
    [|exists f; split; [reflexivity|core_tac]].
  destruct (isBadConflictingID lib e (u32 (nrepsUsed e)) _) as [[bad msg]|x];
    [|reflexivity].
  cbn [mbind Outcome_bind fst andb].
  destruct bad.
  2:{ destruct msg; eexists; (split; [reflexivity|]); core_tac. }
  destruct (2 <=? qualityLevelRemove p) eqn:Er.
  - eexists. split; [reflexivity|].
    destruct (inquorate f) eqn:Ei, (singleton f) eqn:Es, (unconfirmed f) eqn:Eu; core_tac.
  - cbn in Ea. rewrite Ea. eexists. split; [reflexivity|].
    destruct (inquorate f) eqn:Ei, (singleton f) eqn:Es, (unconfirmed f) eqn:Eu; core_tac.
Qed.

Lemma level1_spec p lib e f :
  coreOf p lib e f ->
  let fire := active p 1
              && (isImpure (setStatus "Normal" e) (u32 (nrepsUsed e))
                           (qualityPenalizeSingletons p)).1.1 in
  exists f',
    level1 f = verdictOf fire (removes p 1) f'
    /\ m_params (f_imp f') = p
    /\ f_stats f' = tally1 fire (badConflictingID f) (inquorate f) (singleton f)
                           (unconfirmed f) (f_stats f).
Proof.
  intros (Hp & Hl & Hn & Hi & st & He). unfold level1, active, removes, tally1.
  rewrite Hp, He, Hn. cbv zeta.
  destruct ((1 <=? qualityLevelRemove p) || (1 <=? qualityLevelMark p)) eqn:Ea;
    [|exists f; split; [reflexivity|split; [assumption|reflexivity]]].
  pose proof (isImpure_status st e (u32 (nrepsUsed e))
                (qualityPenalizeSingletons p)) as HI.
  rewrite (isImpure_status "Normal").
  destruct (isImpure (setStatus st e) _ _) as [[imp msg] eI].
  destruct (isImpure e _ _) as [[imp0 msg0] e0]. cbn [fst] in HI |- *.
  injection HI as -> ->. cbn [andb].
  destruct imp0.
  2:{ eexists. split; [reflexivity|]. split; [exact Hp|reflexivity]. }
  destruct (1 <=? qualityLevelRemove p) eqn:Er.
  - eexists. split; [reflexivity|]. split; [exact Hp|].
    destruct (badConflictingID f), (inquorate f), (singleton f), (unconfirmed f);
      reflexivity.
  - cbn in Ea. rewrite Ea. eexists. split; [reflexivity|]. split; [exact Hp|].
    destruct (badConflictingID f), (inquorate f), (singleton f), (unconfirmed f);
      reflexivity.
Qed.


(** The whole cascade on an entry that is not immune: which block returns,
    and the statistics when none of the first four does. *)
Definition talliedBy (fire1 fire2 fire3 fire4 fire5 i5 : bool) (q : QFStats)
  : QFStats :=
  tally1 fire1 fire2 i5 fire4 fire3
    (tally2 fire2 i5 fire4 fire3
      (tally3 fire3 fire4
        (incrIf fire4 Q4Q5 (incrIf fire4 Q4 (incrIf fire5 Q5 q))))).

Definition returns (s : Importer) (e : Entry) (q : QFStats) (b : bool) : Prop :=
  exists e' q' s', applyQualityFilter s e q = Done (b, e', q', s').

Lemma andThen_Return b f k : andThen (Done (Return b f)) k = Done (Return b f).
Proof. reflexivity. Qed.

Lemma andThen_Crash x k : andThen (Crash x) k = Crash x.
Proof. reflexivity. Qed.

Lemma andThen_Continue f k : andThen (Done (Continue f)) k = k f.
Proof. reflexivity. Qed.

Lemma applyQualityFilter_cascade s e q :
  applyQualityFilter s e q =
  match cascade (startFrame s e q) with
  | Done (Return b f) => Done (b, f_entry f, f_stats f, f_imp f)
  | Done (Continue f) => Done (true, f_entry f, f_stats f, f_imp f)
  | Crash x => Crash x
  end.
Proof.
  unfold applyQualityFilter.
  destruct (cascade (startFrame s e q)) as [[b f|f]|x]; reflexivity.
Qed.

Lemma returns_cascade s e q b f :
  cascade (startFrame s e q) = Done (Return b f) -> returns s e q b.
Proof.
  intros H. unfold returns. rewrite applyQualityFilter_cascade, H. eauto.
Qed.

Lemma cascade_not_immune p lib e s q :
  m_params s = p -> m_QFSearchLib s = lib -> immune p e = false ->
  let e0 := setStatus "Normal" e in
  let n := u32 (nrepsUsed e) in
  let i5 := n <? repQuorum p in
  let fire5 := active p 5 && i5 in
  if fire5 && removes p 5 then returns s e q false else
  let fire4 := i5 && active p 4 && (n =? 1) in
  if fire4 && removes p 4 then returns s e q false else
  match (if i5 && active p 3 then hasSharedSequence lib e0 else Done true) with
  | Crash x => applyQualityFilter s e q = Crash x
  | Done shared =>
    let fire3 := i5 && active p 3 && negb shared in
    if fire3 && removes p 3 then returns s e q false else
    match (if active p 2
           then isBadConflictingID lib e0 n (qualityPenalizeSingletons p)
           else Done (false, [])) with
    | Crash x => applyQualityFilter s e q = Crash x
    | Done bad =>
      let fire2 := active p 2 && bad.1 in
      if fire2 && removes p 2 then returns s e q false else
      let fire1 := active p 1
                   && (isImpure e0 n (qualityPenalizeSingletons p)).1.1 in
      exists e' s',
        applyQualityFilter s e q =
        Done (negb (fire1 && removes p 1), e',
              talliedBy fire1 fire2 fire3 fire4 fire5 i5 q, s')
    end
  end.
Proof.
  intros Hp Hl Him. cbv zeta.
  pose proof (eq_refl (cascade (startFrame s e q))) as Hc.
  unfold cascade at 2 in Hc.
  destruct (immuneChecks_not_immune (startFrame s e q)) as [t Ht].
  { cbn [startFrame f_imp f_entry incCount m_params]. rewrite Hp. exact Him. }
  rewrite Ht in Hc. clear Ht. rewrite andThen_Continue in Hc.
  cbn [startFrame f_imp f_entry incCount m_params setStatus nrepsUsed] in Hc.
  rewrite Hp in Hc.
  set (f0 := setInquorate _ _ _ _) in Hc.
  assert (C0 : coreOf p lib e f0).
  { unfold coreOf, f0. cbn. repeat split; try assumption. eexists; reflexivity. }
  assert (F0 : singleton f0 = false /\ unconfirmed f0 = false
               /\ badConflictingID f0 = false /\ f_stats f0 = q)
    by (cbn; auto).
  clearbody f0. destruct F0 as (Z4 & Z3 & Z2 & Zq).
  pose proof (level5_spec p lib e f0 C0) as X5. cbv zeta in X5.
  destruct X5 as (f5 & E5 & C5 & S5 & A5 & B5 & D5 & _).
  destruct C0 as (_ & _ & _ & I0 & _). rewrite I0 in E5, S5.
  rewrite E5 in Hc. clear E5. unfold verdictOf at 1 in Hc.
  destruct (active p 5 && _ && removes p 5).
  { rewrite !andThen_Return in Hc. eapply returns_cascade, Hc. }
  rewrite !andThen_Continue in Hc.
  pose proof (level4_spec p lib e f5 C5) as X4. cbv zeta in X4.
  destruct X4 as (f4 & E4 & C4 & S4 & A4 & B4 & D4 & _).
  pose proof C5 as (_ & _ & N5 & I5 & _). rewrite I5, N5 in E4, S4, A4.
  rewrite E4 in Hc. clear E4. unfold verdictOf at 1 in Hc.
  destruct (_ && active p 4 && _ && removes p 4).
  { rewrite !andThen_Return in Hc. eapply returns_cascade, Hc. }
  rewrite !andThen_Continue in Hc.
  pose proof (level3_spec p lib e f4 C4) as X3. cbv zeta in X3.
  pose proof C4 as (_ & _ & N4 & I4 & _). rewrite I4 in X3.
  destruct (if _ && active p 3 then _ else _) as [shared|x].
  2:{ rewrite X3 in Hc. rewrite !andThen_Crash in Hc.
      rewrite applyQualityFilter_cascade, Hc. reflexivity. }
  destruct X3 as (f3 & E3 & C3 & S3 & A3 & B3 & D3 & _).
  rewrite E3 in Hc. clear E3. unfold verdictOf at 1 in Hc.
  destruct (_ && active p 3 && _ && removes p 3).
  { rewrite !andThen_Return in Hc. eapply returns_cascade, Hc. }
  rewrite !andThen_Continue in Hc.
  pose proof (level2_spec p lib e f3 C3) as X2. cbv zeta in X2.
  destruct (if active p 2 then _ else _) as [bad|x].
  2:{ rewrite X2 in Hc. rewrite !andThen_Crash in Hc.
      rewrite applyQualityFilter_cascade, Hc. reflexivity. }
  destruct X2 as (f2 & E2 & C2 & S2 & A2 & B2 & D2 & _).
  rewrite E2 in Hc. clear E2. unfold verdictOf at 1 in Hc.
  destruct (active p 2 && _ && removes p 2).
  { rewrite !andThen_Return in Hc. eapply returns_cascade, Hc. }
  rewrite !andThen_Continue in Hc.
  pose proof (level1_spec p lib e f2 C2) as X1. cbv zeta in X1.
  destruct X1 as (f1 & E1 & P1 & S1).
  pose proof C3 as (_ & _ & _ & I3 & _).
  pose proof C2 as (_ & _ & _ & I2 & _).
  assert (Hq : f_stats f1 = talliedBy
            (active p 1
             && (isImpure (setStatus "Normal" e) (u32 (nrepsUsed e))
                   (qualityPenalizeSingletons p)).1.1)
            (active p 2 && bad.1)
            ((u32 (nrepsUsed e) <? repQuorum p) && active p 3 && negb shared)
            ((u32 (nrepsUsed e) <? repQuorum p) && active p 4
             && (u32 (nrepsUsed e) =? 1))
            (active p 5 && (u32 (nrepsUsed e) <? repQuorum p))
            (u32 (nrepsUsed e) <? repQuorum p) q).
  { unfold talliedBy. rewrite S1, S2, S3, S4, S5, Zq.
    rewrite D2, D3, D4, D5, Z2, A2, A3, A4, A5, Z4, B2, B3, B4, B5, Z3.
    rewrite ?I2, ?I3, ?I4, ?I5. rewrite ?orb_false_l. reflexivity. }
  rewrite E1 in Hc. unfold verdictOf in Hc.
  rewrite applyQualityFilter_cascade, Hc.
  destruct (active p 1 && _ && removes p 1); cbn; rewrite Hq; eauto.
Qed.


(** The counters after an entry went through every block count it under
    exactly the concerns it has. *)
Lemma talliedBy_counts (i1 i2 sh s1 i5 : bool) q c :
  levelsOf c <> [] ->
  talliedBy i1 i2 (i5 && negb sh) (i5 && s1) i5 i5 q c
  = if countsUnder c (Some {| isImpure_ := i1; isConflicting := i2;
                              isUnconfirmed := i5 && negb sh;
                              isSingleton := i5 && s1;
                              isInquorate := i5 |})
    then u32 (q c + 1) else q c.
Proof.
  destruct c; cbn [levelsOf]; intros H; try (exfalso; apply H; reflexivity);
    clear H; destruct i1, i2, sh, s1, i5; reflexivity.
Qed.


Lemma active_mark p k : k <= qualityLevelMark p -> active p k = true.
Proof.
  intros H. unfold active. apply orb_true_iff. right. apply Z.leb_le. exact H.
Qed.

Lemma active_remove p k : k <= qualityLevelRemove p -> active p k = true.
Proof.
  intros H. unfold active. apply orb_true_iff. left. apply Z.leb_le. exact H.
Qed.

Lemma removes_above p k : qualityLevelRemove p < k -> removes p k = false.
Proof. intros H. unfold removes. apply Z.leb_gt. exact H. Qed.

Lemma removes_below p k : k <= qualityLevelRemove p -> removes p k = true.
Proof. intros H. unfold removes. apply Z.leb_le. exact H. Qed.

Lemma immune_returns s e q :
  immune (m_params s) e = true ->
  exists c e' s',
    applyQualityFilter s e q = Done (true, e', incr c q, s')
    /\ (c = immuneProb \/ c = immuneEngine).
Proof.
  intros Him. rewrite applyQualityFilter_cascade. unfold cascade.
  destruct (immuneChecks_immune (startFrame s e q)) as (c & Hc & Hi).
  { exact Him. }
  rewrite Hc, !andThen_Return. cbn. eauto 6.
Qed.

(** With every level marking and none removing, the entry is kept and
    counted under the concerns it has. *)
Lemma applyQualityFilter_stats p lib s e q :
  m_params s = p -> m_QFSearchLib s = lib ->
  5 <= qualityLevelMark p -> qualityLevelRemove p = 0 ->
  match concerns p lib e with
  | Crash x => applyQualityFilter s e q = Crash x
  | Done fl =>
    exists e' q' s',
      applyQualityFilter s e q = Done (true, e', q', s')
      /\ forall c, levelsOf c <> [] ->
           q' c = if countsUnder c fl then u32 (q c + 1) else q c
  end.
Proof.
  intros Hp Hl Hm Hr. unfold concerns.
  change (immune p (setStatus "Normal" e)) with (immune p e).
  destruct (immune p e) eqn:Him.
  - rewrite <- Hp in Him.
    destruct (immune_returns s e q Him) as (c0 & e' & s' & -> & Hc0).
    exists e', (incr c0 q), s'. split; [reflexivity|].
    intros c Hc. unfold incr.
    destruct Hc0 as [-> | ->]; destruct c; try reflexivity;
      exfalso; apply Hc; reflexivity.
  - pose proof (cascade_not_immune p lib e s q Hp Hl Him) as X. cbv zeta in X.
    rewrite !active_mark in X by lia.
    rewrite !removes_above in X by lia.
    rewrite ?andb_true_l, ?andb_true_r, ?andb_false_r in X.
    cbv zeta.
    destruct (if u32 (nrepsUsed e) <? repQuorum p then _ else _)
      as [shared|x]; [|exact X].
    rewrite ?andb_false_r in X. cbn [mbind Outcome_bind].
    destruct (isBadConflictingID lib _ _ _) as [bad|x]; [|exact X].
    rewrite ?andb_false_r in X.
    cbn [mbind Outcome_bind]. destruct X as (e' & s' & ->).
    cbn [negb]. do 3 eexists. split; [reflexivity|].
    intros c Hc. apply talliedBy_counts. exact Hc.
Qed.


(** An entry survives removal at level [k] when it has no concern of a
    level up to [k]; an immune entry always does. *)
Definition survivesAt (k : Z) (fl : option Concerns) : bool :=
  match fl with
  | None => true
  | Some fl =>
    forallb (fun level => negb ((Z.of_nat level <=? k) && hasConcern fl level))
            [5; 4; 3; 2; 1]%nat
  end.

Lemma active_3_2 p : active p 2 = false -> active p 3 = false.
Proof.
  unfold active. rewrite !orb_false_iff, !Z.leb_gt. lia.
Qed.

Lemma active_2_1 p : active p 1 = false -> active p 2 = false.
Proof.
  unfold active. rewrite !orb_false_iff, !Z.leb_gt. lia.
Qed.

Ltac level_bits Hr X :=
  rewrite ?(removes_below _ 1), ?(removes_below _ 2), ?(removes_below _ 3),
          ?(removes_below _ 4), ?(removes_below _ 5) in X by (rewrite Hr; lia);
  rewrite ?(removes_above _ 1), ?(removes_above _ 2), ?(removes_above _ 3),
          ?(removes_above _ 4), ?(removes_above _ 5) in X by (rewrite Hr; lia);
  rewrite ?(active_remove _ 1), ?(active_remove _ 2), ?(active_remove _ 3),
          ?(active_remove _ 4), ?(active_remove _ 5) in X by (rewrite Hr; lia).

Ltac settle X :=
  cbn [andb orb negb fst snd] in X;
  first [ exact X
        | let e' := fresh in let s' := fresh in
          destruct X as (e' & s' & X); unfold returns; rewrite X;
          do 3 eexists; reflexivity ].

(** With removal at level [k], whatever is marked, the entry is kept
    exactly when it survives at level [k]. *)
Lemma applyQualityFilter_removal p lib0 lib s e q k fl :
  m_params s = p -> m_QFSearchLib s = lib ->
  qualityLevelRemove p = k -> 1 <= k <= 5 ->
  (active p 2 = true -> lib = Some lib0) ->
  concerns p (Some lib0) e = Done fl ->
  returns s e q (survivesAt k fl).
Proof.
  intros Hp Hl Hr Hk Hlib H. unfold concerns in H.
  change (immune p (setStatus "Normal" e)) with (immune p e) in H.
  destruct (immune p e) eqn:Him.
  - injection H as <-. rewrite <- Hp in Him.
    destruct (immune_returns s e q Him) as (c0 & e' & s' & E & _).
    unfold returns. cbn. eauto.
  - pose proof (cascade_not_immune p lib e s q Hp Hl Him) as X. cbv zeta in X.
    cbv zeta in H.
    set (i5 := u32 (nrepsUsed e) <? repQuorum p) in *.
    set (one := u32 (nrepsUsed e) =? 1) in *.
    set (imp := (isImpure _ _ _).1.1) in *.
    clearbody i5 one imp.
    assert (HX : match (if i5 then hasSharedSequence (Some lib0)
                                     (setStatus "Normal" e)
                        else Done true) with
                 | Crash _ => False
                 | Done shared =>
                   match isBadConflictingID (Some lib0) (setStatus "Normal" e)
                           (u32 (nrepsUsed e)) (qualityPenalizeSingletons p) with
                   | Crash _ => False
                   | Done bad =>
                     fl = Some {| isImpure_ := imp; isConflicting := bad.1;
                                  isUnconfirmed := i5 && negb shared;
                                  isSingleton := i5 && one;
                                  isInquorate := i5 |}
                   end
                 end).
    { destruct (if i5 then _ else _) as [shared|]; [|discriminate].
      cbn [mbind Outcome_bind] in H.
      destruct (isBadConflictingID _ _ _ _) as [bad|]; [|discriminate].
      cbn [mbind Outcome_bind] in H. injection H as <-. reflexivity. }
    clear H.
    assert (Hk' : k = 1 \/ k = 2 \/ k = 3 \/ k = 4 \/ k = 5) by lia.
    destruct (active p 2) eqn:A2.
    + rewrite (Hlib eq_refl) in X. clear Hlib.
      destruct i5.
      * destruct (hasSharedSequence _ _) as [shared|]; [|contradiction].
        destruct (isBadConflictingID _ _ _ _) as [[bad msg]|]; [|contradiction].
        subst fl. cbn [fst] in *.
        destruct Hk' as [Hk'|[Hk'|[Hk'|[Hk'|Hk']]]]; rewrite Hk' in *;
          level_bits Hr X;
          set (b := survivesAt _ _); cbn in b; subst b;
          repeat match type of X with
                 | context [active p ?j] => destruct (active p j)
                 end;
          destruct one, shared; cbn [andb orb negb fst snd] in X |- *;
          try exact X;
          destruct bad; cbn [andb orb negb fst snd] in X |- *; try exact X;
          destruct imp; settle X.
      * destruct (isBadConflictingID _ _ _ _) as [[bad msg]|]; [|contradiction].
        subst fl. cbn [fst] in *.
        destruct Hk' as [Hk'|[Hk'|[Hk'|[Hk'|Hk']]]]; rewrite Hk' in *;
          level_bits Hr X;
          set (b := survivesAt _ _); cbn in b; subst b;
          repeat match type of X with
                 | context [active p ?j] => destruct (active p j)
                 end;
          cbn [andb orb negb fst snd] in X |- *;
          destruct bad; cbn [andb orb negb fst snd] in X |- *; try exact X;
          destruct imp; settle X.
    + rewrite (active_3_2 p A2) in X. clear Hlib.
      assert (k = 1) as ->.
      { unfold active in A2. rewrite Hr in A2.
        apply orb_false_iff in A2 as [A2 _]. apply Z.leb_gt in A2. lia. }
      level_bits Hr X. rewrite ?andb_false_r in X.
      cbn [andb orb negb fst snd] in X.
      destruct (if i5 then _ else _) as [shared|]; [|contradiction].
      destruct (isBadConflictingID _ _ _ _) as [bad|]; [|contradiction].
      subst fl. set (b := survivesAt _ _). cbn in b. subst b.
      destruct imp; settle X.
Qed.


(** *** The arithmetic of the report *)

(** The count reported for a level, as [doQualityFilter] computes it. *)
Definition remainingAt (k : Z) (count : Z) (q : QFStats) : Z :=
  if k =? 1 then level1Of count q
  else if k =? 2 then level2Of count q
  else if k =? 3 then level3Of count q
  else if k =? 4 then level4Of count q
  else level5Of count q.

(** Equality of [unsigned int] values, for rewriting under the sums. *)
Definition eq32 (a b : Z) : Prop := u32 a = u32 b.

#[local] Instance eq32_equiv : Equivalence eq32.
Proof. unfold eq32. split; red; congruence. Qed.

#[local] Instance add_eq32 : Proper (eq32 ==> eq32 ==> eq32) Z.add.
Proof.
  intros a a' Ha b b' Hb. unfold eq32, u32 in *.
  rewrite (Zplus_mod a), (Zplus_mod a'), Ha, Hb. reflexivity.
Qed.

#[local] Instance sub_eq32 : Proper (eq32 ==> eq32 ==> eq32) Z.sub.
Proof.
  intros a a' Ha b b' Hb. unfold eq32, u32 in *.
  rewrite (Zminus_mod a), (Zminus_mod a'), Ha, Hb. reflexivity.
Qed.

Lemma u32_eq32 a : eq32 (u32 a) a.
Proof. unfold eq32, u32. apply Zmod_mod. Qed.

Ltac strip_mod :=
  match goal with |- u32 ?a = u32 ?b => change (eq32 a b) end;
  rewrite ?u32_eq32; unfold eq32; f_equal.

Ltac eval_counts :=
  repeat match goal with
         | |- context [countsUnder ?c ?f] =>
           let v := eval vm_compute in (countsUnder c f) in
           change (countsUnder c f) with v
         end;
  repeat match goal with
         | |- context [survivesAt ?k ?f] =>
           let v := eval vm_compute in (survivesAt k f) in
           change (survivesAt k f) with v
         end;
  cbv iota; cbn [Z.b2z].

Lemma remainingAt_step k count q q' fl :
  1 <= k <= 5 ->
  (forall c, levelsOf c <> [] ->
     q' c = if countsUnder c fl then u32 (q c + 1) else q c) ->
  remainingAt k (u32 (count + 1)) q'
  = u32 (remainingAt k count q + Z.b2z (survivesAt k fl)).
Proof.
  intros Hk Hq.
  assert (Hk' : k = 1 \/ k = 2 \/ k = 3 \/ k = 4 \/ k = 5) by lia.
  destruct Hk' as [->|[->|[->|[->| ->]]]]; unfold remainingAt;
    cbn [Z.eqb Pos.eqb];
    unfold level5Of, level4Of, level3Of, level2Of, level1Of;
    rewrite !Hq by (cbn; discriminate); clear Hq;
    (destruct fl as [[i1 i2 i3 i4 i5]|];
     [destruct i1, i2, i3, i4, i5|]);
    eval_counts; unfold usub, uadd; strip_mod; lia.
Qed.

(** *** The loop of the quality filter *)

(** Whether an entry survives removal at level [k]. *)
Definition survives (p : Params) (lib : option SpLib) (k : Z) (e : Entry)
  : bool :=
  match concerns p lib e with
  | Done fl => survivesAt k fl
  | Crash _ => false
  end.

(** The entries the loop assesses, those that pass the filters, all have
    their concerns decided. *)
Definition assessed (p : Params) (lib : option SpLib) (pass : Entry -> bool)
    (l : list Entry) : Prop :=
  Forall (fun e => pass e = true -> exists fl, concerns p lib e = Done fl) l.

Definition survivors (p : Params) (lib : option SpLib) (pass : Entry -> bool)
    (k : Z) (l : list Entry) : list Entry :=
  List.filter (fun e => pass e && survives p lib k e) l.

Lemma passAllFilters_same s s' e :
  m_params s' = m_params s -> m_ppMappings s' = m_ppMappings s ->
  passAllFilters s' e = passAllFilters s e.
Proof. intros Hp Hm. unfold passAllFilters. rewrite Hp, Hm. reflexivity. Qed.

Lemma remainingAt_u32 k count q :
  u32 (remainingAt k count q) = remainingAt k count q.
Proof.
  unfold remainingAt, level5Of, level4Of, level3Of, level2Of, level1Of.
  repeat destruct (k =? _); unfold usub, uadd, u32; apply Zmod_mod.
Qed.

Lemma qualityFilterLoop_stats p lib pass l : forall s q s' q',
  m_params s = p -> m_QFSearchLib s = lib ->
  5 <= qualityLevelMark p -> qualityLevelRemove p = 0 ->
  (forall e, passAllFilters s e = pass e) ->
  qualityFilterLoop l s q = Done (s', q') ->
  assessed p lib pass l
  /\ forall k, 1 <= k <= 5 ->
       remainingAt k (m_count s') q'
       = u32 (remainingAt k (m_count s) q
              + Z.of_nat (length (survivors p lib pass k l))).
Proof.
  induction l as [|e l IH]; intros s q s' q' Hp Hl Hm Hr Hpass H.
  - cbn in H. injection H as <- <-. split; [constructor|].
    intros k _. cbn. rewrite Z.add_0_r. symmetry. apply remainingAt_u32.
  - cbn [qualityFilterLoop] in H. rewrite Hpass in H.
    unfold survivors. cbn [List.filter].
    destruct (pass e) eqn:Epass.
    + pose proof (applyQualityFilter_stats p lib s e q Hp Hl Hm Hr) as A.
      unfold survives at 1.
      destruct (concerns p lib e) as [fl|x] eqn:Hc.
      2:{ rewrite A in H. cbn [mbind Outcome_bind] in H. discriminate. }
      destruct A as (e' & q1 & s1 & A & Hq1). rewrite A in H.
      cbn [mbind Outcome_bind] in H.
      pose proof (applyQualityFilter_cases _ _ _ _ _ _ _ A)
        as (P1 & L1 & M1 & _ & _ & C1 & _).
      apply IH in H; cbn [insertEntry m_params m_QFSearchLib]; try congruence.
      2:{ intros e0. rewrite <- Hpass. apply passAllFilters_same; assumption. }
      destruct H as (HA & HR). split.
      { constructor; [intros _; eauto|exact HA]. }
      intros k Hk. rewrite (HR k Hk). cbn [m_count insertEntry]. rewrite C1.
      rewrite (remainingAt_step k _ q q1 fl Hk Hq1).
      fold (survivors p lib pass k l).
      destruct (survivesAt k fl); cbn [andb length Z.b2z]; unfold u32;
        rewrite Zplus_mod_idemp_l; f_equal; lia.
    + apply IH in H; try assumption. destruct H as (HA & HR). split.
      { constructor; [intros Ht; congruence|exact HA]. }
      cbn [andb]. exact HR.
Qed.

Lemma qualityFilterLoop_removal p lib0 pass k l : forall s q,
  m_params s = p ->
  (active p 2 = true -> m_QFSearchLib s = Some lib0) ->
  qualityLevelRemove p = k -> 1 <= k <= 5 ->
  (forall e, passAllFilters s e = pass e) ->
  assessed p (Some lib0) pass l ->
  exists s' q',
    qualityFilterLoop l s q = Done (s', q')
    /\ length (lib_entries s')
       = (length (lib_entries s)
          + length (survivors p (Some lib0) pass k l))%nat.
Proof.
  induction l as [|e l IH]; intros s q Hp Hl Hr Hk Hpass HA.
  - cbn. do 2 eexists. split; [reflexivity|]. lia.
  - apply Forall_cons in HA as [He HA].
    cbn [qualityFilterLoop]. rewrite Hpass.
    unfold survivors. cbn [List.filter].
    destruct (pass e) eqn:Epass.
    + destruct (He eq_refl) as [fl Hc].
      destruct (applyQualityFilter_removal p lib0 _ s e q k fl Hp eq_refl Hr Hk
                  Hl Hc) as (e' & q1 & s1 & A).
      rewrite A. cbn [mbind Outcome_bind].
      pose proof (applyQualityFilter_cases _ _ _ _ _ _ _ A)
        as (P1 & L1 & M1 & E1 & _ & _ & _).
      unfold survives at 1. rewrite Hc. cbn [andb].
      assert (Hl1 : active p 2 = true -> m_QFSearchLib s1 = Some lib0)
        by (intros Ha; rewrite L1; auto).
      assert (Hpass1 : forall e0, passAllFilters s1 e0 = pass e0).
      { intros e0. rewrite <- Hpass. apply passAllFilters_same; assumption. }
      destruct (survivesAt k fl).
      * destruct (IH (insertEntry (processEntry s1 e') s1) q1)
          as (s' & q' & -> & Hlen); try assumption.
        { cbn [insertEntry m_params]. congruence. }
        do 2 eexists. split; [reflexivity|]. rewrite Hlen.
        cbn [insertEntry lib_entries length]. rewrite length_app, E1.
        fold (survivors p (Some lib0) pass k l). cbn [length]. lia.
      * destruct (IH s1 q1) as (s' & q' & -> & Hlen); try assumption.
        { congruence. }
        do 2 eexists. split; [reflexivity|]. rewrite Hlen, E1. reflexivity.
    + cbn [andb]. apply IH; assumption.
Qed.


(** *** A run of the quality filter on one library *)

(** The importer as the loop of [doQualityFilter] starts. *)
Definition loopEntry (f : InputFile) (p : Params) : Importer :=
  let s2 := writePreamble
              (openSplibs true true true true
                 (putDescription (construct [f] p))) in
  if (2 <=? qualityLevelMark p) || (2 <=? qualityLevelRemove p)
  then setQFSearchLib (Some (openLib (head (m_impFiles s2)))) s2
  else s2.

Lemma doQualityFilter_single f lib p :
  content f = Some lib -> isUniqueLibrary (pepidx lib) = true ->
  doQualityFilter (construct [f] p)
  = ('(s4, qfstats) ← qualityFilterLoop (mzidx lib) (loopEntry f p)
                                         qfstats_zero;
     if (5 <=? qualityLevelMark p) && (qualityLevelRemove p =? 0)
     then Done (logQFStats qfstats s4)
     else Done s4).
Proof.
  intros Hf Hu. unfold doQualityFilter, loopEntry.
  cbn [construct m_impFiles length Z.of_nat Pos.of_succ_nat Z.eqb Pos.eqb negb].
  pose proof (openSplibs_stores true true true true [f]
                (putDescription (construct [f] p))) as Hst.
  cbv zeta in Hst.
  change (fold_left (openOne true true true true) [f]
            (putDescription (construct [f] p)))
    with (openSplibs true true true true (putDescription (construct [f] p)))
    in Hst.
  set (s1 := openSplibs true true true true _) in *.
  destruct Hst as (Hpep & Hmz & Hfin & Hpar & _). clearbody s1.
  cbn [putDescription construct logMsg pushPreamble m_pepIndices m_mzIndices
       m_splibFins m_params app map] in Hpep, Hmz, Hfin, Hpar.
  unfold pepIndexOf in Hpep. unfold mzIndexOf in Hmz.
  rewrite Hf in Hpep, Hmz, Hfin. rewrite Hu in Hpep. cbn in Hpep.
  rewrite Hpep, Hmz, Hfin. cbn [nth].
  cbn [writePreamble m_params]. rewrite Hpar. reflexivity.
Qed.

Lemma loopEntry_fields f lib p :
  content f = Some lib ->
  m_params (loopEntry f p) = p
  /\ m_QFSearchLib (loopEntry f p)
     = (if (2 <=? qualityLevelMark p) || (2 <=? qualityLevelRemove p)
        then Some lib else None)
  /\ m_count (loopEntry f p) = 0
  /\ lib_entries (loopEntry f p) = [].
Proof.
  intros Hf. unfold loopEntry.
  pose proof (openSplibs_stores true true true true [f]
                (putDescription (construct [f] p))) as Hst.
  cbv zeta in Hst.
  change (fold_left (openOne true true true true) [f]
            (putDescription (construct [f] p)))
    with (openSplibs true true true true (putDescription (construct [f] p)))
    in Hst.
  set (s1 := openSplibs true true true true _) in *.
  destruct Hst as (_ & _ & _ & Hpar & Hent & _ & _ & _ & Hcnt & Himp & Hqf).
  clearbody s1.
  cbn [putDescription construct logMsg pushPreamble m_params lib_entries
       m_count m_impFiles m_QFSearchLib] in Hpar, Hent, Hcnt, Himp, Hqf.
  destruct (_ || _);
    cbn [setQFSearchLib writePreamble m_params m_QFSearchLib m_count
         lib_entries m_impFiles];
    rewrite ?Himp; cbn [head openLib]; auto.
  destruct f as [fname [lib'|]]; cbn in Hf |- *; [|discriminate].
  injection Hf as ->. auto.
Qed.

(** What the filters read is the same whatever the quality levels. *)
Lemma openOne_ppMappings a b c d s s' f :
  m_ppMappings s' = m_ppMappings s ->
  refreshDatabase (m_params s') = refreshDatabase (m_params s) ->
  m_ppMappings (openOne a b c d s' f) = m_ppMappings (openOne a b c d s f).
Proof.
  intros Hm Hr. unfold openOne. rewrite Hr.
  destruct (content f) as [lib|]; [|exact Hm].
  destruct (if b || c || _ then _ else _) as [idx|]; [|exact Hm].
  destruct (d && _); [|exact Hm].
  cbn. unfold addSequencesForRefresh. cbn. rewrite Hm. reflexivity.
Qed.

Lemma loopEntry_opened f p :
  m_ppMappings (loopEntry f p)
  = m_ppMappings (openOne true true true true
                    (putDescription (construct [f] p)) f).
Proof. unfold loopEntry. destruct (_ || _); reflexivity. Qed.

Lemma loopEntry_ppMappings f p m k :
  m_ppMappings (loopEntry f (setQualityLevels m k p))
  = m_ppMappings (loopEntry f p).
Proof.
  rewrite !loopEntry_opened. apply openOne_ppMappings; reflexivity.
Qed.

Lemma passAllFilters_levels s sk m k e :
  m_params sk = setQualityLevels m k (m_params s) ->
  m_ppMappings sk = m_ppMappings s ->
  (forall e, basePassAllFilters (setQualityLevels m k (m_params s)) e
             = basePassAllFilters (m_params s) e) ->
  passAllFilters sk e = passAllFilters s e.
Proof.
  intros Hp Hm Hb. unfold passAllFilters. rewrite Hp, Hm, Hb. reflexivity.
Qed.

Lemma concerns_levels m k p lib e :
  concerns (setQualityLevels m k p) lib e = concerns p lib e.
Proof. reflexivity. Qed.

Lemma remainingAt_zero k : remainingAt k 0 qfstats_zero = 0.
Proof.
  unfold remainingAt. repeat destruct (k =? _); reflexivity.
Qed.


Lemma survivors_length p lib pass k l :
  (length (survivors p lib pass k l) <= length l)%nat.
Proof. apply List.filter_length_le. Qed.


(** *** The peak quorum, after the levels *)

(** C2 (as amended). The peak quorum is enforced on the entries that reach
    the end of the cascade: an entry that is not immune and is kept, marked
    or not, comes back with the peaks seen in fewer than
    [(unsigned int)(n * peakQuorum - 0.00001) + 1] replicates (at least 1)
    pruned, [n] being its replicate count. An immune entry is returned before
    any level and keeps its peak list as it is. The threshold is computed in
    doubles; it is the ceiling of [n * peakQuorum], with a floor of 1, when
    the product is at most 1 or lies at least 0.000012 above the integer
    below it (a product that is an integer lies 1 above that integer). *)
Theorem C2_peak_quorum_unless_immune s e q b e' q' s' :
  applyQualityFilter s e q = Done (b, e', q', s') ->
  let p := m_params s in
  let n := u32 (nrepsUsed e) in
  let x := (inject_Z n * roundDouble (peakQuorum p))%Q in
  (immune p e = true -> b = true /\ peakList e' = peakList e)
  /\ (immune p e = false -> b = true ->
      peakList e'
      = removeInquoratePeaks (minNumRepWithPeak p n) (peakList e))
  /\ ((0 <= roundDouble (peakQuorum p))%Q ->
      (roundDouble (peakQuorum p) <= 1)%Q ->
      (x <= 1 \/ (12 # 1000000) <= x - inject_Z (Qceiling x - 1))%Q ->
      minNumRepWithPeak p n = Z.max 1 (Qceiling x)).
Proof.
  intros H. cbv zeta.
  apply applyQualityFilter_cases in H as (_ & _ & _ & _ & _ & _ & H).
  split; [|split].
  - intros Him. rewrite Him in H. destruct H as [-> ->]. split; reflexivity.
  - intros Him Hb. rewrite Him in H. exact (H Hb).
  - intros H0 H1 Hx. apply (minNumRepWithPeak_ceiling _ _); try assumption.
    unfold u32. apply Z.mod_pos_bound. reflexivity.
Qed.

End Props.

(** * Further properties of the importer *)
Section MoreProps.
Context `{C : Collaborators}.

(** ** INTERSECT and SUBTRACT *)

(** The peptide indices [openSplibs] leaves for [import]: one slot per
    input file, empty for a file that cannot be opened. *)
Definition indicesOf (files : list InputFile) : list (option PepIndex) :=
  map (fun f => option_map pepidx (content f)) files.

(** The peptide ion is in every other index that was opened. *)
Definition inEveryOther (others : list InputFile) (peptide k : string) : bool :=
  forallb (fun f => match content f with
                    | Some lib => isInIndex (pepidx lib) peptide k
                    | None => true
                    end) others.

(** The peptide ion is in no other index that was opened. *)
Definition inNoOther (others : list InputFile) (peptide k : string) : bool :=
  forallb (fun f => match content f with
                    | Some lib => negb (isInIndex (pepidx lib) peptide k)
                    | None => true
                    end) others.

(** The entries of a peptide ion in all the indices that were opened, in
    the order of the input files. *)
Definition fromAll (files : list InputFile) (peptide k : string) : list Entry :=
  flat_map (fun f => match content f with
                     | Some lib => retrieve (pepidx lib) peptide k
                     | None => []
                     end) files.

Lemma indicesOf_opened files p :
  map (pepIndexOf true false true p) files = indicesOf files.
Proof.
  unfold indicesOf. apply map_ext. intros f. unfold pepIndexOf.
  destruct (content f); reflexivity.
Qed.

Lemma retrieveAll_plain p files peptide k : forall acc,
  String.eqb (combineAction p) "APPEND" = false ->
  String.eqb (combineAction p) "SUBTRACT" = false ->
  retrieveAll p (indicesOf files) peptide k acc
  = acc ++ fromAll files peptide k.
Proof.
  intros acc Ha Hs. revert acc.
  induction files as [|f files IH]; intros acc; cbn.
  - rewrite app_nil_r. reflexivity.
  - rewrite Ha, Hs, andb_false_r. cbn. rewrite IH.
    destruct (content f); cbn; [rewrite app_assoc|]; reflexivity.
Qed.

Lemma retrieveAll_subtract p idx rest peptide k :
  combineAction p = "SUBTRACT" ->
  retrieveAll p (Some idx :: rest) peptide k [] = retrieve idx peptide k.
Proof.
  intros Hc. cbn. rewrite Hc. cbn. reflexivity.
Qed.

(** One pass over the first index when there is no build action, [taken]
    telling which peptide ions the combine action includes. *)
Section OnePass.
Variables (p : Params) (indices : list (option PepIndex)).
Hypothesis Hbuild : buildAction p = EmptyString.

Definition passState (s : Importer) : Prop :=
  m_params s = p /\ m_pepIndices s = indices.

Lemma passState_config s s' : sameConfig s s' -> passState s -> passState s'.
Proof. unfold sameConfig, passState. intuition congruence. Qed.

Variable taken : string -> string -> bool.
Hypothesis Htaken : forall s peptide k,
  passState s -> includeKey s 0 peptide k = taken peptide k.

Definition taking (peptide k : string) : list Entry :=
  if taken peptide k then retrieveAll p indices peptide k [] else [].

Lemma onePass_subkey s peptide k :
  passState s ->
  exists s', importSubkey 0 peptide s k = Done s' /\ sameConfig s s'
             /\ lib_entries s' = lib_entries s ++ written s (taking peptide k).
Proof.
  intros Hs. unfold importSubkey, taking. rewrite (Htaken s peptide k Hs).
  destruct Hs as [Hp Hi].
  destruct (taken peptide k).
  - cbn [incCount m_params m_pepIndices]. rewrite Hp, Hi.
    unfold doBuildAction. cbn [incCount m_params]. rewrite Hp, Hbuild.
    cbn [String.eqb].
    destruct (fold_insertFiltered (retrieveAll p indices peptide k [])
                (incCount s)) as (Hc & He).
    eexists. split; [reflexivity|]. split.
    + eapply sameConfig_trans; [|exact Hc]. repeat split.
    + rewrite He. reflexivity.
  - exists s. split; [reflexivity|]. split; [apply sameConfig_refl|].
    cbn. rewrite app_nil_r. reflexivity.
Qed.

Lemma onePass idx s :
  passState s -> nth 0 indices None = Some idx ->
  exists s', importPass s 0 = Done s' /\ sameConfig s s'
    /\ lib_entries s' =
       lib_entries s
       ++ flat_map (fun ion => written s (taking ion.1.1 ion.1.2))
                   (peptideIons idx).
Proof.
  intros Hs Hidx. unfold importPass. destruct Hs as [Hp Hi]. rewrite Hi, Hidx.
  assert (passState s) as Hs by (split; assumption).
  destruct (foldM_written passState (importPeptide 0)
              (fun ps => flat_map (fun k => taking (fst ps) k) (map fst (snd ps)))
              idx passState_config) with (s := s)
    as (s' & Hf & Hc & He); [|exact Hs|].
  - intros s0 ps _ Hs0. unfold importPeptide.
    destruct (foldM_written passState (importSubkey 0 (fst ps))
                (fun k => taking (fst ps) k) (map fst (snd ps))
                passState_config) with (s := s0)
      as (s1 & Hf1 & Hc1 & He1); [|exact Hs0|].
    + intros s2 k _ Hs2. apply onePass_subkey. exact Hs2.
    + exists s1. split; [exact Hf1|]. split; [exact Hc1|]. rewrite He1.
      f_equal. symmetry. apply written_flat_map.
  - exists s'. split; [exact Hf|]. split; [exact Hc|]. rewrite He. f_equal.
    unfold peptideIons. rewrite flat_map_flat_map.
    apply flat_map_ext. intros ps. rewrite written_flat_map, !flat_map_map.
    reflexivity.
Qed.

End OnePass.

(** A run that combines by INTERSECT or SUBTRACT with no build action, as
    far as the pass over the first index. *)
Lemma run_one_pass f1 others lib1 p taken :
  content f1 = Some lib1 ->
  isUnionLike p = false ->
  String.eqb (combineAction p) "SUBTRACT_HOMOLOGS" = false ->
  buildAction p = EmptyString ->
  (forall s peptide k,
     passState p (indicesOf (f1 :: others)) s ->
     includeKey s 0 peptide k = taken peptide k) ->
  exists s',
    run (f1 :: others) p = Done s'
    /\ lib_entries s' =
       flat_map (fun ion =>
                   written s' (taking p (indicesOf (f1 :: others)) taken
                                      ion.1.1 ion.1.2))
                (peptideIons (pepidx lib1)).
Proof.
  intros H1 Hu Hsh Hbuild Htaken.
  unfold run, import. cbn [m_params construct]. rewrite Hsh, Hbuild.
  cbn [String.eqb andb].
  set (s1 := putDescription (construct (f1 :: others) p)).
  set (s2 := openSplibs false true false true s1).
  pose proof (openSplibs_stores false true false true (f1 :: others) s1) as Hst.
  cbv zeta in Hst.
  change (fold_left (openOne false true false true) (f1 :: others) s1)
    with s2 in Hst.
  destruct Hst as (Hpi & _ & _ & Hpar & Hent & _ & Hsing & _).
  change (m_pepIndices s1) with (@nil (option PepIndex)) in Hpi.
  change (m_params s1) with p in Hpi, Hpar.
  change (lib_entries s1) with (@nil Entry) in Hent.
  change (m_singletonPeptideIons s1) with (@nil (string * string)) in Hsing.
  clearbody s2. clear s1.
  cbn [app] in Hpi. rewrite indicesOf_opened in Hpi.
  set (indices := indicesOf (f1 :: others)) in *.
  set (s3 := if nonEmpty (refreshDatabase p)
             then refresh (writePreamble s2) else writePreamble s2).
  assert (passState p indices s3 /\ lib_entries s3 = []
          /\ m_singletonPeptideIons s3 = []) as (Hs3 & He3 & Hsi3).
  { assert (passState p indices (writePreamble s2)
            /\ lib_entries (writePreamble s2) = []
            /\ m_singletonPeptideIons (writePreamble s2) = []) as Hw.
    { unfold passState. cbn [writePreamble m_params m_pepIndices lib_entries
                              m_singletonPeptideIons].
      rewrite Hpi, Hpar, Hent, Hsing. auto. }
    unfold s3. destruct (nonEmpty _); [|exact Hw].
    destruct (refresh_keeps (writePreamble s2)) as (R1 & R2 & R3 & R4).
    unfold passState. rewrite R1, R2, R3, R4. exact Hw. }
  assert (Hidx : nth 0 indices None = Some (pepidx lib1)).
  { unfold indices, indicesOf. cbn. rewrite H1. reflexivity. }
  destruct Hs3 as [Hp3 Hi3]. rewrite Hi3, Hidx.
  assert (passState p indices s3) as Hs3 by (split; assumption).
  unfold importPasses. rewrite Hp3, Hu.
  destruct (onePass p indices Hbuild taken Htaken (pepidx lib1) s3 Hs3 Hidx)
    as (s4 & -> & Hc4 & He4).
  cbn [mbind Outcome_bind].
  assert (m_singletonPeptideIons s4 = []) as Hs4.
  { destruct Hc4 as (_ & _ & _ & _ & _ & -> & _). exact Hsi3. }
  exists s4. split.
  { destruct (m_denoiser s4); [rewrite Hs4|]; reflexivity. }
  rewrite He4, He3. cbn [app].
  apply flat_map_ext. intros ion. symmetry. apply written_config. exact Hc4.
Qed.

Lemma peptideIons_In idx ion :
  In ion (peptideIons idx) ->
  exists sks, In (ion.1.1, sks) idx /\ In (ion.1.2, ion.2) sks.
Proof.
  unfold peptideIons. intros H.
  apply in_flat_map in H as ([peptide sks] & Hi & H). cbn in H.
  apply in_map_iff in H as ([k es] & <- & Hk). cbn. eauto.
Qed.

Lemma forallb_indicesOf (g : PepIndex -> bool) others :
  forallb (fun i => match i with Some idx => g idx | None => true end)
          (indicesOf others)
  = forallb (fun f => match content f with
                      | Some lib => g (pepidx lib)
                      | None => true
                      end) others.
Proof.
  unfold indicesOf.
  induction others as [|f others IH]; [reflexivity|]. cbn [map forallb].
  rewrite IH. destruct (content f); reflexivity.
Qed.

(** X1. SUBTRACT with no build action writes the entries of the first input
    whose peptide ion is in no other input that could be opened, in the
    order of its peptide index, those that pass the filters; nothing is
    taken from the other inputs. *)
Theorem subtract_writes_ions_absent_from_others f1 others lib1 p :
  content f1 = Some lib1 ->
  combineAction p = "SUBTRACT" -> buildAction p = EmptyString ->
  wfIndex (pepidx lib1) ->
  exists s',
    run (f1 :: others) p = Done s'
    /\ lib_entries s' =
       written s'
         (flat_map (fun ion => if inNoOther others ion.1.1 ion.1.2
                               then ion.2 else [])
                   (peptideIons (pepidx lib1))).
Proof.
  intros H1 Hc Hb Hwf.
  destruct (run_one_pass f1 others lib1 p (inNoOther others) H1)
    as (s' & Hrun & He); try (rewrite ?Hc; reflexivity); try assumption.
  { unfold isUnionLike. rewrite Hc. reflexivity. }
  { intros s peptide k [Hp Hi]. unfold includeKey, isUnionLike.
    rewrite Hp, Hi, Hc. cbn [String.eqb Ascii.eqb Bool.eqb orb andb].
    cbn [indicesOf map tl].
    apply (forallb_indicesOf (fun idx => negb (isInIndex idx peptide k))). }
  exists s'. split; [exact Hrun|]. rewrite He, written_flat_map.
  apply flat_map_ext_In. intros ion Hin.
  destruct (peptideIons_In _ _ Hin) as (sks & Hi & Hk).
  unfold taking. destruct (inNoOther others _ _); [|reflexivity].
  cbn [indicesOf map]. rewrite H1. cbn [option_map].
  rewrite (retrieveAll_subtract p _ _ _ _ Hc).
  rewrite (retrieve_wf _ _ _ _ _ Hwf Hi Hk). reflexivity.
Qed.

(** X2. INTERSECT with no build action writes, for each peptide ion of the
    first input that is in every other input that could be opened, the
    entries of that ion from all the inputs, in the order of the files;
    an input that cannot be opened does not restrict the intersection. *)
Theorem intersect_writes_ions_present_in_all f1 others lib1 p :
  content f1 = Some lib1 ->
  combineAction p = "INTERSECT" -> buildAction p = EmptyString ->
  exists s',
    run (f1 :: others) p = Done s'
    /\ lib_entries s' =
       written s'
         (flat_map (fun ion => if inEveryOther others ion.1.1 ion.1.2
                               then fromAll (f1 :: others) ion.1.1 ion.1.2
                               else [])
                   (peptideIons (pepidx lib1))).
Proof.
  intros H1 Hc Hb.
  destruct (run_one_pass f1 others lib1 p (inEveryOther others) H1)
    as (s' & Hrun & He); try (rewrite ?Hc; reflexivity); try assumption.
  { unfold isUnionLike. rewrite Hc. reflexivity. }
  { intros s peptide k [Hp Hi]. unfold includeKey, isUnionLike.
    rewrite Hp, Hi, Hc. cbn [String.eqb Ascii.eqb Bool.eqb orb andb].
    cbn [indicesOf map tl].
    apply (forallb_indicesOf (fun idx => isInIndex idx peptide k)). }
  exists s'. split; [exact Hrun|]. rewrite He, written_flat_map.
  apply flat_map_ext. intros ion.
  unfold taking. destruct (inEveryOther others _ _); [|reflexivity].
  rewrite retrieveAll_plain by (rewrite Hc; reflexivity). reflexivity.
Qed.

(** ** BEST_REPLICATE and CONSENSUS on one library *)

(** What [doBuildAction] makes of the entries of one peptide ion when no
    denoiser is in use. *)
Definition reducedBy (p : Params) (entries : list Entry) : list Entry :=
  if String.eqb (buildAction p) "BEST_REPLICATE" then
    option_list (findBestReplicate p entries)
  else if String.eqb (buildAction p) "CONSENSUS" then
    option_list (makeConsensusSpectrum p None entries)
  else entries.

Lemma doBuildAction_reduced s entries :
  m_denoiser s = None ->
  exists s', doBuildAction entries s = Done s' /\ sameConfig s s'
             /\ lib_entries s' = lib_entries s
                                 ++ written s (reducedBy (m_params s) entries).
Proof.
  intros Hd. unfold doBuildAction, reducedBy.
  destruct (String.eqb (buildAction (m_params s)) "BEST_REPLICATE").
  - destruct (findBestReplicate (m_params s) entries) as [best|];
      cbn [option_list].
    + exists (insertFiltered s best). split; [reflexivity|].
      split; [apply insertFiltered_config|].
      unfold insertFiltered, written.
      destruct (passAllFilters s best) eqn:E; cbn; rewrite E; cbn;
        [reflexivity|].
      rewrite app_nil_r. reflexivity.
    + exists s. split; [reflexivity|]. split; [apply sameConfig_refl|].
      cbn. rewrite app_nil_r. reflexivity.
  - destruct (String.eqb (buildAction (m_params s)) "CONSENSUS").
    + rewrite Hd. cbn [option_map].
      assert (Hc : sameConfig s (setDenoiser None s)).
      { unfold sameConfig. cbn. rewrite Hd. repeat split. }
      destruct (makeConsensusSpectrum (m_params s) None entries) as [c|];
        cbn [option_list].
      * unfold written.
        rewrite (passAllFilters_config _ _ c Hc).
        destruct (passAllFilters s c) eqn:E.
        -- cbn [setDenoiser m_denoiser]. eexists. split; [reflexivity|].
           split; [exact Hc|]. cbn. rewrite E. cbn.
           rewrite (processEntry_config _ _ c Hc). reflexivity.
        -- eexists. split; [reflexivity|]. split; [exact Hc|].
           cbn. rewrite E. cbn. rewrite app_nil_r. reflexivity.
      * eexists. split; [reflexivity|]. split; [exact Hc|].
        cbn. rewrite app_nil_r. reflexivity.
    + destruct (fold_insertFiltered entries s) as (Hc & He).
      eexists. split; [reflexivity|]. split; [exact Hc|exact He].
Qed.

(** One pass over the first index with no denoiser, every peptide ion
    being included. *)
Section BuildPass.
Variables (p : Params) (indices : list (option PepIndex)).

Definition buildState (s : Importer) : Prop :=
  m_params s = p /\ m_pepIndices s = indices /\ m_denoiser s = None.

Lemma buildState_config s s' : sameConfig s s' -> buildState s -> buildState s'.
Proof. unfold sameConfig, buildState. intuition congruence. Qed.

Hypothesis Hall : forall s peptide k,
  buildState s -> includeKey s 0 peptide k = true.

Lemma buildPass_subkey s peptide k :
  buildState s ->
  exists s', importSubkey 0 peptide s k = Done s' /\ sameConfig s s'
             /\ lib_entries s'
                = lib_entries s
                  ++ written s (reducedBy p (retrieveAll p indices peptide k [])).
Proof.
  intros Hs. unfold importSubkey. rewrite (Hall s peptide k Hs).
  destruct Hs as (Hp & Hi & Hd).
  cbn [incCount m_params m_pepIndices]. rewrite Hp, Hi.
  destruct (doBuildAction_reduced (incCount s)
              (retrieveAll p indices peptide k []) Hd)
    as (s' & Hr & Hc & He).
  exists s'. split; [exact Hr|]. split.
  - eapply sameConfig_trans; [|exact Hc]. repeat split.
  - rewrite He. cbn [incCount m_params lib_entries]. rewrite Hp. reflexivity.
Qed.

Lemma buildPass idx s :
  buildState s -> nth 0 indices None = Some idx ->
  exists s', importPass s 0 = Done s' /\ sameConfig s s'
    /\ lib_entries s' =
       lib_entries s
       ++ flat_map (fun ion =>
                      written s (reducedBy p
                                   (retrieveAll p indices ion.1.1 ion.1.2 [])))
                   (peptideIons idx).
Proof.
  intros Hs Hidx. unfold importPass.
  destruct Hs as (Hp & Hi & Hd). rewrite Hi, Hidx.
  assert (buildState s) as Hs by (repeat split; assumption).
  destruct (foldM_written buildState (importPeptide 0)
              (fun ps => flat_map (fun k =>
                                     reducedBy p (retrieveAll p indices
                                                    (fst ps) k []))
                                  (map fst (snd ps)))
              idx buildState_config) with (s := s)
    as (s' & Hf & Hc & He); [|exact Hs|].
  - intros s0 ps _ Hs0. unfold importPeptide.
    destruct (foldM_written buildState (importSubkey 0 (fst ps))
                (fun k => reducedBy p (retrieveAll p indices (fst ps) k []))
                (map fst (snd ps)) buildState_config) with (s := s0)
      as (s1 & Hf1 & Hc1 & He1); [|exact Hs0|].
    + intros s2 k _ Hs2. apply buildPass_subkey. exact Hs2.
    + exists s1. split; [exact Hf1|]. split; [exact Hc1|]. rewrite He1.
      f_equal. symmetry. apply written_flat_map.
  - exists s'. split; [exact Hf|]. split; [exact Hc|]. rewrite He. f_equal.
    unfold peptideIons. rewrite flat_map_flat_map.
    apply flat_map_ext. intros ps. rewrite written_flat_map, !flat_map_map.
    reflexivity.
Qed.

End BuildPass.

Lemma refresh_denoiser s : m_denoiser (refresh s) = m_denoiser s.
Proof. unfold refresh. destruct (m_ppMappings s); reflexivity. Qed.

Lemma retrieveAll_single p idx peptide k :
  retrieveAll p [Some idx] peptide k [] = retrieve idx peptide k.
Proof.
  cbn. destruct (_ && _); [reflexivity|].
  destruct (String.eqb (combineAction p) "SUBTRACT"); reflexivity.
Qed.

Lemma includeKey_single s peptide k idx :
  m_pepIndices s = [idx] -> includeKey s 0 peptide k = true.
Proof.
  intros Hi. unfold includeKey. rewrite Hi. cbn.
  destruct (isUnionLike (m_params s)); [reflexivity|].
  destruct (String.eqb (combineAction (m_params s)) "INTERSECT");
    [reflexivity|].
  destruct (String.eqb (combineAction (m_params s)) "SUBTRACT"); reflexivity.
Qed.

Lemma length_written s l : (length (written s l) <= length l)%nat.
Proof.
  unfold written. rewrite length_map. apply List.filter_length_le.
Qed.

Lemma length_flat_map_le {A B : Type} (g : A -> list B) (l : list A) :
  (forall x, length (g x) <= 1)%nat ->
  (length (flat_map g l) <= length l)%nat.
Proof.
  intros Hg. induction l as [|x l IH]; [reflexivity|].
  cbn [flat_map]. rewrite length_app. cbn [length]. specialize (Hg x). lia.
Qed.

(** X4. Building the best replicate or the consensus of one library, without
    the denoiser: for every peptide ion of the library, in the order of its
    peptide index, the run writes the one entry the build action makes of
    the ion's entries, if there is one and it passes the filters. The
    output holds at most one entry per peptide ion. *)
Theorem single_library_build_one_entry_per_ion f lib p :
  content f = Some lib ->
  String.eqb (combineAction p) "SUBTRACT_HOMOLOGS" = false ->
  buildAction p = "BEST_REPLICATE" \/ buildAction p = "CONSENSUS" ->
  useBayesianDenoiser p = false ->
  wfIndex (pepidx lib) ->
  exists s',
    run [f] p = Done s'
    /\ lib_entries s' =
       written s' (flat_map (fun ion => reducedBy p ion.2)
                            (peptideIons (pepidx lib)))
    /\ (length (lib_entries s') <= length (peptideIons (pepidx lib)))%nat.
Proof.
  intros H1 Hsh Hb Hden Hwf.
  assert (Hone : forall entries, (length (reducedBy p entries) <= 1)%nat).
  { intros entries. unfold reducedBy.
    destruct Hb as [-> | ->]; cbn [String.eqb Ascii.eqb Bool.eqb andb].
    - destruct (findBestReplicate p entries); cbn; lia.
    - destruct (makeConsensusSpectrum p None entries); cbn; lia. }
  assert (Hspecial :
    String.eqb (buildAction p) "QUALITY_FILTER" = false
    /\ String.eqb (buildAction p) "DECOY" = false
    /\ String.eqb (buildAction p) "SORT_BY_NREPS" = false
    /\ String.eqb (buildAction p) "USER_SPECIFIED_MODS" = false
    /\ String.eqb (buildAction p) "SIMILARITY_CLUSTERING" = false).
  { destruct Hb as [-> | ->]; repeat split. }
  destruct Hspecial as (B1 & B2 & B3 & B4 & B5).
  unfold run, import. cbn [m_params construct].
  rewrite Hsh, B1, B2, B3, B4, B5. cbn [andb].
  set (s1 := putDescription (construct [f] p)).
  set (s2 := openSplibs false true false true s1).
  pose proof (openSplibs_stores false true false true [f] s1) as Hst.
  cbv zeta in Hst.
  change (fold_left (openOne false true false true) [f] s1) with s2 in Hst.
  destruct Hst as (Hpi & _ & _ & Hpar & Hent & _ & Hsing & Hd & _).
  change (m_pepIndices s1) with (@nil (option PepIndex)) in Hpi.
  change (m_params s1) with p in Hpi, Hpar.
  change (lib_entries s1) with (@nil Entry) in Hent.
  change (m_singletonPeptideIons s1) with (@nil (string * string)) in Hsing.
  assert (Hd1 : m_denoiser s1 = None).
  { unfold s1, putDescription, construct. cbn. rewrite Hden. reflexivity. }
  rewrite Hd1 in Hd.
  clearbody s2. clear s1 Hd1.
  cbn [app map] in Hpi. unfold pepIndexOf in Hpi. rewrite H1 in Hpi.
  cbn [orb andb] in Hpi.
  set (indices := [Some (pepidx lib)]) in *.
  set (s3 := if nonEmpty (refreshDatabase p)
             then refresh (writePreamble s2) else writePreamble s2).
  assert (buildState p indices s3 /\ lib_entries s3 = []
          /\ m_singletonPeptideIons s3 = []) as (Hs3 & He3 & Hsi3).
  { assert (buildState p indices (writePreamble s2)
            /\ lib_entries (writePreamble s2) = []
            /\ m_singletonPeptideIons (writePreamble s2) = []) as Hw.
    { unfold buildState. cbn [writePreamble m_params m_pepIndices lib_entries
                               m_singletonPeptideIons m_denoiser].
      rewrite Hpi, Hpar, Hent, Hsing, Hd. auto. }
    unfold s3. destruct (nonEmpty _); [|exact Hw].
    destruct (refresh_keeps (writePreamble s2)) as (R1 & R2 & R3 & R4).
    unfold buildState. rewrite R1, R2, R3, R4, refresh_denoiser. exact Hw. }
  clearbody s3.
  assert (Hidx : nth 0 indices None = Some (pepidx lib)) by reflexivity.
  destruct Hs3 as (Hp3 & Hi3 & Hd3). rewrite Hi3, Hidx.
  assert (buildState p indices s3) as Hs3 by (repeat split; assumption).
  destruct (buildPass p indices) with (idx := pepidx lib) (s := s3)
    as (s4 & Hpass & Hc4 & He4); [|exact Hs3|exact Hidx|].
  { intros s peptide k (_ & Hi & _).
    apply includeKey_single with (Some (pepidx lib)). exact Hi. }
  assert (Hpasses : importPasses s3 = Done s4).
  { unfold importPasses. rewrite Hi3. cbn [indices length seq foldM].
    rewrite Hpass. destruct (isUnionLike (m_params s3)); reflexivity. }
  rewrite Hpasses. cbn [mbind Outcome_bind].
  assert (m_denoiser s4 = None) as Hd4.
  { destruct Hc4 as (_ & _ & _ & _ & -> & _). exact Hd3. }
  rewrite Hd4. exists s4. split; [reflexivity|].
  assert (Hwr : lib_entries s4
                = written s4 (flat_map (fun ion => reducedBy p ion.2)
                                       (peptideIons (pepidx lib)))).
  { rewrite He4, He3. cbn [app]. rewrite written_flat_map.
    apply flat_map_ext_In. intros ion Hin.
    destruct (peptideIons_In _ _ Hin) as (sks & Hi & Hk).
    rewrite (written_config _ _ _ Hc4). unfold indices.
    rewrite retrieveAll_single.
    rewrite (retrieve_wf _ _ _ _ _ Hwf Hi Hk). reflexivity. }
  split; [exact Hwr|]. rewrite Hwr.
  etransitivity; [apply length_written|].
  apply length_flat_map_le. intros ion. apply Hone.
Qed.

(** ** APPEND of a library with a copy of itself *)
Section AppendSelf.
Variables (p : Params) (idx : PepIndex).
Hypothesis Hcombine : combineAction p = "APPEND".
Hypothesis Hbuild : buildAction p = EmptyString.

Definition appendState (s : Importer) : Prop :=
  m_params s = p /\ m_pepIndices s = [Some idx; Some idx].

Lemma appendState_config s s' :
  sameConfig s s' -> appendState s -> appendState s'.
Proof. unfold sameConfig, appendState. intuition congruence. Qed.

(** The retrieval stops at the first index that yields entries, and the
    second index has nothing the first has not. *)
Lemma retrieveAll_append_self peptide k :
  retrieveAll p [Some idx; Some idx] peptide k [] = retrieve idx peptide k.
Proof.
  cbn. rewrite Hcombine. cbn.
  destruct (retrieve idx peptide k) as [|e es] eqn:E; cbn; [|reflexivity].
  reflexivity.
Qed.

Lemma append_included s cur peptide k :
  appendState s -> includeKey s cur peptide k = true ->
  exists s', importSubkey cur peptide s k = Done s' /\ sameConfig s s'
             /\ lib_entries s'
                = lib_entries s ++ written s (retrieve idx peptide k).
Proof.
  intros [Hp Hi] Hinc. unfold importSubkey. rewrite Hinc.
  cbn [incCount m_params m_pepIndices]. rewrite Hp, Hi.
  rewrite retrieveAll_append_self.
  unfold doBuildAction. cbn [incCount m_params]. rewrite Hp, Hbuild.
  cbn [String.eqb].
  destruct (fold_insertFiltered (retrieve idx peptide k) (incCount s))
    as (Hc & He).
  eexists. split; [reflexivity|]. split.
  - eapply sameConfig_trans; [|exact Hc]. repeat split.
  - rewrite He. reflexivity.
Qed.

Lemma append_pass0_subkey s peptide k :
  appendState s ->
  exists s', importSubkey 0 peptide s k = Done s' /\ sameConfig s s'
             /\ lib_entries s'
                = lib_entries s ++ written s (retrieve idx peptide k).
Proof.
  intros Hs. apply append_included; [exact Hs|].
  destruct Hs as [Hp _]. unfold includeKey, isUnionLike.
  rewrite Hp, Hcombine. reflexivity.
Qed.

Lemma append_pass0 s :
  appendState s ->
  exists s', importPass s 0 = Done s' /\ sameConfig s s'
    /\ lib_entries s' =
       lib_entries s
       ++ flat_map (fun ps =>
                      flat_map (fun k => written s (retrieve idx (fst ps) k))
                               (map fst (snd ps))) idx.
Proof.
  intros Hs. unfold importPass. destruct Hs as [Hp Hi]. rewrite Hi. cbn [nth].
  assert (appendState s) as Hs by (split; assumption).
  destruct (foldM_written appendState (importPeptide 0)
              (fun ps => flat_map (fun k => retrieve idx (fst ps) k)
                                  (map fst (snd ps)))
              idx appendState_config) with (s := s)
    as (s' & Hf & Hc & He); [|exact Hs|].
  - intros s0 ps _ Hs0. unfold importPeptide.
    destruct (foldM_written appendState (importSubkey 0 (fst ps))
                (fun k => retrieve idx (fst ps) k) (map fst (snd ps))
                appendState_config) with (s := s0)
      as (s1 & Hf1 & Hc1 & He1); [|exact Hs0|].
    + intros s2 k _ Hs2. apply append_pass0_subkey. exact Hs2.
    + exists s1. split; [exact Hf1|]. split; [exact Hc1|]. rewrite He1.
      f_equal. symmetry. apply written_flat_map.
  - exists s'. split; [exact Hf|]. split; [exact Hc|]. rewrite He. f_equal.
    apply flat_map_ext. intros ps. apply written_flat_map.
Qed.

Lemma append_pass1_subkey s peptide k :
  appendState s -> covered idx s ->
  exists s', importSubkey 1 peptide s k = Done s' /\ sameConfig s s'
             /\ lib_entries s' = lib_entries s.
Proof.
  intros Hs Hcov. destruct (includeKey s 1 peptide k) eqn:Hinc.
  - destruct (append_included s 1%nat peptide k Hs Hinc) as (s' & Hf & Hc & He).
    exists s'. split; [exact Hf|]. split; [exact Hc|]. rewrite He.
    assert (written s (retrieve idx peptide k) = []) as ->; [|apply app_nil_r].
    unfold includeKey, isUnionLike in Hinc. destruct Hs as [Hp _].
    rewrite Hp, Hcombine in Hinc. cbn in Hinc.
    apply negb_true_iff in Hinc.
    unfold written.
    assert (List.filter (passAllFilters s) (retrieve idx peptide k) = []) as ->;
      [|reflexivity].
    apply filter_none. intros e Hin.
    destruct (passAllFilters s e) eqn:Hpass; [|reflexivity].
    rewrite (Hcov peptide k e Hin Hpass) in Hinc. discriminate.
  - unfold importSubkey. rewrite Hinc. exists s.
    split; [reflexivity|]. split; [apply sameConfig_refl|reflexivity].
Qed.

Lemma append_pass1 s :
  appendState s -> covered idx s ->
  exists s', importPass s 1 = Done s' /\ sameConfig s s'
             /\ lib_entries s' = lib_entries s.
Proof.
  intros Hs Hcov. unfold importPass. destruct Hs as [Hp Hi]. rewrite Hi.
  cbn [nth].
  assert (forall s s', sameConfig s s' -> lib_entries s' = lib_entries s ->
            appendState s /\ covered idx s -> appendState s' /\ covered idx s')
    as Hinv.
  { intros s0 s1 Hc He [H1 H2]. split;
      [eapply appendState_config|eapply covered_config]; eauto. }
  apply (foldM_unchanged (fun s => appendState s /\ covered idx s)); auto.
  - intros s0 ps Hs0. unfold importPeptide.
    apply (foldM_unchanged (fun s => appendState s /\ covered idx s)); auto.
    intros s1 k [H1 H2]. apply append_pass1_subkey; assumption.
  - split; [split|]; assumption.
Qed.

Lemma append_covered_after_pass0 s s' :
  keyStable p idx -> appendState s -> sameConfig s s' ->
  lib_entries s' =
    flat_map (fun ps => flat_map (fun k => written s (retrieve idx (fst ps) k))
                                 (map fst (snd ps))) idx ->
  covered idx s'.
Proof.
  intros Hkey [Hp _] Hc He peptide k e Hin Hpass.
  rewrite (passAllFilters_config _ _ e Hc) in Hpass.
  destruct (retrieve_In idx peptide k e Hin) as (sks & es & Hi & Hk & Hes).
  unfold libIsInIndex. apply existsb_exists. exists (processEntry s e). split.
  - rewrite He. apply in_flat_map. exists (peptide, sks). split; [exact Hi|].
    apply in_flat_map. exists k. split.
    + apply in_map_iff. exists (k, es). auto.
    + unfold written. cbn [fst]. apply in_map. apply filter_In.
      split; [exact Hin|exact Hpass].
  - rewrite (Hkey s peptide sks k es e Hp Hi Hk Hes). cbn.
    rewrite !String.eqb_refl. reflexivity.
Qed.

End AppendSelf.

(** X3. APPEND of a library with an identical copy of itself, with no build
    action, writes each entry of the library that passes the filters once,
    in the order of the peptide index: the retrieval stops at the first
    input that has the peptide ion, and the second pass finds every ion
    already written. This is for an index that lists each peptide once and
    each of its subkeys once ([wfIndex]), and for parameters under which
    the output index files a written entry under the peptide ion it was
    retrieved by ([keyStable]); under a fragmentation override the second
    pass finds no ion written and every entry is written twice. *)
Theorem append_with_itself_writes_each_entry_once fA fB libA libB p :
  content fA = Some libA -> content fB = Some libB ->
  pepidx libB = pepidx libA ->
  combineAction p = "APPEND" -> buildAction p = EmptyString ->
  wfIndex (pepidx libA) -> keyStable p (pepidx libA) ->
  exists s',
    run [fA; fB] p = Done s'
    /\ lib_entries s' =
       written s' (flat_map snd (peptideIons (pepidx libA))).
Proof.
  intros HA HB Hidx Hcomb Hbuild Hwf Hkey.
  set (idx := pepidx libA) in *.
  unfold run, import. cbn [m_params construct]. rewrite Hcomb, Hbuild.
  cbn [String.eqb Ascii.eqb Bool.eqb andb].
  set (s1 := putDescription (construct [fA; fB] p)).
  set (s2 := openSplibs false true false true s1).
  pose proof (openSplibs_stores false true false true [fA; fB] s1) as Hst.
  cbv zeta in Hst.
  change (fold_left (openOne false true false true) [fA; fB] s1) with s2 in Hst.
  destruct Hst as (Hpi & _ & _ & Hpar & Hent & _ & Hsing & _).
  change (m_pepIndices s1) with (@nil (option PepIndex)) in Hpi.
  change (m_params s1) with p in Hpi, Hpar.
  change (lib_entries s1) with (@nil Entry) in Hent.
  change (m_singletonPeptideIons s1) with (@nil (string * string)) in Hsing.
  clearbody s2. clear s1.
  cbn [map app] in Hpi. unfold pepIndexOf in Hpi. rewrite HA, HB, Hidx in Hpi.
  cbn [orb andb] in Hpi. fold idx in Hpi.
  set (s3 := if nonEmpty (refreshDatabase p)
             then refresh (writePreamble s2) else writePreamble s2).
  assert (appendState p idx s3 /\ lib_entries s3 = []
          /\ m_singletonPeptideIons s3 = []) as (Hs3 & He3 & Hsi3).
  { assert (appendState p idx (writePreamble s2)
            /\ lib_entries (writePreamble s2) = []
            /\ m_singletonPeptideIons (writePreamble s2) = []) as Hw.
    { unfold appendState. cbn [writePreamble m_params m_pepIndices lib_entries
                               m_singletonPeptideIons].
      rewrite Hpi, Hpar, Hent, Hsing. auto. }
    unfold s3. destruct (nonEmpty _); [|exact Hw].
    destruct (refresh_keeps (writePreamble s2)) as (R1 & R2 & R3 & R4).
    unfold appendState. rewrite R1, R2, R3, R4. exact Hw. }
  destruct Hs3 as [Hp3 Hi3]. rewrite Hi3. cbn [nth].
  assert (appendState p idx s3) as Hs3 by (split; assumption).
  unfold importPasses, isUnionLike. rewrite Hp3, Hcomb, Hi3.
  cbn [String.eqb Ascii.eqb Bool.eqb orb length seq foldM].
  destruct (append_pass0 p idx Hcomb Hbuild s3 Hs3) as (s4 & -> & Hc4 & He4).
  cbn.
  rewrite He3 in He4. cbn [app] in He4.
  pose proof (append_covered_after_pass0 p idx s3 s4 Hkey Hs3 Hc4 He4) as Hcov.
  destruct (append_pass1 p idx Hcomb Hbuild s4
              (appendState_config p idx _ _ Hc4 Hs3) Hcov)
    as (s5 & -> & Hc5 & He5).
  cbn.
  assert (sameConfig s3 s5) as Hc35 by (eapply sameConfig_trans; eauto).
  assert (m_singletonPeptideIons s5 = []) as Hs5.
  { destruct Hc35 as (_ & _ & _ & _ & _ & -> & _). exact Hsi3. }
  exists s5. split.
  { destruct (m_denoiser s5); [rewrite Hs5|]; reflexivity. }
  rewrite He5, He4. unfold peptideIons.
  rewrite written_flat_map, flat_map_flat_map.
  apply flat_map_ext_In. intros [peptide sks] Hin. cbn [fst snd].
  rewrite !flat_map_map.
  apply flat_map_ext_In. intros [k es] Hk. cbn [fst snd].
  rewrite (retrieve_wf idx peptide sks k es Hwf Hin Hk).
  symmetry. apply written_config. exact Hc35.
Qed.

(** ** More on the quality filter *)

Lemma not_returns_both s e q e1 q1 s1 :
  applyQualityFilter s e q = Done (true, e1, q1, s1) -> ~ returns s e q false.
Proof. intros H (e' & q' & s' & H'). congruence. Qed.

(** A level that removes is active, and it removes wherever a higher
    level of removal is set. *)
Lemma removes_nested p m m' k k' level :
  k' <= k ->
  removes (setQualityLevels m' k' p) level = true ->
  removes (setQualityLevels m k p) level = true
  /\ active (setQualityLevels m k p) level = true.
Proof.
  unfold removes, active. cbn. rewrite orb_true_iff, !Z.leb_le. lia.
Qed.

Lemma active_nested p m m' k k' level :
  Z.max m' k' <= Z.max m k ->
  active (setQualityLevels m' k' p) level = true ->
  active (setQualityLevels m k p) level = true
  /\ level <= Z.max m' k'.
Proof.
  unfold active. cbn. rewrite !orb_true_iff, !Z.leb_le. lia.
Qed.

(** The verdict of [applyQualityFilter] on an entry that is not immune,
    when it returns: the entry is kept unless a level that removes finds
    its concern. *)
Definition keptBy (p : Params) (lib : option SpLib) (e : Entry) : Prop :=
  let e0 := setStatus "Normal" e in
  let n := u32 (nrepsUsed e) in
  let i5 := n <? repQuorum p in
  active p 5 && i5 && removes p 5 = false
  /\ i5 && active p 4 && (n =? 1) && removes p 4 = false
  /\ exists shared bad,
       (if i5 && active p 3 then hasSharedSequence lib e0 else Done true)
       = Done shared
       /\ i5 && active p 3 && negb shared && removes p 3 = false
       /\ (if active p 2
           then isBadConflictingID lib e0 n (qualityPenalizeSingletons p)
           else Done (false, [])) = Done bad
       /\ active p 2 && bad.1 && removes p 2 = false
       /\ active p 1 && (isImpure e0 n (qualityPenalizeSingletons p)).1.1
          && removes p 1 = false.

Lemma kept_keptBy p s e q e1 q1 s1 :
  m_params s = p -> immune p e = false ->
  applyQualityFilter s e q = Done (true, e1, q1, s1) ->
  keptBy p (m_QFSearchLib s) e.
Proof.
  intros Hp Him H1.
  pose proof (not_returns_both _ _ _ _ _ _ H1) as N1.
  pose proof (cascade_not_immune _ _ e s q Hp eq_refl Him) as A1.
  cbv zeta in A1. unfold keptBy. cbv zeta.
  destruct (active p 5 && _ && removes p 5); [destruct (N1 A1)|].
  split; [reflexivity|].
  destruct (_ && active p 4 && _ && removes p 4); [destruct (N1 A1)|].
  split; [reflexivity|].
  destruct (if _ && active p 3 then _ else _) as [shared|x] eqn:X;
    [|congruence].
  destruct (_ && active p 3 && negb shared && removes p 3) eqn:F3;
    [destruct (N1 A1)|].
  destruct (if active p 2 then _ else _) as [bad|x] eqn:Y; [|congruence].
  destruct (active p 2 && bad.1 && removes p 2) eqn:F2; [destruct (N1 A1)|].
  exists shared, bad. split; [reflexivity|]. split; [exact F3|].
  split; [reflexivity|]. split; [exact F2|].
  destruct A1 as (e' & s2 & A1). rewrite A1 in H1.
  injection H1 as Hb _ _ _. apply negb_true_iff in Hb. exact Hb.
Qed.

Lemma keptBy_kept p s e q :
  m_params s = p -> immune p e = false ->
  keptBy p (m_QFSearchLib s) e ->
  exists e2 q2 s2, applyQualityFilter s e q = Done (true, e2, q2, s2).
Proof.
  intros Hp Him (F5 & F4 & shared & bad & X & F3 & Y & F2 & F1).
  pose proof (cascade_not_immune _ _ e s q Hp eq_refl Him) as A.
  cbv zeta in A. rewrite F5, F4, X, F3, Y, F2, F1 in A.
  destruct A as (e' & s2 & A). eauto.
Qed.

Lemma returned_kept p s e q b e2 q2 s2 :
  m_params s = p -> immune p e = false ->
  applyQualityFilter s e q = Done (b, e2, q2, s2) ->
  (b = false ->
   let e0 := setStatus "Normal" e in
   let n := u32 (nrepsUsed e) in
   let i5 := n <? repQuorum p in
   active p 5 && i5 && removes p 5 = true
   \/ i5 && active p 4 && (n =? 1) && removes p 4 = true
   \/ (exists shared,
         (if i5 && active p 3 then hasSharedSequence (m_QFSearchLib s) e0
          else Done true) = Done shared
         /\ i5 && active p 3 && negb shared && removes p 3 = true)
   \/ (exists bad,
         (if active p 2
          then isBadConflictingID (m_QFSearchLib s) e0 n
                 (qualityPenalizeSingletons p)
          else Done (false, [])) = Done bad
         /\ active p 2 && bad.1 && removes p 2 = true)
   \/ active p 1 && (isImpure e0 n (qualityPenalizeSingletons p)).1.1
      && removes p 1 = true).
Proof.
  intros Hp Him H2 Hb. subst b. cbv zeta.
  pose proof (cascade_not_immune _ _ e s q Hp eq_refl Him) as A.
  cbv zeta in A.
  destruct (active p 5 && _ && removes p 5); [left; reflexivity|].
  right.
  destruct (_ && active p 4 && _ && removes p 4); [left; reflexivity|].
  right.
  destruct (if _ && active p 3 then _ else _) as [shared|x]; [|congruence].
  destruct (_ && active p 3 && negb shared && removes p 3) eqn:E3.
  { left. exists shared. split; [reflexivity|exact E3]. }
  right.
  destruct (if active p 2 then _ else _) as [bad|x]; [|congruence].
  destruct (active p 2 && bad.1 && removes p 2) eqn:E2.
  { left. exists bad. split; [reflexivity|exact E2]. }
  right.
  destruct A as (e' & s3 & A). rewrite A in H2.
  injection H2 as Hb _ _ _. apply negb_false_iff in Hb. exact Hb.
Qed.

(** X5. The removal levels are nested: when [applyQualityFilter] keeps an
    entry while it removes at level [k], a call that removes at a level
    [k'] no higher never removes the entry, whatever the two calls mark
    and whatever statistics they are given; the reference library is the
    same in both calls if [k'] is 2 or more, the levels that search it.
    Such a call keeps the entry if it returns, and it does return when
    its highest level, marking or removing, is no higher than that of the
    first call and it searches the same library from level 2 on: it then
    makes no check the first call did not make. *)
Theorem removal_levels_are_nested p e m m' k k' s s' q q' e1 q1 s1 :
  k' <= k ->
  m_params s = setQualityLevels m k p ->
  m_params s' = setQualityLevels m' k' p ->
  (2 <= k' -> m_QFSearchLib s' = m_QFSearchLib s) ->
  applyQualityFilter s e q = Done (true, e1, q1, s1) ->
  (forall b e2 q2 s2,
     applyQualityFilter s' e q' = Done (b, e2, q2, s2) -> b = true)
  /\ (Z.max m' k' <= Z.max m k ->
      (2 <= Z.max m' k' -> m_QFSearchLib s' = m_QFSearchLib s) ->
      exists e2 q2 s2, applyQualityFilter s' e q' = Done (true, e2, q2, s2)).
Proof.
  intros Hk Hp Hp' Hl H1.
  destruct (immune (setQualityLevels m k p) e) eqn:Him.
  { destruct (immune_returns s' e q') as (c & e3 & s3 & H3 & _).
    { rewrite Hp'. exact Him. }
    split; [intros b e2 q2 s2 H2; congruence|eauto]. }
  pose proof (kept_keptBy _ _ _ _ _ _ _ Hp Him H1)
    as (F5 & F4 & shared & bad & X & F3 & Y & F2 & F1).
  cbv zeta in *.
  set (p1 := setQualityLevels m k p) in *.
  set (p2 := setQualityLevels m' k' p) in *.
  assert (R : forall level, removes p2 level = true ->
                            removes p1 level = true /\ active p1 level = true).
  { intros level. apply removes_nested. exact Hk. }
  split.
  - intros b e2 q2 s2 H2. destruct b; [reflexivity|exfalso].
    pose proof (returned_kept p2 s' e q' _ _ _ _ Hp' Him H2 eq_refl) as B.
    cbv zeta in B.
    change (repQuorum p2) with (repQuorum p1) in B.
    change (qualityPenalizeSingletons p2)
      with (qualityPenalizeSingletons p1) in B.
    set (i5 := u32 (nrepsUsed e) <? repQuorum p1) in *.
    destruct B as [E|[E|[(sh' & X' & E)|[(bad' & Y' & E)|E]]]].
    + apply andb_true_iff in E as [E Er]. destruct (R 5 Er) as [Ra Rb].
      rewrite Ra, Rb in F5. apply andb_true_iff in E as [_ E].
      rewrite E in F5. discriminate.
    + apply andb_true_iff in E as [E Er]. destruct (R 4 Er) as [Ra Rb].
      rewrite Ra, Rb in F4. apply andb_true_iff in E as [E En].
      apply andb_true_iff in E as [E _]. rewrite E, En in F4. discriminate.
    + apply andb_true_iff in E as [E Er]. destruct (R 3 Er) as [Ra Rb].
      apply andb_true_iff in E as [E Es]. apply andb_true_iff in E as [Ei Ea].
      rewrite Ei, Ea in X'. rewrite Ei, Rb in X. cbn [andb] in X, X'.
      rewrite Hl in X'.
      2:{ unfold removes in Er. cbn in Er. apply Z.leb_le in Er. lia. }
      assert (sh' = shared) by congruence. subst sh'.
      rewrite Ra, Rb, Ei, Es in F3. discriminate.
    + apply andb_true_iff in E as [E Er]. destruct (R 2 Er) as [Ra Rb].
      apply andb_true_iff in E as [Ea Eb].
      rewrite Ea in Y'. rewrite Rb in Y.
      rewrite Hl in Y'.
      2:{ unfold removes in Er. cbn in Er. apply Z.leb_le in Er. lia. }
      assert (bad' = bad) by congruence. subst bad'.
      rewrite Ra, Rb, Eb in F2. discriminate.
    + apply andb_true_iff in E as [E Er]. destruct (R 1 Er) as [Ra Rb].
      apply andb_true_iff in E as [_ E].
      rewrite Ra, Rb, E in F1. discriminate.
  - intros Hmax Hl2.
    assert (A : forall level, active p2 level = true ->
                              active p1 level = true
                              /\ level <= Z.max m' k').
    { intros level. apply active_nested. exact Hmax. }
    apply (keptBy_kept p2); [exact Hp'|exact Him|].
    unfold keptBy. cbv zeta.
    change (repQuorum p2) with (repQuorum p1).
    change (qualityPenalizeSingletons p2)
      with (qualityPenalizeSingletons p1).
    set (i5 := u32 (nrepsUsed e) <? repQuorum p1) in *.
    split; [|split].
    { destruct (removes p2 5) eqn:Er; [|apply andb_false_r].
      destruct (R 5 Er) as [Ra Rb]. rewrite Ra, Rb in F5.
      cbn [andb] in F5. rewrite andb_true_r in F5 |- *.
      rewrite F5. apply andb_false_r. }
    { destruct (removes p2 4) eqn:Er; [|rewrite andb_false_r; reflexivity].
      destruct (R 4 Er) as [Ra Rb]. rewrite Ra, Rb in F4.
      destruct i5; [|reflexivity]. cbn [andb] in F4 |- *.
      rewrite andb_true_r in F4. rewrite F4, andb_false_r. reflexivity. }
    assert (X2 : exists sh',
               (if i5 && active p2 3
                then hasSharedSequence (m_QFSearchLib s') (setStatus "Normal" e)
                else Done true) = Done sh'
               /\ (i5 && active p2 3 = true -> sh' = shared)).
    { destruct (i5 && active p2 3) eqn:E; [|eexists; split; [reflexivity|discriminate]].
      apply andb_true_iff in E as [Ei Ea]. destruct (A 3 Ea) as [Aa Ab].
      rewrite Hl2 by lia. rewrite Ei, Aa in X. cbn [andb] in X.
      exists shared. split; [exact X|reflexivity]. }
    destruct X2 as (sh' & X2 & Hsh).
    assert (Y2 : exists bad',
               (if active p2 2
                then isBadConflictingID (m_QFSearchLib s') (setStatus "Normal" e)
                       (u32 (nrepsUsed e)) (qualityPenalizeSingletons p1)
                else Done (false, [])) = Done bad'
               /\ (active p2 2 = true -> bad' = bad)).
    { destruct (active p2 2) eqn:Ea; [|eexists; split; [reflexivity|discriminate]].
      destruct (A 2 Ea) as [Aa Ab].
      rewrite Hl2 by lia. rewrite Aa in Y.
      exists bad. split; [exact Y|reflexivity]. }
    destruct Y2 as (bad' & Y2 & Hbad).
    exists sh', bad'. split; [exact X2|]. split; [|split; [exact Y2|split]].
    + destruct (removes p2 3) eqn:Er; [|rewrite andb_false_r; reflexivity].
      destruct (R 3 Er) as [Ra Rb]. rewrite Ra, Rb in F3.
      destruct (i5 && active p2 3) eqn:E; [|reflexivity].
      rewrite (Hsh eq_refl). apply andb_true_iff in E as [Ei _].
      rewrite Ei in F3. cbn [andb] in F3 |- *. exact F3.
    + destruct (removes p2 2) eqn:Er; [|rewrite andb_false_r; reflexivity].
      destruct (R 2 Er) as [Ra Rb]. rewrite Ra, Rb in F2.
      destruct (active p2 2) eqn:E; [|reflexivity].
      rewrite (Hbad eq_refl). cbn [andb] in F2 |- *. exact F2.
    + destruct (removes p2 1) eqn:Er; [|rewrite andb_false_r; reflexivity].
      destruct (R 1 Er) as [Ra Rb]. rewrite Ra, Rb in F1.
      cbn [andb] in F1. rewrite andb_true_r in F1 |- *.
      rewrite F1. apply andb_false_r.
Qed.

(** X6. An immune entry is kept whatever the levels: it comes back as it was
    but for the status, which is "Normal", it is counted under one of the
    two immunity counters and under no other, and nothing is logged or
    written. *)
Theorem immune_entry_always_kept s e q :
  immune (m_params s) e = true ->
  exists c s',
    applyQualityFilter s e q = Done (true, setStatus "Normal" e, incr c q, s')
    /\ (c = immuneProb \/ c = immuneEngine)
    /\ (forall c', levelsOf c' <> [] -> incr c q c' = q c')
    /\ lib_entries s' = lib_entries s
    /\ m_count s' = u32 (m_count s + 1).
Proof.
  intros Him.
  destruct (immune_returns s e q Him) as (c & e' & s' & H & Hc).
  pose proof (applyQualityFilter_cases _ _ _ _ _ _ _ H)
    as (_ & _ & _ & He & _ & Hn & Hi).
  rewrite Him in Hi. destruct Hi as [_ ->].
  exists c, s'. split; [exact H|]. split; [exact Hc|].
  split; [|split; assumption].
  intros c' Hc'. unfold incr.
  destruct Hc as [-> | ->]; destruct c'; try reflexivity;
    exfalso; apply Hc'; reflexivity.
Qed.

Lemma talliedBy_not_impure f2 f3 f4 f5 i5 q :
  talliedBy false f2 f3 f4 f5 i5 q Q1 = q Q1.
Proof. destruct f2, f3, f4, f5, i5; reflexivity. Qed.

Lemma isImpure_charge1 e n pen :
  charge e = 1 -> (isImpure e n pen).1.1 = false.
Proof.
  intros Hc. unfold isImpure.
  destruct (peptidePtr e) as [pep|]; [|reflexivity].
  destruct (getOneComment "FracUnassigned" e) as [str|].
  - destruct (parseFracUnassignedTop20 str) as [[fr un] tot].
    rewrite Hc. reflexivity.
  - destruct (calcFractionUnassigned pep (peakList e) 999999 [])
      as [[? ?] ?].
    destruct (calcFractionUnassigned pep (peakList e) 20 [true; true])
      as [[? ?] ?].
    destruct (calcFractionUnassigned pep (peakList e) 5 [true; true])
      as [[? ?] ?].
    cbn [charge setOneComment]. rewrite Hc. reflexivity.
Qed.

(** X7. A singly charged spectrum is never impure: when the filter removes at
    level 1 at most, an entry of charge 1 is kept, and the impurity
    counter Q1 is left as it was. *)
Theorem charge_one_never_impure s e q b e' q' s' :
  charge e = 1 -> qualityLevelRemove (m_params s) <= 1 ->
  applyQualityFilter s e q = Done (b, e', q', s') ->
  b = true /\ q' Q1 = q Q1.
Proof.
  intros Hc Hr H.
  destruct (immune (m_params s) e) eqn:Him.
  - destruct (immune_returns s e q Him) as (c & e1 & s1 & H1 & Hc1).
    rewrite H1 in H. injection H as <- <- <- <-. split; [reflexivity|].
    unfold incr. destruct Hc1 as [-> | ->]; reflexivity.
  - pose proof (cascade_not_immune (m_params s) (m_QFSearchLib s) e s q
                  eq_refl eq_refl Him) as X. cbv zeta in X.
    rewrite (removes_above _ 5), (removes_above _ 4), (removes_above _ 3),
            (removes_above _ 2) in X by lia.
    rewrite (isImpure_charge1 (setStatus "Normal" e)) in X by exact Hc.
    rewrite ?andb_false_r in X.
    destruct (if _ && active _ 3 then _ else _) as [shared|x];
      [|congruence].
    rewrite ?andb_false_r in X.
    destruct (if active _ 2 then _ else _) as [bad|x]; [|congruence].
    rewrite ?andb_false_r in X. cbn [andb negb] in X.
    destruct X as (e1 & s1 & X). rewrite X in H.
    injection H as <- <- <- <-. split; [reflexivity|].
    apply talliedBy_not_impure.
Qed.

(** *** No level set *)

Lemma active_none p k :
  qualityLevelMark p < k -> qualityLevelRemove p < k -> active p k = false.
Proof.
  intros Hm Hr. unfold active. apply orb_false_iff.
  split; apply Z.leb_gt; assumption.
Qed.

Lemma applyQualityFilter_no_level s e q :
  qualityLevelMark (m_params s) <= 0 -> qualityLevelRemove (m_params s) <= 0 ->
  returns s e q true.
Proof.
  intros Hm Hr. destruct (immune (m_params s) e) eqn:Him.
  - destruct (immune_returns s e q Him) as (c & e1 & s1 & H1 & _).
    unfold returns. eauto.
  - pose proof (cascade_not_immune (m_params s) (m_QFSearchLib s) e s q
                  eq_refl eq_refl Him) as X. cbv zeta in X.
    rewrite !active_none in X by lia.
    rewrite ?andb_false_r in X. cbn [andb negb] in X.
    destruct X as (e1 & s1 & X). unfold returns. eauto.
Qed.

Lemma qualityFilterLoop_no_level l : forall s q,
  qualityLevelMark (m_params s) <= 0 -> qualityLevelRemove (m_params s) <= 0 ->
  exists s' q',
    qualityFilterLoop l s q = Done (s', q')
    /\ m_params s' = m_params s /\ m_ppMappings s' = m_ppMappings s
    /\ m_QFSearchLib s' = m_QFSearchLib s
    /\ length (lib_entries s')
       = (length (lib_entries s)
          + length (List.filter (passAllFilters s) l))%nat.
Proof.
  induction l as [|e l IH]; intros s q Hm Hr.
  - cbn. do 2 eexists. split; [reflexivity|]. repeat split. lia.
  - cbn [qualityFilterLoop List.filter].
    destruct (passAllFilters s e) eqn:Epass.
    + destruct (applyQualityFilter_no_level s e q Hm Hr) as (e1 & q1 & s1 & A).
      rewrite A. cbn [mbind Outcome_bind].
      pose proof (applyQualityFilter_cases _ _ _ _ _ _ _ A)
        as (P1 & L1 & M1 & E1 & _).
      destruct (IH (insertEntry (processEntry s1 e1) s1) q1)
        as (s' & q' & -> & P' & M' & L' & Hlen);
        cbn [insertEntry m_params]; try (rewrite P1; assumption).
      do 2 eexists. split; [reflexivity|].
      cbn [insertEntry m_params m_ppMappings m_QFSearchLib lib_entries]
        in P', M', L', Hlen.
      split; [congruence|]. split; [congruence|]. split; [congruence|].
      rewrite Hlen, length_app, E1. cbn [length].
      rewrite (filter_ext _ (passAllFilters s)).
      * lia.
      * intros e0. apply passAllFilters_same; cbn; assumption.
    + apply IH; assumption.
Qed.

(** X8. The quality filter with no level set, neither to mark nor to remove,
    needs no reference library and removes nothing: the run ends, and it
    writes one entry for each entry of the library that passes the
    filters. *)
Theorem quality_filter_without_levels_keeps_all f lib p :
  content f = Some lib -> isUniqueLibrary (pepidx lib) = true ->
  qualityLevelMark p <= 0 -> qualityLevelRemove p <= 0 ->
  exists s',
    doQualityFilter (construct [f] p) = Done s'
    /\ m_QFSearchLib s' = None
    /\ length (lib_entries s')
       = length (List.filter (passAllFilters s') (mzidx lib)).
Proof.
  intros Hf Hu Hm Hr.
  rewrite (doQualityFilter_single f lib p Hf Hu).
  destruct (loopEntry_fields f lib p Hf) as (Hp0 & Hl0 & _ & He0).
  destruct (qualityFilterLoop_no_level (mzidx lib) (loopEntry f p)
              qfstats_zero) as (s' & q' & -> & P' & M' & L' & Hlen);
    try (rewrite Hp0; assumption).
  cbn [mbind Outcome_bind].
  replace (5 <=? qualityLevelMark p) with false
    by (symmetry; apply Z.leb_gt; lia).
  cbn [andb]. exists s'. split; [reflexivity|]. split.
  - rewrite L', Hl0.
    replace (2 <=? qualityLevelMark p) with false
      by (symmetry; apply Z.leb_gt; lia).
    replace (2 <=? qualityLevelRemove p) with false
      by (symmetry; apply Z.leb_gt; lia).
    reflexivity.
  - rewrite Hlen, He0. cbn [length Nat.add]. f_equal.
    apply filter_ext. intros e. symmetry.
    apply passAllFilters_same; assumption.
Qed.

(** *** Libraries that are not unique *)

(** Nothing was written to the output library and the last message logged
    is an error. *)
Definition refused (s : Importer) : Prop :=
  lib_preamble s = None /\ lib_entries s = []
  /\ exists msg, last (g_log s) = Some msg /\ severity msg = SevError.

Lemma opened_non_unique a b d f lib s0 :
  content f = Some lib -> isUniqueLibrary (pepidx lib) = false ->
  m_splibFins s0 = [] -> m_pepIndices s0 = [] -> m_impFiles s0 = [f] ->
  let s1 := openSplibs a b true d s0 in
  nth 0 (m_splibFins s1) None = Some lib
  /\ nth 0 (m_pepIndices s1) None = None
  /\ lib_preamble s1 = lib_preamble s0 /\ lib_entries s1 = lib_entries s0.
Proof.
  intros Hf Hu H1 H2 H3. cbv zeta. unfold openSplibs. rewrite H1, H3.
  pose proof (openSplibs_stores a b true d [f] s0) as Hst. cbv zeta in Hst.
  destruct Hst as (Hpep & _ & Hfin & _ & Hent & Hpre & _).
  rewrite Hpep, Hfin, Hent, Hpre, H1, H2. cbn [app map nth].
  unfold pepIndexOf. rewrite Hf, Hu. cbn.
  rewrite orb_true_r. cbn. auto.
Qed.


(** *** Marking without removing *)

Lemma applyQualityFilter_mark_only s e q b e' q' s' :
  qualityLevelRemove (m_params s) <= 0 ->
  applyQualityFilter s e q = Done (b, e', q', s') -> b = true.
Proof.
  intros Hr H. destruct (immune (m_params s) e) eqn:Him.
  - destruct (immune_returns s e q Him) as (c & e1 & s1 & H1 & _).
    congruence.
  - pose proof (cascade_not_immune (m_params s) (m_QFSearchLib s) e s q
                  eq_refl eq_refl Him) as X. cbv zeta in X.
    rewrite (removes_above _ 5), (removes_above _ 4), (removes_above _ 3),
            (removes_above _ 2), (removes_above _ 1) in X by lia.
    rewrite ?andb_false_r in X.
    destruct (if _ && active _ 3 then _ else _) as [shared|x];
      [|congruence].
    rewrite ?andb_false_r in X.
    destruct (if active _ 2 then _ else _) as [bad|x]; [|congruence].
    rewrite ?andb_false_r in X. cbn [negb] in X.
    destruct X as (e1 & s1 & X). congruence.
Qed.

Lemma qualityFilterLoop_mark_only l : forall s q s' q',
  qualityLevelRemove (m_params s) <= 0 ->
  qualityFilterLoop l s q = Done (s', q') ->
  m_params s' = m_params s /\ m_ppMappings s' = m_ppMappings s
  /\ length (lib_entries s')
     = (length (lib_entries s)
        + length (List.filter (passAllFilters s) l))%nat.
Proof.
  induction l as [|e l IH]; intros s q s' q' Hr H.
  - cbn in H. injection H as <- <-. repeat split. cbn. lia.
  - cbn [qualityFilterLoop List.filter] in H |- *.
    destruct (passAllFilters s e) eqn:Epass.
    + destruct (applyQualityFilter s e q) as [[[[b e1] q1] s1]|x] eqn:A;
        cbn [mbind Outcome_bind] in H; [|discriminate].
      pose proof (applyQualityFilter_mark_only _ _ _ _ _ _ _ Hr A) as ->.
      pose proof (applyQualityFilter_cases _ _ _ _ _ _ _ A)
        as (P1 & L1 & M1 & E1 & _).
      apply IH in H; [|cbn [insertEntry m_params]; rewrite P1; exact Hr].
      cbn [insertEntry m_params m_ppMappings lib_entries] in H.
      destruct H as (P' & M' & Hlen).
      split; [congruence|]. split; [congruence|].
      rewrite Hlen, length_app, E1. cbn [length].
      rewrite (filter_ext _ (passAllFilters s)).
      * lia.
      * intros e0. apply passAllFilters_same; cbn; assumption.
    + apply IH in H; assumption.
Qed.

(** X23. With no removal level set, the quality filter only marks: whatever the
    mark level, a run on one unique library that comes to its end has
    written one entry for each entry of the library that passes the
    filters. *)
Theorem marking_removes_nothing f lib p s' :
  content f = Some lib -> isUniqueLibrary (pepidx lib) = true ->
  qualityLevelRemove p <= 0 ->
  doQualityFilter (construct [f] p) = Done s' ->
  length (lib_entries s')
  = length (List.filter (passAllFilters s') (mzidx lib)).
Proof.
  intros Hf Hu Hr H.
  rewrite (doQualityFilter_single f lib p Hf Hu) in H.
  destruct (loopEntry_fields f lib p Hf) as (Hp0 & _ & _ & He0).
  destruct (qualityFilterLoop (mzidx lib) (loopEntry f p) qfstats_zero)
    as [[s4 q4]|x] eqn:Hloop; cbn [mbind Outcome_bind] in H; [|discriminate].
  apply qualityFilterLoop_mark_only in Hloop; [|rewrite Hp0; exact Hr].
  destruct Hloop as (P4 & M4 & Hlen). rewrite He0 in Hlen.
  cbn [length Nat.add] in Hlen.
  assert (Hs' : lib_entries s' = lib_entries s4
                /\ m_params s' = m_params s4
                /\ m_ppMappings s' = m_ppMappings s4).
  { destruct (_ && _); injection H as <-; repeat split. }
  destruct Hs' as (E' & P' & M'). rewrite E', Hlen. f_equal.
  apply filter_ext. intros e. symmetry.
  apply passAllFilters_same; congruence.
Qed.

(** *** Conflicting identifications *)

(** Library entry [i] makes entry [e], of [n] replicates, a bad conflicting
    identification: another entry, similar enough, not of a homologous
    peptide, and better supported (more replicates, or as many and a
    higher probability). *)
Definition outdoneBy (e : Entry) (n : Z) (penalizeSingletons : bool)
    (i : Entry) : Prop :=
  libId i <> libId e
  /\ (let dot := compare (peakList e) (peakList i) in
      dge dot (70 # 100)
      || (penalizeSingletons && (n =? 1) && dge dot (65 # 100))) = true
  /\ (exists pep ipep,
        peptidePtr e = Some pep /\ peptidePtr i = Some ipep
        /\ fst (isHomolog pep ipep (6 # 10)) = false)
  /\ (n < u32 (nrepsUsed i)
      \/ (u32 (nrepsUsed i) = n /\ dgt (prob i) (prob e) = true)).

Lemma scanSimilar_flagged e pep n pen l : forall ss msg,
  peptidePtr e = Some pep ->
  scanSimilar e pep n pen l ss = Done (true, msg) ->
  exists i, In i l /\ outdoneBy e n pen i.
Proof.
  induction l as [|i l IH]; intros ss msg Hpep H; [discriminate|].
  cbn [scanSimilar] in H.
  assert (Hrest : forall ss', scanSimilar e pep n pen l ss' = Done (true, msg) ->
                    exists i0, In i0 (i :: l) /\ outdoneBy e n pen i0).
  { intros ss' H'. destruct (IH ss' msg Hpep H') as (i0 & Hin & Ho).
    exists i0. split; [right; exact Hin|exact Ho]. }
  destruct (negb (libId e =? libId i)) eqn:Eid; [|eauto].
  destruct (dge _ _ || _) eqn:Edot; [|eauto].
  destruct (peptidePtr i) as [ipep|] eqn:Eip; [|discriminate].
  destruct (fst (isHomolog pep ipep (6 # 10))) eqn:Eh; [eauto|].
  assert (Hthis : n < u32 (nrepsUsed i)
                  \/ (u32 (nrepsUsed i) = n /\ dgt (prob i) (prob e) = true) ->
                  exists i0, In i0 (i :: l) /\ outdoneBy e n pen i0).
  { intros Hb. exists i. split; [left; reflexivity|].
    split; [|split; [exact Edot|split; [eauto|exact Hb]]].
    apply negb_true_iff, Z.eqb_neq in Eid. congruence. }
  destruct (n <? u32 (nrepsUsed i)) eqn:En.
  { apply Hthis. left. apply Z.ltb_lt. exact En. }
  destruct ((u32 (nrepsUsed i) =? n) && dgt (prob i) (prob e)) eqn:Et; [|eauto].
  apply andb_true_iff in Et as [Et1 Et2]. apply Hthis. right.
  split; [apply Z.eqb_eq; exact Et1|exact Et2].
Qed.

(** X10. An entry is flagged as a bad conflicting identification only against
    another entry of the reference library: one with a different
    identifier, within 4.5 m/z of its precursor, with a dot product of at
    least 0.7 (0.65 for a penalized singleton), of a peptide that is not
    homologous, and with more replicates or as many and a higher
    probability. *)
Theorem bad_conflicting_id_has_a_better_match lib e n pen msg :
  isBadConflictingID (Some lib) e n pen = Done (true, msg) ->
  exists i,
    In i (mzidx lib)
    /\ Qle_bool (precursorMz e - (45 # 10)) (precursorMz i) = true
    /\ Qle_bool (precursorMz i) (precursorMz e + (45 # 10)) = true
    /\ outdoneBy e n pen i.
Proof.
  unfold isBadConflictingID. intros H.
  destruct (peptidePtr e) as [pep|] eqn:Hpep; [|discriminate].
  destruct (scanSimilar_flagged e pep n pen _ _ _ Hpep H) as (i & Hin & Ho).
  unfold retrieveMz in Hin. apply filter_In in Hin as [Hin Hw].
  apply andb_true_iff in Hw as [Hlo Hhi]. eauto.
Qed.

(** ** Similarity clustering: what a cluster is made of *)

(** The cluster holds the file offset [x0] it started from, which stays
    the offset of the root entry, and every offset in it, as every offset
    still reachable through the vector, satisfies [ok]. *)
Definition clusterOK (ok : Z -> Prop) (x0 : Z) (st : Clustering) : Prop :=
  x0 ∈ cl_cluster st
  /\ (forall x, x ∈ cl_cluster st -> ok x)
  /\ (forall k a, cl_slots st !! k = Some (Some a) ->
                  ok (libFileOffset (cl_heap st !!! a)))
  /\ libFileOffset (cl_root st) = x0.

Lemma alter_offset (l : list Entry) a b :
  libFileOffset (alter simplifyEntry a l !!! b) = libFileOffset (l !!! b).
Proof.
  rewrite !list_lookup_total_alt, list_lookup_alter.
  destruct (decide (a = b)) as [->|]; destruct (l !! b); reflexivity.
Qed.

Lemma clusterOK_simplify ok x0 r st :
  clusterOK ok x0 st -> clusterOK ok x0 (simplifyRef r st).
Proof.
  intros (H0 & Hc & Hs & Hr).
  destruct r as [|a]; cbn; split; try split; try split; auto.
  intros k b Hk. cbn. rewrite alter_offset. apply Hs with k. exact Hk.
Qed.

Lemma clusterOK_null ok x0 k st :
  clusterOK ok x0 st -> clusterOK ok x0 (nullSlot k st).
Proof.
  intros (H0 & Hc & Hs & Hr). split; [exact H0|]. split; [exact Hc|].
  split; [|exact Hr].
  intros k' a Hk. cbn in Hk |- *.
  apply list_lookup_insert_Some in Hk as [(_ & Hx & _)|(_ & Hk)];
    [discriminate|]. apply Hs with k'. exact Hk.
Qed.

Lemma clusterOK_record ok x0 c st :
  clusterOK ok x0 st -> clusterOK ok x0 (record c st).
Proof. intros H. exact H. Qed.

Lemma clusterOK_join ok x0 x st :
  ok x -> clusterOK ok x0 st -> clusterOK ok x0 (joinCluster x st).
Proof.
  intros Hx (H0 & Hc & Hs & Hr). split; [|split; [|split]].
  - cbn. set_solver.
  - intros y Hy. cbn in Hy. apply elem_of_union in Hy as [Hy|Hy].
    + apply elem_of_singleton in Hy. subst. exact Hx.
    + apply Hc. exact Hy.
  - exact Hs.
  - exact Hr.
Qed.

Lemma scanOne_clusterOK ok x0 p entry round lo hi sc k :
  clusterOK ok x0 (sc_st sc) ->
  clusterOK ok x0 (sc_st (scanOne p entry round lo hi sc k)).
Proof.
  intros H. unfold scanOne.
  destruct (cl_slots (sc_st sc) !! k) as [[a|]|] eqn:Ek; try exact H.
  destruct (bool_decide _); [apply clusterOK_null; exact H|].
  destruct (_ || _); [exact H|].
  assert (Hen : ok (libFileOffset (cl_heap (sc_st sc) !!! a))).
  { destruct H as (_ & _ & Hs & _). apply Hs with k. exact Ek. }
  pose proof (clusterOK_record ok x0
                {| cmp_entry := libFileOffset
                     (derefEntry (simplifyRef (HeapEntry a) (sc_st sc)) entry);
                   cmp_other := libFileOffset (cl_heap (sc_st sc) !!! a);
                   cmp_round := round;
                   cmp_dot := compare
                     (peakList (derefEntry (simplifyRef (HeapEntry a) (sc_st sc))
                                           entry))
                     (peakList (derefEntry (simplifyRef (HeapEntry a) (sc_st sc))
                                           (HeapEntry a)));
                   cmp_joined := dge (compare
                     (peakList (derefEntry (simplifyRef (HeapEntry a) (sc_st sc))
                                           entry))
                     (peakList (derefEntry (simplifyRef (HeapEntry a) (sc_st sc))
                                           (HeapEntry a))))
                     (unidentifiedClusterMinimumDot p
                      - inject_Z round * (5 # 10))%Q |}
                _ (clusterOK_simplify ok x0 (HeapEntry a) _ H)) as H2.
  destruct (dge _ _).
  - cbn [sc_st]. apply clusterOK_join; assumption.
  - destruct (dlt _ _); cbn [sc_st]; [apply clusterOK_null|]; exact H2.
Qed.

Lemma fold_scanOne_clusterOK ok x0 p entry round lo hi ks : forall sc,
  clusterOK ok x0 (sc_st sc) ->
  clusterOK ok x0 (sc_st (fold_left (scanOne p entry round lo hi) ks sc)).
Proof.
  induction ks as [|k ks IH]; intros sc H; cbn [fold_left]; [exact H|].
  apply IH. apply scanOne_clusterOK. exact H.
Qed.

Lemma findSpectralNeighbors_clusterOK ok x0 p fuel : forall entry root round st,
  clusterOK ok x0 st ->
  clusterOK ok x0 (findSpectralNeighbors fuel p entry root round st).
Proof.
  induction fuel as [|fuel IH]; intros entry root round st H; [exact H|].
  cbn [findSpectralNeighbors].
  match goal with
  | |- context [fold_left (scanOne ?p ?e ?r ?lo ?hi) ?ks ?sc0] =>
    pose proof (fold_scanOne_clusterOK ok x0 p e r lo hi ks sc0) as Hs;
      set (sc := fold_left (scanOne p e r lo hi) ks sc0) in *
  end.
  assert (clusterOK ok x0 (sc_st sc)) as Hsc.
  { apply Hs. cbn [sc_st]. apply clusterOK_simplify. exact H. }
  clearbody sc. clear Hs.
  destruct (2 <=? round); [exact Hsc|].
  generalize dependent (sc_st sc). induction (hits sc) as [|h hs IHh];
    intros st' Hst'; cbn [fold_left]; [exact Hst'|].
  apply IHh. apply IH. exact Hst'.
Qed.

(** The search of one entry of the sorted index, from its start. *)
Lemma cluster_from_root ok (mzIndex : MzIndex) r entry p root :
  ok (libFileOffset entry) ->
  (forall en, In en (retrieveMz mzIndex (precursorMz entry - (25 # 10))%Q
                                (precursorMz entry + (25 # 10))%Q) ->
              isClustered r (libFileOffset en) = false ->
              ok (libFileOffset en)) ->
  clusterOK ok (libFileOffset entry)
    (findSpectralNeighbors 3 p RootEntry root 0
       {| cl_root := entry;
          cl_heap := retrieveMz mzIndex (precursorMz entry - (25 # 10))%Q
                                (precursorMz entry + (25 # 10))%Q;
          cl_slots :=
            imap (fun k en => if isClustered r (libFileOffset en)
                              then None else Some k)
                 (retrieveMz mzIndex (precursorMz entry - (25 # 10))%Q
                             (precursorMz entry + (25 # 10))%Q);
          cl_cluster := {[ libFileOffset entry ]};
          cl_trace := [] |}).
Proof.
  intros H0 Hen. apply findSpectralNeighbors_clusterOK.
  split; [|split; [|split]]; cbn.
  4: reflexivity.
  - set_solver.
  - intros x Hx. apply elem_of_singleton in Hx. subst. exact H0.
  - intros k a Hk. rewrite list_lookup_imap in Hk.
    destruct (retrieveMz _ _ _ !! k) as [en|] eqn:Ek; [|discriminate].
    cbn in Hk. destruct (isClustered r (libFileOffset en)) eqn:Ec;
      [discriminate|].
    injection Hk as <-. rewrite (list_lookup_total_correct _ _ _ Ek).
    apply Hen; [|exact Ec]. apply list_elem_of_In.
    eapply list_elem_of_lookup_2. exact Ek.
Qed.

Lemma isClustered_false r x :
  isClustered r x = false -> clusteredEntries r !! x = None.
Proof.
  unfold isClustered. intros H. apply bool_decide_eq_false in H.
  apply eq_None_not_Some. exact H.
Qed.

Lemma fold_insert_marked (v : Z) (l : list Z) : forall (m : gmap Z Z) x,
  x ∈ l \/ is_Some (m !! x) ->
  is_Some (fold_left (fun m i => <[i := v]> m) l m !! x).
Proof.
  induction l as [|i l IH]; intros m x H; cbn [fold_left].
  - destruct H as [H|H]; [inversion H|exact H].
  - apply IH. destruct H as [H|H].
    + apply elem_of_cons in H as [->|H]; [right|left; exact H].
      rewrite lookup_insert_eq. eauto.
    + right. destruct (decide (i = x)) as [->|Hne].
      * rewrite lookup_insert_eq. eauto.
      * rewrite lookup_insert_ne by exact Hne. exact H.
Qed.

(** An entry of the mass index near the root: within 2.5 m/z of its
    precursor. *)
Definition nearRoot (mzIndex : MzIndex) (root : Entry) (x : Z) : Prop :=
  x = libFileOffset root
  \/ exists en, In en mzIndex /\ libFileOffset en = x
                /\ Qle_bool (precursorMz root - (25 # 10)) (precursorMz en) = true
                /\ Qle_bool (precursorMz en) (precursorMz root + (25 # 10)) = true.

(** What one step of the first loop does to the clusters: nothing, or one
    new cluster of two entries or more around the entry of the step, none
    of them clustered before, all of them clustered after. *)
Lemma clusterStep_cases mzIndex r entry :
  let r' := clusterStep mzIndex r entry in
  (forall x, is_Some (clusteredEntries r !! x) ->
             is_Some (clusteredEntries r' !! x))
  /\ is_Some (clusteredEntries r' !! libFileOffset entry)
  /\ (multiclusters r' = multiclusters r
      \/ exists c,
           multiclusters r' = multiclusters r ++ [c]
           /\ libFileOffset entry ∈ c
           /\ (2 <= size c)%nat
           /\ (forall x, x ∈ c ->
                 clusteredEntries r !! x = None
                 /\ is_Some (clusteredEntries r' !! x)
                 /\ nearRoot mzIndex entry x)).
Proof.
  cbv zeta. unfold clusterStep.
  destruct (isClustered r (libFileOffset entry)) eqn:Eroot.
  { split; [auto|]. split; [|auto].
    unfold isClustered in Eroot. apply bool_decide_eq_true in Eroot.
    exact Eroot. }
  match goal with
  | |- context [findSpectralNeighbors 3 ?p0 RootEntry ?root 0 ?st0] =>
    pose proof (cluster_from_root
                  (fun x => clusteredEntries r !! x = None
                            /\ nearRoot mzIndex entry x)
                  mzIndex r entry p0 root) as Hok;
      set (st := findSpectralNeighbors 3 p0 RootEntry root 0 st0) in *
  end.
  destruct Hok as (H0 & Hc & _ & Hr).
  { split; [apply isClustered_false; exact Eroot|left; reflexivity]. }
  { intros en Hin Hcl. split; [apply isClustered_false; exact Hcl|].
    right. unfold retrieveMz in Hin. apply filter_In in Hin as [Hin Hw].
    apply andb_true_iff in Hw as [Hlo Hhi]. exists en. auto. }
  clearbody st.
  destruct (Z.of_nat (size (cl_cluster st)) =? 1) eqn:Esize.
  - destruct (getOneComment "Xrea" (cl_root st));
      cbn [clusteredEntries multiclusters setOneComment libFileOffset];
      rewrite Hr.
    all: split; [|split; [rewrite lookup_insert_eq; eauto|left; reflexivity]].
    all: intros x Hx;
      match goal with
      | |- is_Some (<[?k := _]> _ !! _) =>
        destruct (decide (k = x)) as [->|Hne];
          [rewrite lookup_insert_eq; eauto
          |rewrite lookup_insert_ne by exact Hne; exact Hx]
      end.
  - cbn [clusteredEntries multiclusters]. split; [|split].
    + intros x Hx. apply fold_insert_marked. right. exact Hx.
    + apply fold_insert_marked. left.
      rewrite merge_sort_Permutation. apply elem_of_elements. exact H0.
    + right. exists (cl_cluster st). split; [reflexivity|].
      split; [exact H0|]. split.
      * apply Z.eqb_neq in Esize.
        assert (size (cl_cluster st) <> 0%nat).
        { intros Hz. apply size_empty_inv in Hz. rewrite Hz in H0.
          exact (not_elem_of_empty _ H0). }
        lia.
      * intros x Hx. destruct (Hc x Hx) as [Hn Hw].
        split; [exact Hn|]. split; [|exact Hw].
        apply fold_insert_marked. left.
        rewrite merge_sort_Permutation. apply elem_of_elements. exact Hx.
Qed.

(** The clusters found so far: every member is marked as clustered, no
    offset is in two clusters, every cluster has two members or more, and
    every cluster lies around one entry of the sorted index. *)
Definition clustersOK (mzIndex : MzIndex) (roots : list Entry)
    (r : ClusterRun) : Prop :=
  (forall c x, In c (multiclusters r) -> x ∈ c ->
               is_Some (clusteredEntries r !! x))
  /\ (forall i j c1 c2 x,
        multiclusters r !! i = Some c1 -> multiclusters r !! j = Some c2 ->
        x ∈ c1 -> x ∈ c2 -> i = j)
  /\ (forall c, In c (multiclusters r) ->
        (2 <= size c)%nat
        /\ exists root, In root roots /\ libFileOffset root ∈ c
                        /\ forall x, x ∈ c -> nearRoot mzIndex root x).

Lemma clusterStep_clustersOK mzIndex roots r entry :
  In entry roots ->
  clustersOK mzIndex roots r ->
  clustersOK mzIndex roots (clusterStep mzIndex r entry).
Proof.
  intros Hroot (Hm & Hd & Hs).
  destruct (clusterStep_cases mzIndex r entry)
    as (Hmono & _ & [He|(c & He & H0 & H2 & Hc)]).
  - unfold clustersOK. rewrite He. split; [|split; assumption].
    intros c x Hin Hx. apply Hmono. apply Hm with c; assumption.
  - unfold clustersOK. rewrite He. split; [|split].
    + intros c' x Hin Hx. apply in_app_or in Hin as [Hin|[<-|[]]].
      * apply Hmono. apply Hm with c'; assumption.
      * apply Hc. exact Hx.
    + intros i j c1 c2 x H1 H2' Hx1 Hx2.
      apply lookup_app_Some in H1 as [H1|[Hi H1]];
        apply lookup_app_Some in H2' as [H2'|[Hj H2']].
      * eapply Hd; eauto.
      * exfalso. apply list_lookup_singleton_Some in H2' as [_ <-].
        destruct (Hc x Hx2) as [Hn _].
        assert (is_Some (clusteredEntries r !! x)) as [v Hv].
        { apply Hm with c1; [|exact Hx1]. apply list_elem_of_In.
          eapply list_elem_of_lookup_2. exact H1. }
        congruence.
      * exfalso. apply list_lookup_singleton_Some in H1 as [_ <-].
        destruct (Hc x Hx1) as [Hn _].
        assert (is_Some (clusteredEntries r !! x)) as [v Hv].
        { apply Hm with c2; [|exact Hx2]. apply list_elem_of_In.
          eapply list_elem_of_lookup_2. exact H2'. }
        congruence.
      * apply list_lookup_singleton_Some in H1 as [H1 _].
        apply list_lookup_singleton_Some in H2' as [H2' _]. lia.
    + intros c' Hin. apply in_app_or in Hin as [Hin|[<-|[]]].
      * apply Hs. exact Hin.
      * split; [exact H2|]. exists entry. split; [exact Hroot|].
        split; [exact H0|]. intros x Hx. apply Hc. exact Hx.
Qed.

Lemma fold_clusterStep_clustersOK mzIndex roots l : forall r,
  (forall e, In e l -> In e roots) ->
  clustersOK mzIndex roots r ->
  clustersOK mzIndex roots (fold_left (clusterStep mzIndex) l r).
Proof.
  induction l as [|e l IH]; intros r Hl H; cbn [fold_left]; [exact H|].
  apply IH; [intros e' He'; apply Hl; right; exact He'|].
  apply clusterStep_clustersOK; [apply Hl; left; reflexivity|exact H].
Qed.

Lemma clusterAll_clustersOK s mzIndex :
  clustersOK mzIndex (sortEntriesBySN mzIndex) (clusterAll s mzIndex).
Proof.
  unfold clusterAll. apply fold_clusterStep_clustersOK; [auto|].
  split; [|split]; cbn; intros; try contradiction.
  rewrite lookup_nil in H. discriminate.
Qed.

Lemma fold_clusterStep_marks mzIndex l : forall r,
  (forall x, is_Some (clusteredEntries r !! x) ->
     is_Some (clusteredEntries (fold_left (clusterStep mzIndex) l r) !! x))
  /\ (forall e, In e l ->
     is_Some (clusteredEntries (fold_left (clusterStep mzIndex) l r)
                !! libFileOffset e)).
Proof.
  induction l as [|e l IH]; intros r; cbn [fold_left].
  - split; [auto|]. intros e [].
  - destruct (IH (clusterStep mzIndex r e)) as [Hmono Hall].
    destruct (clusterStep_cases mzIndex r e) as (Hstep & Hroot & _).
    split; [auto|]. intros e' [<-|Hin]; [apply Hmono; exact Hroot|].
    apply Hall. exact Hin.
Qed.

(** X11. Similarity clustering never puts a spectrum in two clusters: the
    clusters of two members or more that the first loop collects are
    pairwise disjoint, and each has at least two members. *)
Theorem clusters_are_disjoint s mzIndex :
  (forall i j c1 c2 x,
     multiclusters (clusterAll s mzIndex) !! i = Some c1 ->
     multiclusters (clusterAll s mzIndex) !! j = Some c2 ->
     x ∈ c1 -> x ∈ c2 -> i = j)
  /\ (forall c, In c (multiclusters (clusterAll s mzIndex)) ->
                (2 <= size c)%nat).
Proof.
  destruct (clusterAll_clustersOK s mzIndex) as (_ & Hd & Hs).
  split; [exact Hd|]. intros c Hin. apply Hs. exact Hin.
Qed.

(** X12. Every cluster lies around one entry of the sorted index: it holds the
    file offset of that entry, and every other member is the offset of an
    entry of the mass index whose precursor is within 2.5 m/z of it,
    however far the recursion went. *)
Theorem cluster_members_are_near_its_root s mzIndex c :
  In c (multiclusters (clusterAll s mzIndex)) ->
  exists root,
    In root (sortEntriesBySN mzIndex) /\ libFileOffset root ∈ c
    /\ forall x, x ∈ c -> nearRoot mzIndex root x.
Proof.
  intros Hin. destruct (clusterAll_clustersOK s mzIndex) as (_ & _ & Hs).
  apply Hs. exact Hin.
Qed.

(** X13. The first loop of similarity clustering leaves no entry out: every
    entry of the sorted index is marked as clustered at the end, alone or in
    a cluster. *)
Theorem every_entry_is_clustered s mzIndex :
  Forall (fun e => is_Some (clusteredEntries (clusterAll s mzIndex)
                              !! libFileOffset e))
         (sortEntriesBySN mzIndex).
Proof.
  apply Forall_forall. intros e He. apply list_elem_of_In in He.
  unfold clusterAll. apply fold_clusterStep_marks. exact He.
Qed.

(** ** openSplibs *)

Definition preambleOf (f : InputFile) : list string :=
  match content f with
  | Some lib => preambleLines lib
  | None => []
  end.

Lemma openOne_preamble a b c d s f :
  m_preamble (openOne a b c d s f) = m_preamble s ++ preambleOf f.
Proof.
  unfold openOne, preambleOf. destruct (content f) as [lib|].
  - destruct (b || c || _).
    + destruct (c && _); [reflexivity|].
      destruct (d && _); reflexivity.
    + reflexivity.
  - cbn. rewrite app_nil_r. reflexivity.
Qed.

Lemma fold_openOne_preamble a b c d files : forall s,
  m_preamble (fold_left (openOne a b c d) files s)
  = m_preamble s ++ flat_map preambleOf files.
Proof.
  induction files as [|f files IH]; intros s; cbn [fold_left flat_map].
  - rewrite app_nil_r. reflexivity.
  - rewrite IH, openOne_preamble, <- app_assoc. reflexivity.
Qed.

(** X14. [openSplibs] gives every input file one slot in each of the three
    vectors, at the position of its name, whether or not it could be
    opened; it collects the preamble lines of the files it opened, in
    order; and it works once: a later call, with whatever flags, changes
    nothing. *)
Theorem openSplibs_one_slot_per_file_once a b c d files p :
  m_splibFins (openSplibs a b c d (construct files p)) = map content files
  /\ m_pepIndices (openSplibs a b c d (construct files p))
     = map (pepIndexOf b c d p) files
  /\ m_mzIndices (openSplibs a b c d (construct files p))
     = map (mzIndexOf a) files
  /\ m_preamble (openSplibs a b c d (construct files p))
     = flat_map preambleOf files
  /\ forall a' b' c' d',
       openSplibs a' b' c' d' (openSplibs a b c d (construct files p))
       = openSplibs a b c d (construct files p).
Proof.
  unfold openSplibs at 1 2 3 4.
  change (m_splibFins (construct files p)) with (@nil (option SpLib)).
  cbv iota. change (m_impFiles (construct files p)) with files.
  destruct (openSplibs_stores a b c d files (construct files p))
    as (Hp & Hm & Hf & _).
  cbv zeta in Hp, Hm, Hf. cbn [construct m_pepIndices m_mzIndices m_splibFins
    m_params app] in Hp, Hm, Hf.
  split; [exact Hf|]. split; [exact Hp|]. split; [exact Hm|].
  split; [rewrite fold_openOne_preamble; reflexivity|].
  intros a' b' c' d'. unfold openSplibs at 2.
  change (m_splibFins (construct files p)) with (@nil (option SpLib)).
  cbv iota. change (m_impFiles (construct files p)) with files.
  unfold openSplibs. rewrite Hf.
  destruct files as [|f files]; reflexivity.
Qed.

(** ** processEntry on an unmapped sequence *)

Lemma processEntry_unmapped_shape s e m pep :
  m_ppMappings s = Some m -> peptidePtr e = Some pep ->
  m !! stripped pep = Some None ->
  exists e3,
    peptidePtr e3 = Some pep
    /\ getOneComment "Protein" e3 = getOneComment "Protein" e
    /\ processEntry s e
       = setOneComment "PepContext" "0/UNMAPPED"
           (setOneComment "Protein" "0/UNMAPPED"
              match getOneComment "Protein" e3 with
              | Some origProtein => setOneComment "OrigProtein" origProtein e3
              | None => e3
              end).
Proof.
  intros Hm Hp Hl. unfold processEntry. rewrite Hm.
  match goal with
  | |- context [match peptidePtr ?x with _ => _ end] =>
    set (e3 := x)
  end.
  assert (H3 : peptidePtr e3 = Some pep
               /\ getOneComment "Protein" e3 = getOneComment "Protein" e).
  { subst e3.
    unfold getOneComment.
    destruct (nonEmpty (setFragmentation (m_params s)));
      cbn [setFragType comments peptidePtr];
      rewrite Hp;
      destruct (comments e !! "NAA");
      destruct (0 <? reduceSpectrum (m_params s));
      try destruct (reduce _ _ _ _ _);
      cbn [setOneComment setPeakList setFragType comments peptidePtr];
      rewrite ?lookup_insert_ne by discriminate; auto. }
  destruct H3 as [H3 H3']. exists e3. split; [exact H3|]. split; [exact H3'|].
  clearbody e3. rewrite H3, Hl. reflexivity.
Qed.

(** X15. When the sequence of an entry is known to the protein mappings but maps
    to no protein, [processEntry] saves the [Protein] comment the entry came
    with under [OrigProtein] and sets [Protein] and [PepContext] to
    [0/UNMAPPED]. The copy is not protected: processing the result again
    overwrites [OrigProtein] with [0/UNMAPPED]. *)
Theorem processEntry_unmapped_saves_original_protein s e m pep v :
  m_ppMappings s = Some m -> peptidePtr e = Some pep ->
  m !! stripped pep = Some None ->
  getOneComment "Protein" e = Some v ->
  getOneComment "OrigProtein" (processEntry s e) = Some v
  /\ getOneComment "Protein" (processEntry s e) = Some "0/UNMAPPED"
  /\ getOneComment "PepContext" (processEntry s e) = Some "0/UNMAPPED"
  /\ getOneComment "OrigProtein" (processEntry s (processEntry s e))
     = Some "0/UNMAPPED".
Proof.
  intros Hm Hp Hl Hv.
  destruct (processEntry_unmapped_shape s e m pep Hm Hp Hl)
    as (e3 & Hp3 & Hv3 & He).
  rewrite Hv3, Hv in He.
  assert (H1 : getOneComment "OrigProtein" (processEntry s e) = Some v).
  { rewrite He. unfold getOneComment. cbn [setOneComment comments].
    rewrite !lookup_insert_ne by discriminate.
    rewrite lookup_insert_eq. reflexivity. }
  assert (H2 : getOneComment "Protein" (processEntry s e)
               = Some "0/UNMAPPED").
  { rewrite He. unfold getOneComment. cbn [setOneComment comments].
    rewrite lookup_insert_ne by discriminate.
    rewrite lookup_insert_eq. reflexivity. }
  assert (H3 : getOneComment "PepContext" (processEntry s e)
               = Some "0/UNMAPPED").
  { rewrite He. unfold getOneComment. cbn [setOneComment comments].
    rewrite lookup_insert_eq. reflexivity. }
  assert (Hp' : peptidePtr (processEntry s e) = Some pep).
  { rewrite He. exact Hp3. }
  split; [exact H1|]. split; [exact H2|]. split; [exact H3|].
  destruct (processEntry_unmapped_shape s (processEntry s e) m pep Hm Hp' Hl)
    as (e3' & Hp3' & Hv3' & He').
  rewrite Hv3', H2 in He'. rewrite He'.
  unfold getOneComment. cbn [setOneComment comments].
  rewrite !lookup_insert_ne by discriminate.
  rewrite lookup_insert_eq. reflexivity.
Qed.

End MoreProps.

(** ** The order of the mapped proteins *)

(** The proteins as [joinProteins] lists them: those after the first that
    are not decoys, latest first; then the first; then the decoys after the
    first, in order. *)
Definition proteinOrder (prots : list (string * string))
  : list (string * string) :=
  match prots with
  | [] => []
  | first :: rest =>
    rev (List.filter (fun pr => negb (isDecoyProtein (fst pr))) rest)
    ++ first :: List.filter (fun pr => isDecoyProtein (fst pr)) rest
  end.

Definition slashed (l : list (string * string)) : string * string :=
  (String.concat "/" (map fst l), String.concat "/" (map snd l)).

Lemma concat_cons sep x l :
  l <> [] -> String.concat sep (x :: l) = x +:+ sep +:+ String.concat sep l.
Proof. destruct l; [congruence|reflexivity]. Qed.

Lemma append_assoc' (a b c : string) : (a +:+ b) +:+ c = a +:+ (b +:+ c).
Proof.
  induction a as [|ch a IH]; [reflexivity|].
  change (String ch ((a +:+ b) +:+ c) = String ch (a +:+ (b +:+ c))).
  rewrite IH. reflexivity.
Qed.

Lemma concat_snoc sep x l :
  l <> [] ->
  String.concat sep (l ++ [x]) = String.concat sep l +:+ sep +:+ x.
Proof.
  induction l as [|y l IH]; [congruence|]. intros _.
  destruct l as [|z l]; [reflexivity|].
  change ((y :: z :: l) ++ [x]) with (y :: ((z :: l) ++ [x])).
  rewrite concat_cons by (destruct l; discriminate).
  rewrite IH by discriminate.
  rewrite (concat_cons sep y (z :: l)) by discriminate.
  rewrite !append_assoc'. reflexivity.
Qed.

Lemma nonEmpty_append_l a b : nonEmpty a = true -> nonEmpty (a +:+ b) = true.
Proof. destruct a; [discriminate|reflexivity]. Qed.

Lemma nonEmpty_append_r a b : nonEmpty b = true -> nonEmpty (a +:+ b) = true.
Proof. destruct a; [auto|reflexivity]. Qed.

Lemma fold_joinProtein rest : forall L,
  L <> [] -> nonEmpty (String.concat "/" (map fst L)) = true ->
  fold_left joinProtein rest (slashed L)
  = slashed (rev (List.filter (fun pr => negb (isDecoyProtein (fst pr))) rest)
             ++ L ++ List.filter (fun pr => isDecoyProtein (fst pr)) rest).
Proof.
  induction rest as [|pr rest IH]; intros L HL Hne.
  - cbn. rewrite app_nil_r. reflexivity.
  - cbn [fold_left List.filter]. unfold joinProtein at 2, slashed at 1.
    unfold nonEmpty in Hne. apply negb_true_iff in Hne. rewrite Hne.
    assert (HmL : forall f : string * string -> string, map f L <> []).
    { intros f. destruct L; [congruence|discriminate]. }
    destruct (isDecoyProtein (fst pr)) eqn:Ed; cbn [negb].
    + rewrite <- !(concat_snoc "/") by apply HmL.
      rewrite <- !map_last.
      change (String.concat "/" (map fst (L ++ [pr])),
              String.concat "/" (map snd (L ++ [pr])))
        with (slashed (L ++ [pr])).
      rewrite IH.
      * rewrite <- (app_assoc L). reflexivity.
      * destruct L; discriminate.
      * rewrite map_last, concat_snoc by apply HmL.
        apply nonEmpty_append_l. unfold nonEmpty. rewrite Hne. reflexivity.
    + rewrite <- !(concat_cons "/") by apply HmL.
      change (String.concat "/" (fst pr :: map fst L),
              String.concat "/" (snd pr :: map snd L))
        with (slashed (pr :: L)).
      rewrite IH.
      * cbn [rev]. rewrite <- !app_assoc. reflexivity.
      * discriminate.
      * cbn [map]. rewrite concat_cons by apply HmL.
        apply nonEmpty_append_r, nonEmpty_append_r.
        unfold nonEmpty. rewrite Hne. reflexivity.
Qed.

(** X16. When a sequence maps to several proteins and the first has a name, the
    [Protein] and [PepContext] lists are the slash-separated names and
    contexts in this order: the later proteins that are not decoys (names
    not beginning with DECOY, REV or rev), latest first, then the first
    protein, then the later decoys in order. The two lists are in the same
    order. *)
Theorem mapped_proteins_listed_decoys_last first rest :
  nonEmpty (fst first) = true ->
  joinProteins (first :: rest) = slashed (proteinOrder (first :: rest)).
Proof.
  intros Hne. unfold joinProteins. cbn [fold_left].
  change (joinProtein (EmptyString, EmptyString) first) with (slashed [first]).
  rewrite fold_joinProtein; [reflexivity|discriminate|exact Hne].
Qed.

(** ** hackDeamidation *)

Lemma openSite_insert_ne seq m x v pos :
  x <> pos -> openSite seq (<[x := v]> m) pos = openSite seq m pos.
Proof.
  intros Hne. unfold openSite. rewrite lookup_insert_ne by exact Hne.
  reflexivity.
Qed.

Lemma deamidateSites_lookup seq positions : forall m pos,
  deamidateSites seq positions m !! pos
  = if bool_decide (pos ∈ positions) && openSite seq m pos
    then Some "Deamidated" else m !! pos.
Proof.
  unfold deamidateSites.
  induction positions as [|x l IH]; intros m pos; cbn [fold_left].
  - reflexivity.
  - rewrite IH. destruct (decide (x = pos)) as [->|Hne].
    + rewrite (bool_decide_eq_true_2 (pos ∈ pos :: l)) by apply list_elem_of_here.
      destruct (openSite seq m pos) eqn:Eo.
      * unfold openSite at 1. rewrite lookup_insert_eq.
        rewrite (bool_decide_eq_false_2 (Some "Deamidated" = None))
          by discriminate.
        cbn [andb]. rewrite andb_false_r. reflexivity.
      * rewrite Eo, andb_false_r. reflexivity.
    + assert (Hin : bool_decide (pos ∈ x :: l) = bool_decide (pos ∈ l)).
      { apply bool_decide_ext. rewrite elem_of_cons.
        split; [intros [E|Hl]; [congruence|exact Hl]|intros Hl; right; exact Hl]. }
      rewrite Hin.
      destruct (openSite seq m x).
      * rewrite openSite_insert_ne by exact Hne.
        rewrite lookup_insert_ne by exact Hne. reflexivity.
      * reflexivity.
Qed.

Lemma count_open_sites seq m l : forall n,
  0 <= n ->
  0 <= fold_left (fun n pos => if openSite seq m pos then n + 1 else n) l n
  /\ (fold_left (fun n pos => if openSite seq m pos then n + 1 else n) l n = 0
      <-> n = 0 /\ forall pos, pos ∈ l -> openSite seq m pos = false).
Proof.
  induction l as [|x l IH]; intros n Hn; cbn [fold_left].
  - split; [exact Hn|]. split; [intros ->; split; [reflexivity|]|tauto].
    intros pos Hp. inversion Hp.
  - destruct (openSite seq m x) eqn:Ex.
    + destruct (IH (n + 1)) as [H0 Hz]; [lia|]. split; [exact H0|].
      split.
      * intros Hf. apply Hz in Hf as [Hf _]. lia.
      * intros [-> Hall]. rewrite Hall in Ex by apply list_elem_of_here.
        discriminate.
    + destruct (IH n Hn) as [H0 Hz]. split; [exact H0|]. rewrite Hz.
      split; intros [-> Hall]; (split; [reflexivity|]).
      * intros pos Hp. apply elem_of_cons in Hp as [->|Hp]; auto.
      * intros pos Hp. apply Hall. apply list_elem_of_further. exact Hp.
Qed.

(** X18. What [hackDeamidation] does to the modifications: when it accepts an
    entry with a positive mass difference, every position of the sequence
    that holds N or Q and carried no modification is marked Deamidated,
    all of them whatever the mass difference says, and every modification
    that was there stays; in every other case the modifications are left
    as they were. It rejects exactly when the mass difference is positive
    and below the number of open N/Q positions. *)
Theorem hackDeamidation_marks_all_open_sites_or_none n p :
  exists b p',
    hackDeamidation n (Some p) = Done (b, Some p')
    /\ mp_stripped p' = mp_stripped p /\ mp_NAA p' = mp_NAA p
    /\ (b = false <-> 0 < n < numPossibleSites p)
    /\ forall pos,
         mods p' !! pos
         = if b && (0 <? n) && (0 <=? pos) && (pos <? mp_NAA p)
              && openSite (mp_stripped p) (mods p) pos
           then Some "Deamidated" else mods p !! pos.
Proof.
  unfold hackDeamidation. destruct (0 <? n) eqn:En.
  - apply Z.ltb_lt in En.
    destruct (numPossibleSites p <=? n) eqn:Ek.
    + apply Z.leb_le in Ek. eexists _, _. split; [reflexivity|].
      split; [reflexivity|]. split; [reflexivity|]. split.
      * split; [discriminate|lia].
      * intros pos. cbn [mods setMods]. rewrite deamidateSites_lookup.
        assert (Hin : bool_decide (pos ∈ seqZ 0 (mp_NAA p))
                      = (0 <=? pos) && (pos <? mp_NAA p)).
        { destruct (0 <=? pos) eqn:E0; destruct (pos <? mp_NAA p) eqn:E1;
            cbn [andb];
            [apply bool_decide_eq_true_2|apply bool_decide_eq_false_2..];
            rewrite elem_of_seqZ; lia. }
        rewrite Hin. reflexivity.
    + apply Z.leb_gt in Ek. eexists _, _. split; [reflexivity|].
      split; [reflexivity|]. split; [reflexivity|]. split.
      * split; [lia|reflexivity].
      * intros pos. reflexivity.
  - apply Z.ltb_ge in En. eexists _, _. split; [reflexivity|].
    split; [reflexivity|]. split; [reflexivity|]. split.
    + split; [discriminate|lia].
    + intros pos. rewrite andb_false_r. reflexivity.
Qed.

(** X19. Once [hackDeamidation] has accepted an entry with a positive mass
    difference, no open N/Q position is left: a second pass over the result
    accepts it for any mass difference and changes nothing. *)
Theorem hackDeamidation_settles n p p' n' :
  0 < n -> hackDeamidation n (Some p) = Done (true, Some p') ->
  numPossibleSites p' = 0
  /\ hackDeamidation n' (Some p') = Done (true, Some p').
Proof.
  intros Hn H. unfold hackDeamidation in H.
  apply Z.ltb_lt in Hn. rewrite Hn in H.
  destruct (numPossibleSites p <=? n); [|discriminate].
  injection H as <-.
  set (m' := deamidateSites (mp_stripped p) (seqZ 0 (mp_NAA p)) (mods p)).
  assert (Hclosed : forall pos, pos ∈ seqZ 0 (mp_NAA p) ->
                                openSite (mp_stripped p) m' pos = false).
  { intros pos Hp. unfold openSite. subst m'.
    rewrite deamidateSites_lookup.
    rewrite (bool_decide_eq_true_2 _ Hp). cbn [andb].
    destruct (openSite (mp_stripped p) (mods p) pos) eqn:Eo.
    - rewrite bool_decide_eq_false_2 by discriminate. reflexivity.
    - unfold openSite in Eo. exact Eo. }
  assert (Hz : numPossibleSites (setMods m' p) = 0).
  { unfold numPossibleSites. cbn [setMods mp_stripped mp_NAA mods].
    apply count_open_sites; [lia|]. split; [reflexivity|exact Hclosed]. }
  split; [exact Hz|].
  unfold hackDeamidation. destruct (0 <? n') eqn:En'; [|reflexivity].
  rewrite Hz. apply Z.ltb_lt in En'.
  rewrite (proj2 (Z.leb_le 0 n')) by lia.
  do 3 f_equal. unfold setMods. cbn [mp_stripped mp_NAA mods]. f_equal.
  apply map_eq. intros pos. rewrite deamidateSites_lookup.
  destruct (bool_decide (pos ∈ seqZ 0 (mp_NAA p))) eqn:Ep; [|reflexivity].
  apply bool_decide_eq_true in Ep. rewrite (Hclosed pos Ep). reflexivity.
Qed.

(** ** The F value *)

Lemma dlt_spec a b : dlt a b = true <-> (a < b)%Q.
Proof.
  unfold dlt. rewrite negb_true_iff. split.
  - intros H. apply Qnot_le_lt. intros Hle. apply Qle_bool_iff in Hle.
    congruence.
  - intros H. destruct (Qle_bool b a) eqn:E; [|reflexivity].
    apply Qle_bool_iff in E. lra.
Qed.

Lemma dlt_false a b : dlt a b = false <-> (b <= a)%Q.
Proof.
  unfold dlt. rewrite negb_false_iff. apply Qle_bool_iff.
Qed.

Ltac qcases :=
  repeat match goal with
  | H : dlt _ _ = true |- _ => apply dlt_spec in H
  | H : dlt _ _ = false |- _ => apply dlt_false in H
  | H : dgt _ _ = true |- _ => unfold dgt in H
  | H : dgt _ _ = false |- _ => unfold dgt in H
  | H : Qle_bool _ _ = true |- _ => apply Qle_bool_iff in H
  | H : Qle_bool _ _ = false |- _ => apply Qle_bool_false in H
  | H : _ && _ = true |- _ => apply andb_true_iff in H as [? ?]
  | H : _ && _ = false |- _ => apply andb_false_iff in H as [?|?]
  end.

Lemma penalized_range s :
  (fval s - (24 # 100) <= penalized s <= fval s)%Q.
Proof.
  unfold penalized.
  destruct (dlt (dotBias s) (9 # 100)) eqn:E1; [lra|].
  destruct (dgt (dotBias s) (32 # 100) && Qle_bool (dotBias s) (35 # 100))
    eqn:E2; [qcases; lra|].
  destruct (dgt (dotBias s) (35 # 100) && Qle_bool (dotBias s) (45 # 100))
    eqn:E3; [qcases; lra|].
  destruct (dgt (dotBias s) (45 # 100)) eqn:E4; lra.
Qed.


(** X22. For a dot product and a delta in their ranges (0 <= delta <= dot <= 1)
    and a delta fraction between 0 and 1, the F value is -0.00001 or lies
    in (0, 1]. *)
Theorem calcFval_range fractionDelta s :
  (0 <= fractionDelta)%Q -> (fractionDelta <= 1)%Q ->
  (0 <= delta s)%Q -> (delta s <= dot s)%Q -> (dot s <= 1)%Q ->
  fval (calcFval fractionDelta s) = (- (1 # 100000))%Q
  \/ (0 < fval (calcFval fractionDelta s)
      /\ fval (calcFval fractionDelta s) <= 1)%Q.
Proof.
  intros Hf0 Hf1 Hd0 Hd1 Hdot. unfold calcFval.
  destruct (dlt (dot s) (1 # 100000)) eqn:E0; [left; reflexivity|].
  qcases.
  assert (Hpos : (0 < dot s)%Q) by lra.
  assert (Hq : (0 <= delta s / dot s <= 1)%Q).
  { split.
    - apply Qle_shift_div_l; [exact Hpos|lra].
    - apply Qle_shift_div_r; [exact Hpos|lra]. }
  set (f0 := ((1 - fractionDelta) * dot s
              + fractionDelta * delta s / dot s)%Q).
  assert (H0 : (f0 <= 1)%Q).
  { subst f0.
    assert (E : (fractionDelta * delta s / dot s
                 == fractionDelta * (delta s / dot s))%Q) by (field; lra).
    rewrite E. nra. }
  set (f1 := if dgt f0 (4 # 10) && (hitsNum s <? 20)
             then ((1 - (5 # 10) * fractionDelta) * dot s)%Q else f0).
  assert (H1 : (f1 <= 1)%Q).
  { subst f1. destruct (dgt f0 (4 # 10) && (hitsNum s <? 20)); [nra|exact H0]. }
  clearbody f1.
  unfold imposeDotBiasPenalty. cbn [fval setFval].
  pose proof (penalized_range (setFval f1 s)) as Hr.
  cbn [fval setFval] in Hr.
  destruct (Qle_bool (penalized (setFval f1 s)) 0) eqn:E; qcases.
  - left. reflexivity.
  - right. lra.
Qed.

(** ** constructOutputFileName *)

(** X17. The output file name tells apart only the combine actions UNION,
    INTERSECT, SUBTRACT, SUBTRACT_HOMOLOG and APPEND: a run with any other
    combine action, SUBTRACT_HOMOLOGS (the spelling [import] acts on)
    included, gets the name of the UNION of the same files. *)
Theorem other_combine_actions_named_as_union parseFileName files p p' :
  existsb (String.eqb (combineAction p))
          ["INTERSECT"; "SUBTRACT"; "SUBTRACT_HOMOLOG"; "APPEND"] = false ->
  combineAction p' = "UNION" -> buildAction p' = buildAction p ->
  constructOutputFileName parseFileName files p
  = constructOutputFileName parseFileName files p'.
Proof.
  intros Hc Hu Hb. unfold constructOutputFileName.
  assert (Ho : operOf p = operOf p').
  { unfold operOf. rewrite Hu. cbn [existsb] in Hc.
    apply orb_false_iff in Hc as [H1 Hc]. apply orb_false_iff in Hc as [H2 Hc].
    apply orb_false_iff in Hc as [H3 Hc]. apply orb_false_iff in Hc as [H4 _].
    destruct (String.eqb (combineAction p) "UNION"); [reflexivity|].
    rewrite H1, H2, H3, H4. reflexivity. }
  assert (Hs : buildSuffix p = buildSuffix p').
  { unfold buildSuffix. rewrite Hb. reflexivity. }
  rewrite Ho, Hs. reflexivity.
Qed.

(** * Worked examples *)

(** Collaborators for the examples: no denoiser, filters that pass
    everything, entries filed under their name and fragmentation type, and
    a table of dot products keyed by the m/z of the first peak. *)
Definition tableDot (a b : list Peak) : double :=
  match a, b with
  | x :: _, y :: _ =>
    let i := Qfloor (peakMz x) in
    let j := Qfloor (peakMz y) in
    if i =? j then 1
    else if (Z.min i j =? 1) && (Z.max i j =? 2) then 1
    else if (Z.min i j =? 1) && (Z.max i j =? 3) then 1 # 2
    else if (Z.min i j =? 2) && (Z.max i j =? 3) then 1 # 4
    else 0
  | _, _ => 0
  end%Q.

#[global] Instance exampleCollaborators : Collaborators := {|
  Denoiser := unit;
  newDenoiser := tt;
  useDefault := fun d => d;
  isFilterReady := fun _ => false;
  generateBayesianModel := fun d => d;
  findBestReplicate := fun _ l => head l;
  makeConsensusSpectrum := fun _ _ l => head l;
  denoiserAfterConsensus := fun _ d _ => d;
  basePassAllFilters := fun _ _ => true;
  entryKey := fun e => (name e, fragType e);
  peptideEq := fun a b => String.eqb (stripped a) (stripped b)
                          && (pepCharge a =? pepCharge b);
  isHomolog := fun a b _ => (String.eqb (stripped a) (stripped b), 0);
  interactStyleWithCharge := stripped;
  NAA := fun pep => Z.of_nat (String.length (stripped pep));
  compare := tableDot;
  simplify := fun _ _ l => l;
  calcXrea := fun _ => 1%Q;
  calcFractionUnassigned := fun pep _ _ _ =>
    if String.eqb (stripped pep) "IMPURE" then ((1 # 2)%Q, 10, 10)
    else (0%Q, 0, 20);
  reduce := fun _ _ _ _ l => (l, 1%Q);
  parseSeCount := fun _ => 1;
  parseFracUnassignedTop20 := fun _ => (0%Q, 0, 20);
  atof := fun _ => 0%Q;
  fmtFixed := fun _ _ => "0"%string;
  fmtUInt := fun _ => "0"%string;
  idxHasSharedSequence := fun _ pep _ => String.eqb (stripped pep) "SHARED";
  sortEntriesByNreps := fun l => l;
  sortEntriesBySN := fun l => l;
  fastaRefresh := fun _ _ m => m;
  remapProteins := fun _ e => e;
  constructDescrStr := fun _ files _ => files;
  makeFullPath := fun f => f;
  decoyEntries := fun _ _ _ _ => [];
  semiEmpiricalEntries := fun _ _ => []
|}.

Definition exampleParams (combine build : string) (mark remove : Z)
    (quorum minDot : double) : Params :=
  {| combineAction := combine; buildAction := build;
     plotSpectra := EmptyString; useBayesianDenoiser := false;
     trainBayesianDenoiser := false; refreshDatabase := EmptyString;
     refreshTrypticOnly := false; refreshDeleteUnmapped := false;
     refreshDeleteMultimapped := false; qualityLevelMark := mark;
     qualityLevelRemove := remove; qualityImmuneProbThreshold := 999 # 1000;
     qualityImmuneMultipleEngines := false;
     qualityPenalizeSingletons := false; minimumNumReplicates := 3;
     peakQuorum := quorum; decoySizeRatio := 1; decoyConcatenate := false;
     reduceSpectrum := 0; minimumMRMQ3MZ := 0%Q; maximumMRMQ3MZ := 0%Q;
     allowableModTokens := EmptyString; setFragmentation := EmptyString;
     annotatePeaks := false; unidentifiedClusterMinimumDot := minDot;
     unidentifiedSingletonXreaThreshold := 0%Q |}.

Definition examplePeak (mz : double) (nreps : Z) : Peak :=
  {| peakMz := mz; intensity := 100%Q; nrepsWithPeak := nreps |}.

Definition exampleEntry (id : Z) (pep : option Peptide) (nreps : Z)
    (p mz : double) (peaks : list Peak) : Entry :=
  {| libId := id; name := "PEPTIDE/2"; libFileOffset := id;
     peptidePtr := pep; charge := 2; fragType := "CID"; status := "Normal";
     nrepsUsed := nreps; prob := p; precursorMz := mz; comments := ∅;
     peakList := peaks |}.

Definition examplePeptide : Peptide :=
  {| stripped := "PEPTIDE"; pepCharge := 2; pepMods := EmptyString |}.

(** ** The quality filter on one entry *)

(** A singleton below the immunity threshold, with one peak seen in its
    one replicate. *)
Definition singletonEntry : Entry :=
  exampleEntry 1 (Some examplePeptide) 1 (9 # 10) 500%Q [examplePeak 1%Q 1].

Definition removeAt5 : Importer :=
  construct [] (exampleParams "UNION" "QUALITY_FILTER" 0 5 (6 # 10) (7 # 10)).


(** What a call of [applyQualityFilter] leaves to look at: the value
    returned, the replicate support of the peaks kept, and two counters. *)
Definition statsOf (o : Outcome (bool * Entry * QFStats * Importer))
  : option (bool * list Z * Z * Z) :=
  match o with
  | Done (b, e, q, _) => Some (b, map nrepsWithPeak (peakList e), q Q5, q Q4)
  | Crash _ => None
  end.

(** The result of a computation that ended, or a default. *)
Definition doneOr {A : Type} (d : A) (o : Outcome A) : A :=
  match o with
  | Done a => a
  | Crash _ => d
  end.

(** C1 at the singleton: removed at level 5. *)
Lemma C1_singleton_example :
  exists e' q' s',
    applyQualityFilter removeAt5 singletonEntry qfstats_zero
    = Done (false, e', q', s')
    /\ q' Q5 = u32 (qfstats_zero Q5 + 1)
    /\ q' Q4 = qfstats_zero Q4
    /\ lib_entries s' = lib_entries removeAt5
    /\ qualityFilterLoop [singletonEntry] removeAt5 qfstats_zero
       = qualityFilterLoop [] s' q'.
Proof.
  apply (C1_singleton_removed_counted_Q5 removeAt5 singletonEntry
           qfstats_zero []); reflexivity.
Defined.

(** The singleton is removed and counted under Q5, and the Q4 counter is
    still 0 afterwards: the removal is not recorded under Q4. *)
Lemma C1_singleton_not_counted_Q4 :
  statsOf (applyQualityFilter removeAt5 singletonEntry qfstats_zero)
  = Some (false, [1], 1, 0).
Proof. vm_compute. reflexivity. Qed.

(** An entry of four replicates whose peaks were seen in 1, 3 and 4 of
    them; with a peak quorum of 0.6 the threshold is 3. *)
Definition noLevels : Importer :=
  construct [] (exampleParams "UNION" "QUALITY_FILTER" 0 0 (6 # 10) (7 # 10)).

Definition fourReplicates (p : double) : Entry :=
  exampleEntry 2 (Some examplePeptide) 4 p 500%Q
    [examplePeak 1%Q 1; examplePeak 2%Q 3; examplePeak 3%Q 4].

Definition keptOf (e : Entry) : bool * Entry * QFStats * Importer :=
  doneOr (false, e, qfstats_zero, noLevels)
         (applyQualityFilter noLevels e qfstats_zero).

(** C2 at the entry below the immunity threshold: the peak seen in one
    replicate is pruned, and the threshold is the ceiling of 4 times the
    double of 0.6. *)
Lemma C2_four_replicates_example :
  peakList (keptOf (fourReplicates (9 # 10))).1.1.2
  = removeInquoratePeaks 3 (peakList (fourReplicates (9 # 10)))
  /\ minNumRepWithPeak (m_params noLevels) 4
     = Z.max 1 (Qceiling (inject_Z 4 * roundDouble (6 # 10))).
Proof.
  destruct (C2_peak_quorum_unless_immune noLevels (fourReplicates (9 # 10))
              qfstats_zero
              (keptOf (fourReplicates (9 # 10))).1.1.1
              (keptOf (fourReplicates (9 # 10))).1.1.2
              (keptOf (fourReplicates (9 # 10))).1.2
              (keptOf (fourReplicates (9 # 10))).2)
    as (_ & Hpruned & Hceiling).
  - vm_compute. reflexivity.
  - split.
    + apply Hpruned; reflexivity.
    + apply Hceiling.
      * vm_compute. discriminate.
      * vm_compute. discriminate.
      * right. vm_compute. discriminate.
Defined.

(** An entry of 125 replicates whose peaks were seen in 4 and 5 of them,
    under a peak quorum of 0.03200008: the product is 4.00001. *)
Definition narrowQuorum : Importer :=
  construct []
    (exampleParams "UNION" "QUALITY_FILTER" 0 0 (3200008 # 100000000)
                   (7 # 10)).

Definition manyReplicateEntry : Entry :=
  exampleEntry 2 (Some examplePeptide) 125 (9 # 10) 500%Q
    [examplePeak 1%Q 4; examplePeak 2%Q 5].

(** The same entry at probability 1 is immune: it is kept with the peak
    seen in one replicate of four still in its peak list, below the
    ceiling of 2.4. And where the product lies less than 0.000012 above an
    integer the ceiling is not the threshold: at 125 replicates and a
    quorum of 0.03200008 the peak seen in 4 replicates is kept, the
    threshold being 4 and the ceiling 5. *)
Lemma C2_immune_entry_keeps_its_peaks :
  statsOf (applyQualityFilter noLevels (fourReplicates 1%Q) qfstats_zero)
  = Some (true, [1; 3; 4], 0, 0)
  /\ Z.max 1 (Qceiling (inject_Z 4 * roundDouble (6 # 10))) = 3
  /\ statsOf (applyQualityFilter narrowQuorum manyReplicateEntry qfstats_zero)
     = Some (true, [4; 5], 0, 0)
  /\ minNumRepWithPeak (m_params narrowQuorum) 125 = 4
  /\ Z.max 1 (Qceiling (inject_Z 125 * roundDouble (3200008 # 100000000)))
     = 5.
Proof. repeat split; vm_compute; reflexivity. Qed.

(** ** Combining libraries *)

Definition missingFile : InputFile :=
  {| fileName := "missing.splib"; content := None |}.

Definition unionParams : Params :=
  exampleParams "UNION" EmptyString 0 0 (6 # 10) (7 # 10).

(** C3 at a UNION of one file that cannot be opened: the output library
    has its preamble and no entry. *)
Lemma C3_missing_file_example :
  exists s', run [missingFile] unionParams = Done s'
             /\ lib_entries s' = []
             /\ is_Some (lib_preamble s').
Proof.
  apply (C3_first_input_unusable_preamble_written missingFile [] unionParams);
    reflexivity.
Defined.

Definition oneEntryLib : SpLib :=
  {| pepidx := [("PEPTIDE/2"%string, [("CID"%string, [singletonEntry])])];
     mzidx := [singletonEntry]; preambleLines := [] |}.

Definition fileA : InputFile :=
  {| fileName := "a.splib"; content := Some oneEntryLib |}.

Definition fileB : InputFile :=
  {| fileName := "b.splib"; content := Some oneEntryLib |}.

(** C4 at a library of one entry and its copy. *)
Lemma C4_one_entry_example :
  exists s',
    run [fileA; fileB] unionParams = Done s'
    /\ lib_entries s'
       = flat_map (fun ion => written s' (snd ion ++ snd ion))
                  (peptideIons (pepidx oneEntryLib)).
Proof.
  apply (C4_union_with_itself_writes_each_entry_twice fileA fileB oneEntryLib
           oneEntryLib unionParams); try reflexivity.
  - split.
    + constructor; [apply not_elem_of_nil|constructor].
    + repeat constructor. apply not_elem_of_nil.
  - intros s peptide sks k es e Hp Hidx Hsks He.
    destruct Hidx as [Hidx|[]]. injection Hidx as <- <-.
    destruct Hsks as [Hsks|[]]. injection Hsks as <- <-.
    destruct He as [<-|[]].
    unfold processEntry. rewrite Hp. cbn.
    repeat match goal with
           | |- context [match ?x with _ => _ end] => destruct x
           end; reflexivity.
Defined.

(** The library has one entry; its UNION with its copy has two, both with
    the identifier of that entry. *)
Lemma C4_union_with_copy_duplicates :
  map libId (mzidx oneEntryLib) = [1]
  /\ map libId (lib_entries (doneOr (construct [] unionParams)
                               (run [fileA; fileB] unionParams)))
     = [1; 1].
Proof. split; vm_compute; reflexivity. Qed.

(** The parameters of the examples with the fragmentation type of every
    written entry set to ETD. *)
Definition withFragmentation (p : Params) : Params :=
  {| combineAction := combineAction p; buildAction := buildAction p;
     plotSpectra := plotSpectra p;
     useBayesianDenoiser := useBayesianDenoiser p;
     trainBayesianDenoiser := trainBayesianDenoiser p;
     refreshDatabase := refreshDatabase p;
     refreshTrypticOnly := refreshTrypticOnly p;
     refreshDeleteUnmapped := refreshDeleteUnmapped p;
     refreshDeleteMultimapped := refreshDeleteMultimapped p;
     qualityLevelMark := qualityLevelMark p;
     qualityLevelRemove := qualityLevelRemove p;
     qualityImmuneProbThreshold := qualityImmuneProbThreshold p;
     qualityImmuneMultipleEngines := qualityImmuneMultipleEngines p;
     qualityPenalizeSingletons := qualityPenalizeSingletons p;
     minimumNumReplicates := minimumNumReplicates p;
     peakQuorum := peakQuorum p;
     decoySizeRatio := decoySizeRatio p;
     decoyConcatenate := decoyConcatenate p;
     reduceSpectrum := reduceSpectrum p;
     minimumMRMQ3MZ := minimumMRMQ3MZ p;
     maximumMRMQ3MZ := maximumMRMQ3MZ p;
     allowableModTokens := allowableModTokens p;
     setFragmentation := "ETD";
     annotatePeaks := annotatePeaks p;
     unidentifiedClusterMinimumDot := unidentifiedClusterMinimumDot p;
     unidentifiedSingletonXreaThreshold :=
       unidentifiedSingletonXreaThreshold p |}.

(** Under a fragmentation override the entry is written as ETD while the
    index is asked for the CID ion: the second pass does not find the ion
    in the output and the entry is written four times. *)
Example union_with_copy_under_fragmentation_override :
  map (fun e => (libId e, fragType e))
      (lib_entries (doneOr (construct [] unionParams)
                      (run [fileA; fileB] (withFragmentation unionParams))))
  = [(1, "ETD"%string); (1, "ETD"%string); (1, "ETD"%string);
     (1, "ETD"%string)].
Proof. vm_compute. reflexivity. Qed.

Definition subtractParams : Params :=
  exampleParams "SUBTRACT_HOMOLOGS" EmptyString 0 0 (6 # 10) (7 # 10).

(** Input 1 holds the peptide ions AAA at a precursor m/z of 400 and BBB
    at 500. Input 2 holds BBB at 502, inside the window of 4.5 around 500,
    and AAA at 410, outside the window around 400; input 3 cannot be
    opened. *)
Definition homologEntry (id : Z) (seq : string) (mz : double) : Entry :=
  {| libId := id; name := seq; libFileOffset := id;
     peptidePtr := Some {| stripped := seq; pepCharge := 2;
                           pepMods := EmptyString |};
     charge := 2; fragType := "CID"; status := "Normal"; nrepsUsed := 5;
     prob := 9 # 10; precursorMz := mz; comments := ∅;
     peakList := [examplePeak 1%Q 5] |}.

Definition homologLib (entries : list Entry) : SpLib :=
  {| pepidx := map (fun e => (name e, [("CID"%string, [e])])) entries;
     mzidx := entries; preambleLines := [] |}.

Definition firstInput : InputFile :=
  {| fileName := "first.splib";
     content := Some (homologLib [homologEntry 1 "AAA" 400%Q;
                                  homologEntry 2 "BBB" 500%Q]) |}.

Definition secondInput : InputFile :=
  {| fileName := "second.splib";
     content := Some (homologLib [homologEntry 3 "AAA" 410%Q;
                                  homologEntry 4 "BBB" 502%Q]) |}.

(** C7 at the three inputs: what is written is what survives the
    subtraction of the second input. *)
Lemma C7_three_inputs_example :
  exists s',
    run [firstInput; secondInput; missingFile] subtractParams = Done s'
    /\ lib_entries s'
       = written s'
           (List.filter (survivesSubtraction [secondInput; missingFile])
                        [homologEntry 1 "AAA" 400%Q;
                         homologEntry 2 "BBB" 500%Q]).
Proof.
  apply (C7_subtract_homologs firstInput [secondInput; missingFile]
           (homologLib [homologEntry 1 "AAA" 400%Q;
                        homologEntry 2 "BBB" 500%Q]) subtractParams);
    reflexivity.
Defined.

(** BBB has its like within 4.5 m/z in the second input and is excluded;
    AAA has its like there too, but 10 m/z away, and is written. *)
Example subtract_homologs_by_window :
  map (hasHomologIn [secondInput; missingFile])
      [homologEntry 1 "AAA" 400%Q; homologEntry 2 "BBB" 500%Q]
  = [false; true]
  /\ map libId
         (lib_entries
            (doneOr (construct [] subtractParams)
               (run [firstInput; secondInput; missingFile] subtractParams)))
     = [1].
Proof. split; vm_compute; reflexivity. Qed.

(** An entry without a peptide, alone in input 1. *)
Definition noPeptideEntry : Entry :=
  exampleEntry 7 None 5 (9 # 10) 500%Q [examplePeak 1%Q 5].

Definition noPeptideLib : SpLib :=
  {| pepidx := [("PEPTIDE/2"%string, [("CID"%string, [noPeptideEntry])])];
     mzidx := [noPeptideEntry]; preambleLines := [] |}.

Definition fileN : InputFile :=
  {| fileName := "n.splib"; content := Some noPeptideLib |}.

(** No other input holds anything, let alone a homolog, and still the
    entry is not in the output. *)
Lemma C7_entry_without_peptide_dropped :
  hasHomologIn [] noPeptideEntry = false
  /\ lib_entries (doneOr (construct [] subtractParams)
                    (run [fileN] subtractParams)) = [].
Proof. split; vm_compute; reflexivity. Qed.

(** C8 at two files given to the quality filter. *)
Lemma C8_two_files_example :
  exists cat txt,
    run [fileA; fileB] (exampleParams "UNION" "QUALITY_FILTER" 0 5
                          (6 # 10) (7 # 10))
    = Done (logMsg SevError cat txt
              (construct [fileA; fileB]
                 (exampleParams "UNION" "QUALITY_FILTER" 0 5
                    (6 # 10) (7 # 10))))
    /\ lib_preamble
         (logMsg SevError cat txt
            (construct [fileA; fileB]
               (exampleParams "UNION" "QUALITY_FILTER" 0 5
                  (6 # 10) (7 # 10)))) = None
    /\ lib_entries
         (logMsg SevError cat txt
            (construct [fileA; fileB]
               (exampleParams "UNION" "QUALITY_FILTER" 0 5
                  (6 # 10) (7 # 10)))) = [].
Proof.
  apply (C8_conflict_logged_no_output [fileA; fileB]
           (exampleParams "UNION" "QUALITY_FILTER" 0 5 (6 # 10) (7 # 10)));
    reflexivity.
Defined.

(** ** Similarity clustering *)

(** Three spectra at the same precursor m/z, with dot products 1 (first
    and second), 0.5 (first and third) and 0.25 (second and third), and a
    minimum dot of 0.75. *)
Definition clusterEntry (id : Z) : Entry :=
  exampleEntry id None 1 (9 # 10) 500%Q [examplePeak (inject_Z id) 1].

Definition clusterIndex : MzIndex :=
  [clusterEntry 1; clusterEntry 2; clusterEntry 3].

Definition clusterParams : Params :=
  exampleParams "UNION" "SIMILARITY_CLUSTERING" 0 0 (6 # 10) (3 # 4).

Definition secondWithThird : Comparison :=
  {| cmp_entry := 2; cmp_other := 3; cmp_round := 1; cmp_dot := 1 # 4;
     cmp_joined := true |}.

(** The scan of round 0 as it starts from the first spectrum: the three
    spectra are in the vector and the cluster holds the first. *)
Definition firstScan : Scan :=
  {| sc_st := {| cl_root := clusterEntry 1; cl_heap := clusterIndex;
                 cl_slots := [Some 0%nat; Some 1%nat; Some 2%nat];
                 cl_cluster := {[ 1 ]}; cl_trace := [] |};
     hits := []; numInCluster := 1; sumMzInCluster := 500%Q |}.

(** C6 at the three spectra. From the first spectrum, in round 0, the
    second (dot product 1) is inserted and the third (dot product 0.5,
    threshold 0.75) is not; the comparison of the second with the third,
    made in round 1, reached the threshold of 0.25 and the two are in one
    cluster of the run. *)
Lemma C6_second_with_third_example :
  cl_cluster (sc_st (scanOne clusterParams RootEntry 0 (4975 # 10) (5025 # 10)
                             firstScan 1))
  = {[ 2 ]} ∪ {[ 1 ]}
  /\ cl_cluster (sc_st (scanOne clusterParams RootEntry 0 (4975 # 10)
                                (5025 # 10) firstScan 2))
     = {[ 1 ]}
  /\ cl_cluster (sc_st (scanOne clusterParams RootEntry 0 (4975 # 10)
                                (5025 # 10) firstScan 0))
     = {[ 1 ]}
  /\ 0 <= cmp_round secondWithThird <= 2
  /\ cmp_joined secondWithThird
     = dge (cmp_dot secondWithThird)
           (roundThreshold clusterParams (cmp_round secondWithThird))
  /\ cmp_entry secondWithThird <> cmp_other secondWithThird
  /\ exists cl,
       In cl (multiclusters
                (clusterAll (construct [] clusterParams) clusterIndex))
       /\ 2 ∈ cl /\ 3 ∈ cl.
Proof.
  destruct (C6_direct_comparison_joins_by_round_threshold
              (construct [] clusterParams) clusterIndex)
    as (Hcmp & Hskip & Hrun).
  split; [|split; [|split]].
  - destruct (Hcmp clusterParams RootEntry 0 (4975 # 10) (5025 # 10)
                   firstScan 1%nat 1%nat) as [Hc _].
    + reflexivity.
    + cbn. intros H. apply elem_of_singleton in H. discriminate.
    + reflexivity.
    + cbv zeta in Hc. rewrite Hc. reflexivity.
  - destruct (Hcmp clusterParams RootEntry 0 (4975 # 10) (5025 # 10)
                   firstScan 2%nat 2%nat) as [Hc _].
    + reflexivity.
    + cbn. intros H. apply elem_of_singleton in H. discriminate.
    + reflexivity.
    + cbv zeta in Hc. rewrite Hc. reflexivity.
  - destruct (Hskip clusterParams RootEntry 0 (4975 # 10) (5025 # 10)
                    firstScan 0%nat) as [Hc _]; [|exact Hc].
    intros a Ha. injection Ha as <-. left. cbn.
    apply elem_of_singleton. reflexivity.
  - destruct (Hrun secondWithThird) as (H1 & H2 & H3 & H4 & _).
    { vm_compute. right. right. left. reflexivity. }
    split; [exact H1|]. split; [exact H2|]. split; [exact H3|].
    exact (H4 eq_refl).
Defined.

(** The third spectrum is compared twice: with the first in round 0,
    where the dot product of 0.5 is below the threshold of 0.75, and with
    the second in round 1, where the threshold is 0.25. The dot product of
    the second and the third is 0.25, below 0.3, and that comparison
    inserts the third spectrum: the run ends with the three spectra in one
    cluster. *)
Lemma C6_joined_below_three_tenths :
  cr_trace (clusterAll (construct [] clusterParams) clusterIndex)
  = [{| cmp_entry := 1; cmp_other := 2; cmp_round := 0; cmp_dot := 1%Q;
        cmp_joined := true |};
     {| cmp_entry := 1; cmp_other := 3; cmp_round := 0; cmp_dot := 1 # 2;
        cmp_joined := false |};
     secondWithThird]
  /\ compare (peakList (clusterEntry 2)) (peakList (clusterEntry 3)) = 1 # 4
  /\ dlt (cmp_dot secondWithThird) (3 # 10) = true
  /\ cmp_joined secondWithThird = true
  /\ map (fun cl => merge_sort Z.le (elements cl))
         (multiclusters (clusterAll (construct [] clusterParams) clusterIndex))
     = [[1; 2; 3]].
Proof. repeat split; vm_compute; reflexivity. Qed.

(** ** The statistics of a library *)

Definition pepOf (seq : string) : Peptide :=
  {| stripped := seq; pepCharge := 2; pepMods := EmptyString |}.

Definition qfEntry (id : Z) (seq : string) (nreps : Z) (p mz : double)
  : Entry :=
  {| libId := id; name := seq; libFileOffset := id;
     peptidePtr := Some (pepOf seq); charge := 2; fragType := "CID";
     status := "Normal"; nrepsUsed := nreps; prob := p; precursorMz := mz;
     comments := ∅; peakList := [examplePeak (inject_Z id) 1] |}.

(** Six entries: a singleton, an inquorate entry that is unconfirmed, an
    impure one, an inquorate one, a good one and an immune one. *)
Definition qfEntries : list Entry :=
  [qfEntry 1 "SHARED" 1 (9 # 10) 400%Q;
   qfEntry 2 "ALONE" 2 (9 # 10) 500%Q;
   qfEntry 3 "IMPURE" 5 (9 # 10) 600%Q;
   qfEntry 4 "SHARED" 2 (9 # 10) 700%Q;
   qfEntry 5 "GOOD" 9 (9 # 10) 800%Q;
   qfEntry 6 "ALONE" 1 1%Q 900%Q].

Definition qfLib : SpLib :=
  {| pepidx := map (fun e => (name e, [("CID"%string, [e])])) qfEntries;
     mzidx := qfEntries; preambleLines := [] |}.

Definition qfFile : InputFile :=
  {| fileName := "q.splib"; content := Some qfLib |}.

Definition statsParams : Params :=
  exampleParams "UNION" "QUALITY_FILTER" 5 0 (6 # 10) (7 # 10).

Definition statsRun : Importer :=
  doneOr (construct [] statsParams)
         (doQualityFilter (construct [qfFile] statsParams)).


(** The report of that run, the entries of the library that survive each
    level, and what the runs that remove write. *)
Example stats_report :
  option_map text (last (g_log statsRun))
  = Some [Str "Level 0 = "; UInt 6; Str "; Level 1 = "; UInt 5;
          Str "; Level 2 = "; UInt 5; Str "; Level 3 = "; UInt 4;
          Str "; Level 4 = "; UInt 3; Str "; Level 5 = "; UInt 2]
  /\ map (fun k =>
            map libId
              (lib_entries
                 (doneOr (construct [] statsParams)
                    (doQualityFilter
                       (construct [qfFile]
                          (setQualityLevels 0 k statsParams))))))
         [1; 2; 3; 4; 5]
     = [[1; 2; 4; 5; 6]; [1; 2; 4; 5; 6]; [1; 4; 5; 6]; [4; 5; 6]; [5; 6]]
  /\ map (fun k =>
            map libId
              (survivors statsParams (Some qfLib)
                 (passAllFilters (loopEntry qfFile statsParams)) k
                 (mzidx qfLib)))
         [1; 2; 3; 4; 5]
     = [[1; 2; 4; 5; 6]; [1; 2; 4; 5; 6]; [1; 4; 5; 6]; [4; 5; 6]; [5; 6]].
Proof. repeat split; vm_compute; reflexivity. Qed.

(** * Further worked examples *)

(** ** Combining libraries by SUBTRACT, INTERSECT and APPEND *)

(** A library of two peptide ions and one that holds the second of them. *)
Definition ionA : Entry := qfEntry 11 "AAA" 3 (9 # 10) 400%Q.
Definition ionB : Entry := qfEntry 12 "BBB" 3 (9 # 10) 500%Q.

Definition libAB : SpLib :=
  {| pepidx := [("AAA"%string, [("CID"%string, [ionA])]);
                ("BBB"%string, [("CID"%string, [ionB])])];
     mzidx := [ionA; ionB]; preambleLines := ["> ab.splib : two ions"%string] |}.

Definition libB : SpLib :=
  {| pepidx := [("BBB"%string, [("CID"%string, [ionB])])];
     mzidx := [ionB]; preambleLines := ["> b.splib : one ion"%string] |}.

Definition fileAB : InputFile :=
  {| fileName := "ab.splib"; content := Some libAB |}.

Definition fileOnlyB : InputFile :=
  {| fileName := "b.splib"; content := Some libB |}.

Lemma libAB_wf : wfIndex (pepidx libAB).
Proof.
  split.
  - repeat constructor.
    + intros H. apply list_elem_of_singleton in H. discriminate.
    + apply not_elem_of_nil.
  - repeat constructor; apply not_elem_of_nil.
Qed.

Lemma oneEntryLib_wf : wfIndex (pepidx oneEntryLib).
Proof.
  split.
  - constructor; [apply not_elem_of_nil|constructor].
  - repeat constructor. apply not_elem_of_nil.
Qed.

Definition subtractPlainParams : Params :=
  exampleParams "SUBTRACT" EmptyString 0 0 (6 # 10) (7 # 10).

Definition intersectParams : Params :=
  exampleParams "INTERSECT" EmptyString 0 0 (6 # 10) (7 # 10).

Definition appendParams : Params :=
  exampleParams "APPEND" EmptyString 0 0 (6 # 10) (7 # 10).

(** X1 at the library of two ions less the library of the second. *)
Lemma X1_subtract_example :
  exists s',
    run [fileAB; fileOnlyB] subtractPlainParams = Done s'
    /\ lib_entries s' =
       written s'
         (flat_map (fun ion => if inNoOther [fileOnlyB] ion.1.1 ion.1.2
                               then ion.2 else [])
                   (peptideIons (pepidx libAB))).
Proof.
  apply (subtract_writes_ions_absent_from_others fileAB [fileOnlyB] libAB
           subtractPlainParams); try reflexivity.
  apply libAB_wf.
Defined.

(** The first ion is written, the second is not. *)
Example subtract_keeps_the_first_ion :
  map libId (lib_entries (doneOr (construct [] subtractPlainParams)
                            (run [fileAB; fileOnlyB] subtractPlainParams)))
  = [11].
Proof. vm_compute. reflexivity. Qed.

(** X2 at the same two libraries. *)
Lemma X2_intersect_example :
  exists s',
    run [fileAB; fileOnlyB] intersectParams = Done s'
    /\ lib_entries s' =
       written s'
         (flat_map (fun ion => if inEveryOther [fileOnlyB] ion.1.1 ion.1.2
                               then fromAll [fileAB; fileOnlyB] ion.1.1 ion.1.2
                               else [])
                   (peptideIons (pepidx libAB))).
Proof.
  apply (intersect_writes_ions_present_in_all fileAB [fileOnlyB] libAB
           intersectParams); reflexivity.
Defined.

(** The second ion is written once from each library. *)
Example intersect_pools_the_common_ion :
  map libId (lib_entries (doneOr (construct [] intersectParams)
                            (run [fileAB; fileOnlyB] intersectParams)))
  = [12; 12].
Proof. vm_compute. reflexivity. Qed.

(** X3 at the library of one entry and its copy. *)
Lemma X3_append_example :
  exists s',
    run [fileA; fileB] appendParams = Done s'
    /\ lib_entries s'
       = written s' (flat_map snd (peptideIons (pepidx oneEntryLib))).
Proof.
  apply (append_with_itself_writes_each_entry_once fileA fileB oneEntryLib
           oneEntryLib appendParams); try reflexivity.
  - apply oneEntryLib_wf.
  - intros s peptide sks k es e Hp Hidx Hsks He.
    destruct Hidx as [Hidx|[]]. injection Hidx as <- <-.
    destruct Hsks as [Hsks|[]]. injection Hsks as <- <-.
    destruct He as [<-|[]].
    unfold processEntry. rewrite Hp. cbn.
    repeat match goal with
           | |- context [match ?x with _ => _ end] => destruct x
           end; reflexivity.
Defined.

(** Under a fragmentation override the second pass writes the entry
    again. *)
Example append_with_copy_under_fragmentation_override :
  map (fun e => (libId e, fragType e))
      (lib_entries (doneOr (construct [] appendParams)
                      (run [fileA; fileB] (withFragmentation appendParams))))
  = [(1, "ETD"%string); (1, "ETD"%string)].
Proof. vm_compute. reflexivity. Qed.

(** ** Build actions on one library *)

(** One peptide ion with two replicates. *)
Definition secondReplicate : Entry :=
  exampleEntry 2 (Some examplePeptide) 1 (9 # 10) 500%Q [examplePeak 2%Q 1].

Definition twoReplicatesLib : SpLib :=
  {| pepidx := [("PEPTIDE/2"%string,
                 [("CID"%string, [singletonEntry; secondReplicate])])];
     mzidx := [singletonEntry; secondReplicate]; preambleLines := [] |}.

Definition replicatesFile : InputFile :=
  {| fileName := "r.splib"; content := Some twoReplicatesLib |}.

Definition bestReplicateParams : Params :=
  exampleParams "UNION" "BEST_REPLICATE" 0 0 (6 # 10) (7 # 10).

Lemma twoReplicatesLib_wf : wfIndex (pepidx twoReplicatesLib).
Proof.
  split.
  - constructor; [apply not_elem_of_nil|constructor].
  - repeat constructor. apply not_elem_of_nil.
Qed.

(** X4 at the ion with two replicates. *)
Lemma X4_best_replicate_example :
  exists s',
    run [replicatesFile] bestReplicateParams = Done s'
    /\ lib_entries s' =
       written s' (flat_map (fun ion => reducedBy bestReplicateParams ion.2)
                            (peptideIons (pepidx twoReplicatesLib)))
    /\ (length (lib_entries s')
        <= length (peptideIons (pepidx twoReplicatesLib)))%nat.
Proof.
  apply (single_library_build_one_entry_per_ion replicatesFile
           twoReplicatesLib bestReplicateParams); try reflexivity.
  - left. reflexivity.
  - apply twoReplicatesLib_wf.
Defined.

(** ** More on the quality filter *)

Definition goodEntry : Entry := qfEntry 5 "GOOD" 9 (9 # 10) 800%Q.

(** The importer inside the loop of [doQualityFilter], removing at level
    [k], with the library loaded for the searches. *)
Definition qfAt (k : Z) : Importer :=
  setQFSearchLib (Some qfLib)
                 (construct [qfFile] (setQualityLevels 0 k statsParams)).

Definition keptAt5 : bool * Entry * QFStats * Importer :=
  doneOr (false, goodEntry, qfstats_zero, qfAt 5)
         (applyQualityFilter (qfAt 5) goodEntry qfstats_zero).

(** The importer of a run that removes at level 1 and marks nothing: no
    library is loaded for the searches. *)
Definition qfAt1 : Importer :=
  construct [qfFile] (setQualityLevels 0 1 statsParams).

(** X5 at the good entry: kept when removing at level 5, so kept when
    removing at level 3, and kept when removing at level 1 without a
    library for the searches. *)
Lemma X5_nested_levels_example :
  (exists e2 q2 s2,
     applyQualityFilter (qfAt 3) goodEntry qfstats_zero
     = Done (true, e2, q2, s2))
  /\ (exists e2 q2 s2,
        applyQualityFilter qfAt1 goodEntry qfstats_zero
        = Done (true, e2, q2, s2))
  /\ m_QFSearchLib qfAt1 = None.
Proof.
  split; [|split; [|reflexivity]].
  - apply (removal_levels_are_nested statsParams goodEntry 0 0 5 3
             (qfAt 5) (qfAt 3) qfstats_zero qfstats_zero
             keptAt5.1.1.2 keptAt5.1.2 keptAt5.2).
    + lia.
    + reflexivity.
    + reflexivity.
    + reflexivity.
    + vm_compute. reflexivity.
    + vm_compute. discriminate.
    + reflexivity.
  - apply (removal_levels_are_nested statsParams goodEntry 0 0 5 1
             (qfAt 5) qfAt1 qfstats_zero qfstats_zero
             keptAt5.1.1.2 keptAt5.1.2 keptAt5.2).
    + lia.
    + reflexivity.
    + reflexivity.
    + lia.
    + vm_compute. reflexivity.
    + vm_compute. discriminate.
    + lia.
Defined.

(** X6 at the entry of probability 1. *)
Lemma X6_immune_example :
  exists c s',
    applyQualityFilter removeAt5 (fourReplicates 1%Q) qfstats_zero
    = Done (true, setStatus "Normal" (fourReplicates 1%Q),
            incr c qfstats_zero, s')
    /\ (c = immuneProb \/ c = immuneEngine)
    /\ (forall c', levelsOf c' <> [] -> incr c qfstats_zero c' = qfstats_zero c')
    /\ lib_entries s' = lib_entries removeAt5
    /\ m_count s' = u32 (m_count removeAt5 + 1).
Proof.
  apply (immune_entry_always_kept removeAt5 (fourReplicates 1%Q) qfstats_zero).
  vm_compute. reflexivity.
Defined.

(** An entry of charge 1 whose peptide the example annotation leaves half
    unassigned. *)
Definition chargeOneEntry : Entry :=
  {| libId := 8; name := "IMPURE"; libFileOffset := 8;
     peptidePtr := Some (pepOf "IMPURE"); charge := 1; fragType := "CID";
     status := "Normal"; nrepsUsed := 5; prob := 9 # 10; precursorMz := 600%Q;
     comments := ∅; peakList := [examplePeak 8%Q 5] |}.

Definition removeAt1 : Importer :=
  construct [] (exampleParams "UNION" "QUALITY_FILTER" 0 1 (6 # 10) (7 # 10)).

Definition keptAt1 : bool * Entry * QFStats * Importer :=
  doneOr (false, chargeOneEntry, qfstats_zero, removeAt1)
         (applyQualityFilter removeAt1 chargeOneEntry qfstats_zero).

(** X7 at that entry, removing at level 1. *)
Lemma X7_charge_one_example :
  keptAt1.1.1.1 = true /\ keptAt1.1.2 Q1 = qfstats_zero Q1.
Proof.
  apply (charge_one_never_impure removeAt1 chargeOneEntry qfstats_zero
           keptAt1.1.1.1 keptAt1.1.1.2 keptAt1.1.2 keptAt1.2).
  - reflexivity.
  - vm_compute. discriminate.
  - vm_compute. reflexivity.
Defined.

Definition noLevelParams : Params :=
  exampleParams "UNION" "QUALITY_FILTER" 0 0 (6 # 10) (7 # 10).

(** X8 at the library of six entries. *)
Lemma X8_no_level_example :
  exists s',
    doQualityFilter (construct [qfFile] noLevelParams) = Done s'
    /\ m_QFSearchLib s' = None
    /\ length (lib_entries s')
       = length (List.filter (passAllFilters s') (mzidx qfLib)).
Proof.
  apply (quality_filter_without_levels_keeps_all qfFile qfLib noLevelParams).
  - reflexivity.
  - vm_compute. reflexivity.
  - vm_compute. discriminate.
  - vm_compute. discriminate.
Defined.

Definition modsParams : Params :=
  exampleParams "UNION" "USER_SPECIFIED_MODS" 0 0 (6 # 10) (7 # 10).


(** X23 at the six entries, marking at level 5. *)
Lemma X23_marking_example :
  length (lib_entries statsRun)
  = length (List.filter (passAllFilters statsRun) (mzidx qfLib)).
Proof.
  apply (marking_removes_nothing qfFile qfLib statsParams statsRun).
  - reflexivity.
  - vm_compute. reflexivity.
  - vm_compute. discriminate.
  - vm_compute. reflexivity.
Defined.

(** Two peptides at nearby precursors whose spectra have dot product 1;
    the second was seen in more replicates. *)
Definition fewReplicates : Entry := qfEntry 1 "AAA" 1 (9 # 10) 500%Q.
Definition manyReplicates : Entry := qfEntry 2 "BBB" 5 (9 # 10) 501%Q.

Definition conflictLib : SpLib :=
  {| pepidx := map (fun e => (name e, [("CID"%string, [e])]))
                   [fewReplicates; manyReplicates];
     mzidx := [fewReplicates; manyReplicates]; preambleLines := [] |}.

Definition conflictText : Text :=
  (doneOr (false, []) (isBadConflictingID (Some conflictLib) fewReplicates 1
                                           false)).2.

(** X10 at the entry with the fewer replicates. *)
Lemma X10_conflicting_id_example :
  exists i, In i (mzidx conflictLib)
    /\ Qle_bool (precursorMz fewReplicates - (45 # 10))%Q (precursorMz i) = true
    /\ Qle_bool (precursorMz i) (precursorMz fewReplicates + (45 # 10))%Q = true
    /\ outdoneBy fewReplicates 1 false i.
Proof.
  apply (bad_conflicting_id_has_a_better_match conflictLib fewReplicates 1
           false conflictText).
  vm_compute. reflexivity.
Defined.

(** ** More on similarity clustering *)

Definition firstCluster : gset Z :=
  nth 0 (multiclusters (clusterAll (construct [] clusterParams) clusterIndex))
      ∅.

(** X12 at the cluster of the three spectra. *)
Lemma X12_first_cluster_example :
  exists root,
    In root (sortEntriesBySN clusterIndex) /\ libFileOffset root ∈ firstCluster
    /\ forall x, x ∈ firstCluster -> nearRoot clusterIndex root x.
Proof.
  apply (cluster_members_are_near_its_root (construct [] clusterParams)
           clusterIndex firstCluster).
  vm_compute. left. reflexivity.
Defined.

(** The three spectra make one cluster. *)
Example one_cluster_of_three :
  map (fun c => merge_sort Z.le (elements c))
      (multiclusters (clusterAll (construct [] clusterParams) clusterIndex))
  = [[1; 2; 3]].
Proof. vm_compute. reflexivity. Qed.

(** ** processEntry *)

(** An importer whose protein mappings know the example sequence and map
    it to no protein. *)
Definition unmappedSequence : PPMap := <["PEPTIDE"%string := None]> ∅.

Definition unmappedImporter : Importer :=
  setPPMappings (Some unmappedSequence) (construct [] unionParams).

Definition proteinEntry : Entry :=
  setOneComment "Protein" "1/sp|P12345" singletonEntry.

(** X15 at an entry that came with a protein. *)
Lemma X15_unmapped_example :
  getOneComment "OrigProtein" (processEntry unmappedImporter proteinEntry)
  = Some "1/sp|P12345"%string
  /\ getOneComment "Protein" (processEntry unmappedImporter proteinEntry)
     = Some "0/UNMAPPED"%string
  /\ getOneComment "PepContext" (processEntry unmappedImporter proteinEntry)
     = Some "0/UNMAPPED"%string
  /\ getOneComment "OrigProtein"
       (processEntry unmappedImporter
          (processEntry unmappedImporter proteinEntry))
     = Some "0/UNMAPPED"%string.
Proof.
  apply (processEntry_unmapped_saves_original_protein unmappedImporter
           proteinEntry unmappedSequence examplePeptide).
  - reflexivity.
  - reflexivity.
  - vm_compute. reflexivity.
  - vm_compute. reflexivity.
Defined.

(** X16 at a target protein, a decoy and a second target. *)
Lemma X16_protein_order_example :
  joinProteins [("sp|P1"%string, "K.PEP.T"%string);
                ("DECOY_1"%string, "R.PEP.A"%string);
                ("sp|P2"%string, "R.PEP.L"%string)]
  = slashed (proteinOrder [("sp|P1"%string, "K.PEP.T"%string);
                           ("DECOY_1"%string, "R.PEP.A"%string);
                           ("sp|P2"%string, "R.PEP.L"%string)]).
Proof.
  apply (mapped_proteins_listed_decoys_last
           ("sp|P1"%string, "K.PEP.T"%string)
           [("DECOY_1"%string, "R.PEP.A"%string);
            ("sp|P2"%string, "R.PEP.L"%string)]).
  reflexivity.
Defined.

(** The second target comes first, the decoy last. *)
Example protein_order :
  joinProteins [("sp|P1"%string, "K.PEP.T"%string);
                ("DECOY_1"%string, "R.PEP.A"%string);
                ("sp|P2"%string, "R.PEP.L"%string)]
  = ("sp|P2/sp|P1/DECOY_1"%string, "R.PEP.L/K.PEP.T/R.PEP.A"%string).
Proof. vm_compute. reflexivity. Qed.

(** ** The output file name *)

(** File names without a directory. *)
Definition plainFileName (f : string) : FileName :=
  {| fn_path := EmptyString; fn_name := f; fn_ext := ".splib" |}.

(** X17 at SUBTRACT_HOMOLOGS. *)
Lemma X17_subtract_homologs_name_example :
  constructOutputFileName plainFileName ["a"%string; "b"%string] subtractParams
  = constructOutputFileName plainFileName ["a"%string; "b"%string] unionParams.
Proof.
  apply (other_combine_actions_named_as_union plainFileName
           ["a"%string; "b"%string] subtractParams unionParams); reflexivity.
Defined.

Example subtract_homologs_name :
  constructOutputFileName plainFileName ["a"%string; "b"%string] subtractParams
  = "a_U_b_new.splib"%string.
Proof. vm_compute. reflexivity. Qed.

(** ** hackDeamidation *)

(** A sequence with N at position 1 and Q at position 2, the latter
    already modified. *)
Definition deamPeptide : ModPeptide :=
  {| mp_stripped := "ANQK"; mp_NAA := 4;
     mods := <[2 := "Oxidation"%string]> ∅ |}.

Definition deamidated : ModPeptide :=
  setMods (<[1 := "Deamidated"%string]> (<[2 := "Oxidation"%string]> ∅))
          deamPeptide.

(** X19 at that sequence and a mass difference of 1. *)
Lemma X19_deamidation_example :
  numPossibleSites deamidated = 0
  /\ hackDeamidation 3 (Some deamidated) = Done (true, Some deamidated).
Proof.
  apply (hackDeamidation_settles 1 deamPeptide deamidated 3).
  - lia.
  - vm_compute. reflexivity.
Defined.

(** ** The F value *)

Definition exampleScores (bias f : double) : SimScores :=
  {| dot := 8 # 10; delta := 3 # 10; dotBias := bias; precursorMzDiff := 0%Q;
     hitsNum := 30; hitsMean := 0%Q; hitsStDev := 0%Q; fval := f;
     firstNonHomolog := 1 |}.

(** The penalty at an F value of 0.5: 0.12 from a dot bias of 0.05, nothing
    from 0.2, 0.24 from 0.5; and at an F value of 0.2 a dot bias of 0.5
    leaves -0.00001, which is 0.20001 below, and at an F value of -1 a
    dot bias of 0.2 leaves -0.00001, which is above. *)
Example dot_bias_penalty_values :
  map (fun bf => Qred (fval (imposeDotBiasPenalty (exampleScores bf.1 bf.2))))
      [(5 # 100, 1 # 2); (2 # 10, 1 # 2); (5 # 10, 1 # 2); (5 # 10, 2 # 10);
       (2 # 10, - (1))]%Q
  = [19 # 50; 1 # 2; 13 # 50; -1 # 100000; -1 # 100000]%Q.
Proof. vm_compute. reflexivity. Qed.

(** X22 at a dot product of 0.8, a delta of 0.3 and a delta fraction of
    one half. *)
Lemma X22_calcFval_example :
  fval (calcFval (1 # 2) (exampleScores (2 # 10) 0%Q)) = (- (1 # 100000))%Q
  \/ (0 < fval (calcFval (1 # 2) (exampleScores (2 # 10) 0%Q))
      /\ fval (calcFval (1 # 2) (exampleScores (2 # 10) 0%Q)) <= 1)%Q.
Proof.
  apply (calcFval_range (1 # 2) (exampleScores (2 # 10) 0%Q));
    vm_compute; discriminate.
Defined.
